(** * Data loading for multimodal affect data: a model of [src/loader.py]

    The loader filters degenerate samples ([drop_entry]), serves single
    samples ([SentimentDataset.__getitem__]) and assembles batches
    ([_process_1], [_process_2] and the meld [collate_fn]).  Arrays and
    tensors are modelled by their shape and their entries; the entries
    themselves are elements of an abstract numeric type with the handful of
    operations the loader calls, so that every statement below holds for
    whatever floating-point or integer dtype the data carries. *)

From Stdlib Require Import ZArith Floats.PrimFloat Floats.SpecFloat Floats.FloatOps
  Floats.FloatAxioms.
From stdpp Require Import gmap strings list fin_maps sorting.

Local Open Scope Z_scope.
Local Open Scope nat_scope.

(** ** Outcomes of a Python call *)

(** The exceptions the loader can run into. *)
Inductive exn := IndexError | KeyError | ValueError | RuntimeError.

(** A call returns, raises, or ends the process through [exit()]. *)
Inductive outcome (A : Type) : Type :=
  | Return (a : A)
  | Raise (e : exn)
  | SystemExit.
Arguments Return {A} a.
Arguments Raise {A} e.
Arguments SystemExit {A}.

#[global] Instance outcome_ret : MRet outcome := @Return.
#[global] Instance outcome_bind : MBind outcome := λ A B f m,
  match m with
  | Return a => f a
  | Raise e => Raise e
  | SystemExit => SystemExit
  end.
#[global] Instance outcome_fmap : FMap outcome := λ A B f m,
  match m with
  | Return a => Return (f a)
  | Raise e => Raise e
  | SystemExit => SystemExit
  end.

(** ** Numeric kernel

    What numpy and torch do to a single number, or to a run of numbers, is
    not the loader's business: it is taken as an interface. *)
Class Numeric := {
  scalar : Type;
  (** [0.0], the fill value of [F.pad] and [pad_sequence] *)
  zero : scalar;
  (** a Python integer stored in a tensor *)
  of_int : Z → scalar;
  (** [x != 0], the test behind [Tensor.nonzero] *)
  nonzero : scalar → bool;
  (** [ndarray.sum()] over all entries, given in row-major order *)
  np_sum : list scalar → scalar;
  (** [s == 0] *)
  eq_zero : scalar → bool;
  (** [flag > 0] *)
  gt_zero : scalar → bool;
  (** [x == -np.inf] *)
  is_neg_inf : scalar → bool;
  (** [.float()] on one entry *)
  to_float : scalar → scalar;
  (** [mean] and [torch.std] of one feature column; [torch.std] works out a
      result that is a single number, the one column of a tensor of width
      1, on a path of its own *)
  mean : list scalar → scalar;
  std : list scalar → scalar;
  std_all : list scalar → scalar;
  sub : scalar → scalar → scalar;
  div : scalar → scalar → scalar;
  (** [torch.nan_to_num] on one entry *)
  nan_to_num : scalar → scalar;
}.

Section Loader.
Context `{Numeric}.

(** ** Tensors *)

(** A 2-D array or tensor of shape [(length rows, ncols)]. *)
Record tensor2 := T2 { ncols : nat; rows : list (list scalar) }.

(** A 3-D batch tensor of shape [(length items, dim1, dim2)]. *)
Record tensor3 := T3 { dim1 : nat; dim2 : nat; items : list (list (list scalar)) }.

(** [t.size(0)] / [t.shape[0]] *)
Definition size0 (t : tensor2) : nat := length (rows t).

(** Every row has the declared width. *)
Definition rect (t : tensor2) : Prop := Forall (λ r, length r = ncols t) (rows t).

Definition map2 (f : scalar → scalar) (t : tensor2) : tensor2 :=
  T2 (ncols t) (map (map f) (rows t)).

(** [t.float()] *)
Definition as_float (t : tensor2) : tensor2 := map2 to_float t.

(** [t.flatten()] *)
Definition flatten (t : tensor2) : list scalar := concat (rows t).

(** [t[start:]] for a start offset that is not negative *)
Definition slice_from (start : nat) (t : tensor2) : tensor2 :=
  T2 (ncols t) (drop start (rows t)).

(** [t[:stop]] with Python's reading of a negative [stop] *)
Definition slice_to (stop : Z) (t : tensor2) : tensor2 :=
  let n := Z.of_nat (size0 t) in
  let k := if (0 <=? stop)%Z then stop else (n + stop)%Z in
  T2 (ncols t) (take (Z.to_nat k) (rows t)).

Definition zero_row (w : nat) : list scalar := replicate w zero.

(** [F.pad(t, (0, 0, 0, k))]: [k] rows of zeros below; a negative [k] crops,
    and is refused when nothing of non-negative size is left. *)
Definition F_pad_below (t : tensor2) (k : Z) : outcome tensor2 :=
  let n := (Z.of_nat (size0 t) + k)%Z in
  if (n <? 0)%Z then Raise RuntimeError
  else Return (T2 (ncols t)
                 (take (Z.to_nat n) (rows t) ++ replicate (Z.to_nat k) (zero_row (ncols t)))).

(** [l[i]] on a Python sequence, negative indices counting from the end *)
Definition py_index {A} (l : list A) (i : Z) : outcome A :=
  let n := Z.of_nat (length l) in
  let j := if (0 <=? i)%Z then i else (n + i)%Z in
  if (j <? 0)%Z then Raise IndexError
  else match l !! Z.to_nat j with
       | Some x => Return x
       | None => Raise IndexError
       end.

(** ** Sequence padding and stacking *)

(** The longest time axis in a list of sequences. *)
Definition max_len (sequences : list tensor2) : nat := max_list (size0 <$> sequences).

(** One sequence filled up with zero frames of width [w] to [n] frames. *)
Definition right_pad (n w : nat) (s : tensor2) : list (list scalar) :=
  rows s ++ replicate (n - size0 s) (zero_row w).

Definition batch_of (n w : nat) (sequences : list tensor2) : tensor3 :=
  T3 n w (right_pad n w <$> sequences).

(** What [copy_] writes into frames of width [w] from the sequence [s]: its
    own frames when the widths agree, and for a sequence of width 1 each
    value spread over the [w] columns (broadcasting). *)
Definition expand (w : nat) (s : tensor2) : tensor2 :=
  if ncols s =? w then s
  else T2 w ((λ r, x ← r; replicate w x) <$> rows s).

(** [pad_sequence(sequences, batch_first=True)]: the output, filled with
    zeros, takes its trailing width from the first sequence; every sequence
    is then copied into its leading frames, which works for a sequence of
    that width or of width 1 and is a [RuntimeError] for any other. *)
Definition pad_sequence (sequences : list tensor2) : outcome tensor3 :=
  match sequences with
  | [] => Raise RuntimeError
  | s0 :: _ =>
      if forallb (λ s, (ncols s =? ncols s0) || (ncols s =? 1)) sequences
      then Return (batch_of (max_len sequences) (ncols s0)
                     (expand (ncols s0) <$> sequences))
      else Raise RuntimeError
  end.

(** [torch.stack(tensors)]: all shapes must agree. *)
Definition stack (tensors : list tensor2) : outcome tensor3 :=
  match tensors with
  | [] => Raise RuntimeError
  | s0 :: _ =>
      if forallb (λ s, (size0 s =? size0 s0) && (ncols s =? ncols s0)) tensors
      then Return (T3 (size0 s0) (ncols s0) (rows <$> tensors))
      else Raise RuntimeError
  end.

(** ** Labels in the collators *)

(** [t.reshape(n, m)]: the entries in row-major order, cut into [n] rows of
    [m]; refused when the number of entries is not [n * m]. *)
Fixpoint chunks (m n : nat) (l : list scalar) : list (list scalar) :=
  match n with
  | 0 => []
  | S n' => take m l :: chunks m n' (drop m l)
  end.

Definition reshape (t : tensor2) (n m : nat) : outcome tensor2 :=
  if length (flatten t) =? n * m
  then Return (T2 m (chunks m n (flatten t)))
  else Raise RuntimeError.

(** [t.T] *)
Definition transpose (t : tensor2) : tensor2 :=
  T2 (size0 t) ((λ j, omap (λ r, r !! j) (rows t)) <$> seq 0 (ncols t)).

(** [t[0]] *)
Definition row0 (t : tensor2) : outcome (list scalar) :=
  match rows t with
  | r :: _ => Return r
  | [] => Raise IndexError
  end.

(** What a collator appends to [labels]: a 1-D row or the label itself. *)
Inductive collected :=
  | Row (r : list scalar)
  | Whole (t : tensor2).

Definition entries (c : collected) : list scalar :=
  match c with
  | Row r => r
  | Whole t => flatten t
  end.

(** The body of the label loop shared by both collators:
    [sample[-1].reshape(shape[1], shape[0])[0]] when [shape[1] > 1]. *)
Definition collect_label (label : tensor2) : outcome collected :=
  if 1 <? ncols label
  then t ← reshape label (ncols label) (size0 label); Row <$> row0 t
  else Return (Whole label).

(** [torch.tensor(labels)] on a list of tensors takes the single entry of
    each one and refuses a tensor holding any other number of entries. *)
Definition item (c : collected) : outcome scalar :=
  match entries c with
  | [x] => Return x
  | _ => Raise ValueError
  end.

(** [.view(n, 1)] of a 1-D tensor *)
Definition view_column {A} (n : nat) (l : list A) : outcome (list (list A)) :=
  if length l =? n then Return ((λ x, [x]) <$> l) else Raise RuntimeError.

(** [torch.tensor(labels).view(n, 1)] *)
Definition tensor_column (n : nat) (labels : list collected) : outcome (list (list scalar)) :=
  xs ← mapM item labels;
  view_column n xs.

(** ** Samples of the continuous family *)

(** [[vision, audio, text, ind, label]] *)
Record sample5 := Sample5 {
  vision5 : tensor2; audio5 : tensor2; text5 : tensor2;
  ind5 : Z; label5 : tensor2 }.

(** [[vision, audio, text, label]] *)
Record sample4 := Sample4 {
  vision4 : tensor2; audio4 : tensor2; text4 : tensor2; label4 : tensor2 }.

(** [sample[i]] for the leading, tensor-valued positions *)
Definition get5 (i : nat) (s : sample5) : tensor2 :=
  match i with 0 => vision5 s | 1 => audio5 s | _ => text5 s end.

Definition get4 (i : nat) (s : sample4) : tensor2 :=
  match i with 0 => vision4 s | 1 => audio4 s | _ => text4 s end.

(** ** The collators *)

(** [_process_1]: for each of the [len(inputs[0]) - 2] leading positions the
    samples' tensors are padded to one length and their own lengths are
    recorded; then indices and labels are gathered and returned as columns. *)
Definition _process_1 (inputs : list sample5)
  : outcome (list tensor3 * list (list nat) * list (list Z) * list (list scalar)) :=
  match inputs with
  | [] => Raise IndexError
  | _ :: _ =>
      processed ← mapM (λ i,
          let feature := get5 i <$> inputs in
          let lengths := size0 <$> feature in
          pad_seq ← pad_sequence feature;
          Return (pad_seq, lengths)) (seq 0 (5 - 2));
      let inds := ind5 <$> inputs in
      labels ← mapM collect_label (label5 <$> inputs);
      inds_t ← view_column (length inputs) inds;
      labels_t ← tensor_column (length inputs) labels;
      Return (processed.*1, processed.*2, inds_t, labels_t)
  end.

(** [_process_2]: the same loop over the [len(inputs[0]) - 1] leading
    positions, with [torch.stack] in place of padding; the lengths are
    computed and not returned. *)
Definition _process_2 (inputs : list sample4)
  : outcome (tensor3 * tensor3 * tensor3 * list (list scalar)) :=
  match inputs with
  | [] => Raise IndexError
  | _ :: _ =>
      processed ← mapM (λ i,
          let feature := get4 i <$> inputs in
          let lengths := size0 <$> feature in
          stacked ← stack feature;
          Return (stacked, lengths)) (seq 0 (4 - 1));
      labels ← mapM collect_label (label4 <$> inputs);
      match processed.*1 with
      | [v; a; t] =>
          labels_t ← tensor_column (length inputs) labels;
          Return (v, a, t, labels_t)
      | _ => Raise IndexError
      end
  end.

(** ** Entry dropping *)

(** [k.sum() == 0] *)
Definition zero_sum (k : tensor2) : bool := eq_zero (np_sum (flatten k)).

(** The indices [ind] at which [k.sum() == 0], in [enumerate] order. *)
Fixpoint zero_sum_indices (ind : nat) (text : list tensor2) : list nat :=
  match text with
  | [] => []
  | k :: rest =>
      if zero_sum k
      then ind :: zero_sum_indices (S ind) rest
      else zero_sum_indices (S ind) rest
  end.

(** The entries of [arr] whose position, counted from [i], is not in [obj]. *)
Fixpoint delete_from {A} (i : nat) (obj : list nat) (arr : list A) : list A :=
  match arr with
  | [] => []
  | x :: rest =>
      if bool_decide (i ∈ obj)
      then delete_from (S i) obj rest
      else x :: delete_from (S i) obj rest
  end.

(** [np.delete(arr, obj, 0)]: an index past the end is an [IndexError]. *)
Definition np_delete {A} (arr : list A) (obj : list nat) : outcome (list A) :=
  if forallb (λ i, i <? length arr) obj
  then Return (delete_from 0 obj arr)
  else Raise IndexError.

(** One turn of the loop over [list(dataset.keys())]. *)
Definition drop_step (drop : list nat)
    (acc : outcome (gmap string (list tensor2))) (modality : string)
  : outcome (gmap string (list tensor2)) :=
  dataset ← acc;
  match dataset !! modality with
  | None => Raise KeyError
  | Some arr => arr' ← np_delete arr drop; Return (<[modality := arr']> dataset)
  end.

Definition drop_entry (dataset : gmap string (list tensor2))
  : outcome (gmap string (list tensor2)) :=
  match dataset !! "text" with
  | None => Raise KeyError
  | Some text =>
      let drop := zero_sum_indices 0 text in
      foldl (drop_step drop) (Return dataset) (map_to_list dataset).*1
  end.

(** The three calls at the head of [get_dataloader]:
    [alldata[split] = drop_entry(alldata[split])] for train, valid, test. *)
Definition drop_split (split : string)
    (alldata : gmap string (gmap string (list tensor2)))
  : outcome (gmap string (gmap string (list tensor2))) :=
  match alldata !! split with
  | None => Raise KeyError
  | Some d => d' ← drop_entry d; Return (<[split := d']> alldata)
  end.

Definition drop_all_splits (alldata : gmap string (gmap string (list tensor2)))
  : outcome (gmap string (gmap string (list tensor2))) :=
  alldata ← drop_split "train" alldata;
  alldata ← drop_split "valid" alldata;
  drop_split "test" alldata.

(** ** The sentiment dataset *)

(** What a retrieval can touch besides its arguments: the dictionary bound
    to [self.dataset] (the caller's own object, not a copy) and what has been
    printed so far, one entry per [print(text, ind)]. *)
Record world := World {
  dataset : gmap string (list tensor2);
  stdout : list (tensor2 * Z) }.

Definition M (A : Type) : Type := world → outcome A * world.

Definition ret {A} (a : A) : M A := λ w, (Return a, w).

Definition bind {A B} (m : M A) (f : A → M B) : M B := λ w,
  match m w with
  | (Return a, w') => f a w'
  | (Raise e, w') => (Raise e, w')
  | (SystemExit, w') => (SystemExit, w')
  end.

Definition lift {A} (o : outcome A) : M A := λ w, (o, w).

(** [self.dataset[key][ind]]; [torch.tensor] then copies what it is given. *)
Definition read (key : string) (ind : Z) : M tensor2 := λ w,
  match dataset w !! key with
  | None => (Raise KeyError, w)
  | Some arr => (py_index arr ind, w)
  end.

(** [print(text, ind)] *)
Definition print (text : tensor2) (ind : Z) : M unit := λ w,
  (Return (), World (dataset w) (stdout w ++ [(text, ind)])).

(** [exit()] *)
Definition exit {A} : M A := λ w, (SystemExit, w).

Notation "x ←← m ; k" := (bind m (λ x, k))
  (at level 20, m at level 100, k at level 200, only parsing, right associativity).
Notation "' x ←← m ; k" := (bind m (λ x, k))
  (at level 20, x pattern, m at level 100, k at level 200, only parsing, right associativity).

(** A computation that leaves the dataset dictionary as it found it. *)
Definition read_only {A} (m : M A) : Prop := ∀ w, dataset (m w).2 = dataset w.

(** The attributes [__init__] stores, [self.dataset] apart. *)
Record SentimentDataset := {
  flatten_ts : bool;
  aligned : bool;
  task : option string;
  max_pad : bool;
  max_pad_num : Z;
  data_type : string;
  z_norm : bool }.

(** [a[a == -np.inf] = 0.0] on one sample of the audio array *)
Definition clean_neg_inf (t : tensor2) : tensor2 :=
  map2 (λ x, if is_neg_inf x then zero else x) t.

Definition __init__ (flatten_time_series aligned : bool) (task : option string)
    (max_pad : bool) (max_pad_num : Z) (data_type : string) (z_norm : bool)
  : M SentimentDataset := λ w,
  match dataset w !! "audio" with
  | None => (Raise KeyError, w)
  | Some audio =>
      (Return {| flatten_ts := flatten_time_series; aligned := aligned; task := task;
                 max_pad := max_pad; max_pad_num := max_pad_num;
                 data_type := data_type; z_norm := z_norm |},
       World (<["audio" := clean_neg_inf <$> audio]> (dataset w)) (stdout w))
  end.

(** The time index of the first row holding a non-zero entry, counted
    from [i]: what [t.nonzero()[0][0]] reads off. *)
Fixpoint first_nonzero_from (i : nat) (rs : list (list scalar)) : option nat :=
  match rs with
  | [] => None
  | r :: rest => if existsb nonzero r then Some i else first_nonzero_from (S i) rest
  end.

Definition first_nonzero (t : tensor2) : option nat := first_nonzero_from 0 (rows t).

(** [t[t.nonzero()[0][0]:].float()] *)
Definition from_first_nonzero (t : tensor2) : outcome tensor2 :=
  match first_nonzero t with
  | Some start => Return (as_float (slice_from start t))
  | None => Raise IndexError
  end.

(** The branch on [self.aligned]. *)
Definition align (self : SentimentDataset) (ind : Z) (vision audio text : tensor2)
  : M (tensor2 * tensor2 * tensor2) :=
  if aligned self then
    match first_nonzero text with
    | Some start =>
        ret (as_float (slice_from start vision),
             as_float (slice_from start audio),
             as_float (slice_from start text))
    | None => _ ←← print text ind; exit
    end
  else
    vision ←← lift (from_first_nonzero vision);
    audio ←← lift (from_first_nonzero audio);
    text ←← lift (from_first_nonzero text);
    ret (vision, audio, text).

(** Feature column [j]. *)
Definition column (j : nat) (t : tensor2) : list scalar :=
  omap (λ r, r !! j) (rows t).

(** A reduction along the time axis with [keepdims=True]: one value per
    feature. *)
Definition reduce0 (f : list scalar → scalar) (t : tensor2) : list scalar :=
  (λ j, f (column j t)) <$> seq 0 (ncols t).

(** [torch.nan_to_num((t - t.mean(0, keepdims=True)) / torch.std(t, axis=0, keepdims=True))] *)
Definition z_normalize (t : tensor2) : tensor2 :=
  let mu := reduce0 mean t in
  let sigma := reduce0 (if ncols t =? 1 then std_all else std) t in
  T2 (ncols t)
     ((λ r, zip_with (λ x ms, nan_to_num (div (sub x ms.1) ms.2)) r (zip mu sigma))
        <$> rows t).

(** [[[1]] if flag > 0 else [[0]]]; an array with more than one entry, or
    none, has no truth value. *)
Definition _get_class (flag : tensor2) : outcome tensor2 :=
  match flatten flag with
  | [x] => Return (T2 1 [[of_int (if gt_zero x then 1 else 0)]])
  | _ => Raise ValueError
  end.

(** One turn of the [max_pad] loop:
    [tmp[i] = tmp[i][:n]; tmp[i] = F.pad(tmp[i], (0, 0, 0, n - tmp[i].shape[0]))]. *)
Definition pad_to (n : Z) (t : tensor2) : outcome tensor2 :=
  let t := slice_to n t in
  F_pad_below t (n - Z.of_nat (size0 t)).

(** The three shapes of list [__getitem__] returns. *)
Inductive retrieved :=
  | Flat (vision audio text : list scalar) (ind : Z) (label : tensor2)
  | Padded (s : sample4)
  | Unpadded (s : sample5).

(** The first part of [__getitem__], up to the label: the three modalities
    cut at their start, normalised if asked, and the label tensor. *)
Definition prepare (self : SentimentDataset) (ind : Z)
  : M (tensor2 * tensor2 * tensor2 * tensor2) :=
  vision ←← read "vision" ind;
  audio ←← read "audio" ind;
  text ←← read "text" ind;
  '(vision, audio, text) ←← align self ind vision audio text;
  let '(vision, audio, text) :=
    if z_norm self
    then (z_normalize vision, z_normalize audio, z_normalize text)
    else (vision, audio, text) in
  tmp_label ←← read "labels" ind;
  label ←← lift (if bool_decide (task self = Some "classification")
                 then _get_class tmp_label
                 else Return (as_float tmp_label));
  ret (vision, audio, text, label).

(** The second part: the list that is returned. *)
Definition pack (self : SentimentDataset) (ind : Z)
    (vision audio text label : tensor2) : M retrieved :=
  if flatten_ts self then
    ret (Flat (flatten vision) (flatten audio) (flatten text) ind label)
  else if max_pad self then
    vision ←← lift (pad_to (max_pad_num self) vision);
    audio ←← lift (pad_to (max_pad_num self) audio);
    text ←← lift (pad_to (max_pad_num self) text);
    ret (Padded (Sample4 vision audio text label))
  else
    ret (Unpadded (Sample5 vision audio text ind label)).

Definition __getitem__ (self : SentimentDataset) (ind : Z) : M retrieved :=
  '(vision, audio, text, label) ←← prepare self ind;
  pack self ind vision audio text label.

(** [len(self)] *)
Definition __len__ (w : world) : outcome nat :=
  match dataset w !! "vision" with
  | None => Raise KeyError
  | Some arr => Return (length arr)
  end.

(** ** The meld dataset and its collator *)

(** One record of the pickled mapping, with its key as [Id]. *)
Record meld_sample := {
  Id : string;
  token_ids : list Z;
  video_features : tensor2;
  audio_features : tensor2;
  meld_label : Z }.

(** A 2-D tensor of integers of shape [(length irows, icols)]. *)
Record itensor2 := IT2 { icols : nat; irows : list (list Z) }.

(** [sorted(batch, key=lambda x: len(x["token_ids"]))]: stable, so a sample
    goes in front of the first one that is strictly longer. *)
Fixpoint insert_by_len (x : meld_sample) (l : list meld_sample) : list meld_sample :=
  match l with
  | [] => [x]
  | y :: rest =>
      if length (token_ids y) <? length (token_ids x)
      then y :: insert_by_len x rest
      else x :: l
  end.

Fixpoint sorted (batch : list meld_sample) : list meld_sample :=
  match batch with
  | [] => []
  | x :: rest => insert_by_len x (sorted rest)
  end.

(** [pad_sequence] on 1-D integer sequences. *)
Definition pad_sequence_1d (sequences : list (list Z)) : outcome itensor2 :=
  match sequences with
  | [] => Raise RuntimeError
  | _ :: _ =>
      let max_len := max_list (length <$> sequences) in
      Return (IT2 max_len
                ((λ s, s ++ replicate (max_len - length s) 0%Z) <$> sequences))
  end.

(** [F.pad(text, (1, 0, 0, 0))]: one zero in front of every row. *)
Definition pad_left_1d (t : itensor2) : itensor2 :=
  IT2 (S (icols t)) ((λ r, 0%Z :: r) <$> irows t).

(** [F.pad(x, (0, 0, 1, 0, 0, 0))]: one zero frame in front of every sample. *)
Definition pad_front (t : tensor3) : tensor3 :=
  T3 (S (dim1 t)) (dim2 t) ((λ it, zero_row (dim2 t) :: it) <$> items t).

(** [arange(SENT_LEN).unsqueeze(0).expand_as(text) < lengths.unsqueeze(-1)] *)
Definition sent_mask (sent_len : nat) (lengths : list nat) : list (list bool) :=
  (λ len, (λ t, t <? len) <$> seq 0 sent_len) <$> lengths.

(** The eight values [collate_fn] returns; the two [None] slots are not
    kept. *)
Record meld_batch := {
  mb_text : itensor2;
  mb_visual : tensor3;
  mb_acoustic : tensor3;
  mb_labels : list Z;
  mb_lengths : list nat;
  mb_mask : list (list bool) }.

(** [torch.FloatTensor(...)] stores every entry as a 32-bit float; the token
    ids and the labels go into [LongTensor]s as they are. *)
Definition collate_fn (batch : list meld_sample) : outcome meld_batch :=
  let batch := sorted batch in
  let labels := meld_label <$> batch in
  text ← pad_sequence_1d (token_ids <$> batch);
  visual ← pad_sequence ((λ sample, as_float (video_features sample)) <$> batch);
  acoustic ← pad_sequence ((λ sample, as_float (audio_features sample)) <$> batch);
  let lengths := (λ sample, length (token_ids sample)) <$> batch in
  let text := pad_left_1d text in
  let visual := pad_front visual in
  let acoustic := pad_front acoustic in
  let lengths := (λ n, n + 1) <$> lengths in
  let SENT_LEN := icols text in
  let bert_sent_mask := sent_mask SENT_LEN lengths in
  Return {| mb_text := text; mb_visual := visual; mb_acoustic := acoustic;
            mb_labels := labels; mb_lengths := lengths; mb_mask := bert_sent_mask |}.

(** ** Shapes the loader is fed *)

(** A label the collators can turn into one number: a single row holding at
    least one value. *)
Definition label_ok (label : tensor2) : Prop :=
  size0 label = 1 ∧ 1 ≤ ncols label ∧ rect label.

(** The entry at position [(0, 0)]. *)
Definition first_entry (t : tensor2) : option scalar := head (flatten t).

Definition label_entry (t : tensor2) : scalar := default zero (first_entry t).

(** A batch of unpadded samples cut from one split: each modality has one
    feature width throughout, and every label is a single row. *)
Definition unpadded_batch (inputs : list sample5) : Prop :=
  (∀ i, i < 3 → ∃ w, Forall (λ s, ncols (get5 i s) = w) inputs) ∧
  Forall (λ s, label_ok (label5 s)) inputs.

(** Sequences [pad_sequence] can copy into one batch tensor: there is a
    first one, and each has its width or width 1. *)
Definition copyable (sequences : list tensor2) : Prop :=
  match sequences with
  | [] => False
  | s0 :: _ => Forall (λ s, ncols s = ncols s0 ∨ ncols s = 1) sequences
  end.

(** An integer a [LongTensor] can hold. *)
Definition int64 (z : Z) : Prop := (- 2 ^ 63 ≤ z < 2 ^ 63)%Z.

(** The same for samples already padded to one length. *)
Definition padded_batch (inputs : list sample4) : Prop :=
  (∀ i, i < 3 → ∃ n w, Forall (λ s, size0 (get4 i s) = n ∧ ncols (get4 i s) = w) inputs) ∧
  Forall (λ s, label_ok (label4 s)) inputs.

(** The sample indices [drop_entry] keeps, in order. *)
Definition kept_indices (text : list tensor2) : list nat :=
  filter (λ j, j ∉ zero_sum_indices 0 text) (seq 0 (length text)).

(** The positions whose text array does not add up to zero, in order. *)
Definition nonzero_sum_indices (text : list tensor2) : list nat :=
  filter (λ j, (λ k, eq_zero (np_sum (flatten k))) <$> text !! j = Some false)
         (seq 0 (length text)).

(** The entries of [arr] at the given indices. *)
Definition select {A} (idx : list nat) (arr : list A) : list A :=
  omap (λ j, arr !! j) idx.

(** A split in which every array holds one entry per sample. *)
Definition common_count (d : gmap string (list tensor2)) (n : nat) : Prop :=
  ∀ key arr, d !! key = Some arr → length arr = n.

(** The number of valid positions in one row of the mask. *)
Definition row_sum (row : list bool) : nat := length (filter (λ b, b = true) row).

(** The modality has a non-zero entry somewhere. *)
Definition has_nonzero (t : tensor2) : Prop :=
  Exists (λ r, existsb nonzero r = true) (rows t).

(** Frame [k] is the first one holding a non-zero entry. *)
Definition is_first_nonzero (t : tensor2) (k : nat) : Prop :=
  (∃ r, rows t !! k = Some r ∧ existsb nonzero r = true) ∧
  ∀ j r, j < k → rows t !! j = Some r → existsb nonzero r = false.

(** [t] cut at [n] frames and filled up with zero frames to [n]. *)
Definition fixed_length (n : nat) (t : tensor2) : tensor2 :=
  T2 (ncols t) (take n (rows t) ++ replicate (n - size0 t) (zero_row (ncols t))).

(** A sample as the [max_pad] branch hands it out for [max_pad_num = n]. *)
Definition fixed_sample (n : nat) (s : sample4) : Prop :=
  ∃ vision audio text,
    s = Sample4 (fixed_length n vision) (fixed_length n audio) (fixed_length n text)
          (label4 s).

(** What the collators are said to do with one label. *)
Definition label_rule (label : tensor2) : Prop :=
  (1 < ncols label →
     collect_label label = Row <$> row0 (transpose label) ∧
     row0 (transpose label) = Return [label_entry label]) ∧
  (ncols label ≤ 1 → collect_label label = Return (Whole label)).

(** Every entry is zero. *)
Definition all_zero (t : tensor2) : Prop :=
  Forall (λ r, existsb nonzero r = false) (rows t).

(** ** The meld dataset object *)

(** One value of the pickled mapping: the record without its key. *)
Record raw_meld := {
  raw_token_ids : list Z;
  raw_video_features : tensor2;
  raw_audio_features : tensor2;
  raw_label : Z }.

(** [{'Id': key, **value}] *)
Definition with_id (entry : string * raw_meld) : meld_sample :=
  {| Id := entry.1;
     token_ids := raw_token_ids entry.2;
     video_features := raw_video_features entry.2;
     audio_features := raw_audio_features entry.2;
     meld_label := raw_label entry.2 |}.

(** The attributes [MeldDataset.__init__] stores. *)
Record MeldDataset := {
  meld_data : list meld_sample;
  visual_size : nat;
  acoustic_size : nat;
  meld_len : nat }.

(** [MeldDataset.__init__] on the unpickled mapping, its items in order:
    [self.data[0]] is read, so an empty mapping is an [IndexError]. *)
Definition MeldDataset_init (raw_data : list (string * raw_meld)) : outcome MeldDataset :=
  let data := with_id <$> raw_data in
  first ← py_index data 0;
  Return {| meld_data := data;
            visual_size := ncols (video_features first);
            acoustic_size := ncols (audio_features first);
            meld_len := length data |}.

(** The property [lav_dim]. *)
Definition lav_dim (self : MeldDataset) : outcome (nat * nat * nat) :=
  first ← py_index (meld_data self) 0;
  Return (300, ncols (audio_features first), ncols (video_features first)).

(** The property [lav_len]. *)
Definition lav_len (self : MeldDataset) : nat * nat * nat := (0, 0, 0).

(** [MeldDataset.__getitem__] *)
Definition MeldDataset_getitem (self : MeldDataset) (index : Z) : outcome meld_sample :=
  py_index (meld_data self) index.

(** [MeldDataset.__len__] *)
Definition MeldDataset_len (self : MeldDataset) : nat := meld_len self.

(** ** Samples with and without their index *)

(** The four entries a padded sample keeps of an unpadded one. *)
Definition without_index (s : sample5) : sample4 :=
  Sample4 (vision5 s) (audio5 s) (text5 s) (label5 s).

(** ** [get_dataloader] *)

(** The two collators a sentiment loader can be bound to. *)
Inductive collator := process_1 | process_2.

(** What a [DataLoader] over a [SentimentDataset] is built from: the dataset
    object, the dictionary it serves, and the keyword arguments. *)
Record loader := {
  ld_self : SentimentDataset;
  ld_data : gmap string (list tensor2);
  ld_shuffle : bool;
  ld_num_workers : Z;
  ld_batch_size : Z;
  ld_collate_fn : collator }.

(** What the file at [filepath] unpickles to. *)
Inductive pickled :=
  | AffectData (alldata : gmap string (gmap string (list tensor2)))
  | MeldData (raw_data : list (string * raw_meld)).

(** What [get_dataloader] returns: three loaders, one meld loader (always
    shuffled, bound to [collate_fn]), or [None] when no branch is taken. *)
Inductive loaders :=
  | Affect (train valid test : loader)
  | Meld (dataset : MeldDataset) (batch_size : Z)
  | NoLoaders.

(** What the [DataLoader] constructor checks, in its order, before any
    sample is loaded: [num_workers] is not negative; with [shuffle] set the
    sampler asks the dataset for its length and refuses an empty one; the
    batch size is positive.  Each refusal is a [ValueError]. *)
Definition DataLoader_init (len_dataset : outcome nat) (shuffle : bool)
    (num_workers batch_size : Z) : outcome unit :=
  if (num_workers <? 0)%Z then Raise ValueError
  else
    _ ← (if shuffle
         then n ← len_dataset; if n =? 0 then Raise ValueError else Return ()
         else Return ());
    if (batch_size <=? 0)%Z then Raise ValueError else Return ().

(** [DataLoader(SentimentDataset(split, flatten_time_series, task=..., ...), ...)]:
    [aligned] is not passed and keeps its default [True]; the constructor
    of the dataset runs on the split's own dictionary, that of the loader
    after it. *)
Definition make_loader (split : gmap string (list tensor2))
    (flatten_time_series : bool) (task : option string) (max_pad : bool)
    (max_seq_len : Z) (data_type : string) (z_norm shuffle : bool)
    (num_workers batch_size : Z) (process : collator) : outcome loader :=
  match __init__ flatten_time_series true task max_pad max_seq_len data_type z_norm
          (World split []) with
  | (Return self, w) =>
      _ ← DataLoader_init (__len__ w) shuffle num_workers batch_size;
      Return {| ld_self := self; ld_data := dataset w; ld_shuffle := shuffle;
                ld_num_workers := num_workers; ld_batch_size := batch_size;
                ld_collate_fn := process |}
  | (Raise e, _) => Raise e
  | (SystemExit, _) => SystemExit
  end.

(** [d[key]] on a dictionary *)
Definition py_get {A} (d : gmap string A) (key : string) : outcome A :=
  match d !! key with
  | Some x => Return x
  | None => Raise KeyError
  end.

Definition get_dataloader (file : pickled) (batch_size max_seq_len : Z)
    (max_pad train_shuffle : bool) (num_workers : Z) (flatten_time_series : bool)
    (task : option string) (data_type : string) (z_norm : bool) : outcome loaders :=
  if bool_decide (data_type ∈ ["mosi"; "mosei"]) then
    match file with
    | AffectData alldata =>
        alldata ← drop_all_splits alldata;
        let process := if max_pad then process_2 else process_1 in
        let processed_dataset :=
          alldata ∪ (<["train" := ∅]> (<["test" := ∅]> (<["valid" := ∅]> ∅))) in
        train_split ← py_get processed_dataset "train";
        train ← make_loader train_split flatten_time_series task max_pad max_seq_len
                   data_type z_norm train_shuffle num_workers batch_size process;
        valid_split ← py_get processed_dataset "valid";
        valid ← make_loader valid_split flatten_time_series task max_pad max_seq_len
                   data_type z_norm false num_workers batch_size process;
        test_split ← py_get processed_dataset "test";
        test ← make_loader test_split flatten_time_series task max_pad max_seq_len
                  data_type z_norm false num_workers batch_size process;
        Return (Affect train valid test)
    | MeldData _ => Raise KeyError
    end
  else if bool_decide (data_type = "meld") then
    match file with
    | MeldData raw_data =>
        dataset ← MeldDataset_init raw_data;
        _ ← DataLoader_init (Return (MeldDataset_len dataset)) true 0 batch_size;
        Return (Meld dataset batch_size)
    | AffectData _ => Raise KeyError
    end
  else Return NoLoaders.


(** The text batch of [collate_fn]: the token rows of the sorted batch, filled
    up with zeros behind and given a zero in front. *)
Definition text_batch (batch : list meld_sample) : itensor2 :=
  pad_left_1d
    (IT2 (max_list (length <$> (token_ids <$> sorted batch)))
       ((λ s, s ++ replicate (max_list (length <$> (token_ids <$> sorted batch)) - length s) 0%Z)
          <$> (token_ids <$> sorted batch))).

(** ** Token counts *)

(** [len(x["token_ids"])], the sort key of the meld collator *)
Definition token_count (s : meld_sample) : nat := length (token_ids s).

(** Not longer than: the order the collator sorts by. *)
Definition shorter_eq (a b : meld_sample) : Prop := token_count a ≤ token_count b.


(** ** Steps of a retrieval *)

(** A computation that neither ends the process nor touches the world. *)
Definition steady {A} (m : M A) : Prop :=
  ∀ w, (m w).2 = w ∧ (m w).1 ≠ SystemExit.

(** What [prepare] does once the three modalities are cut. *)
Definition after_align (self : SentimentDataset) (ind : Z)
    (cut : tensor2 * tensor2 * tensor2) : M (tensor2 * tensor2 * tensor2 * tensor2) :=
  let '(vision, audio, text) := cut in
  let '(vision, audio, text) :=
    if z_norm self
    then (z_normalize vision, z_normalize audio, z_normalize text)
    else (vision, audio, text) in
  bind (read "labels" ind) (λ tmp_label,
  bind (lift (if bool_decide (task self = Some "classification")
              then _get_class tmp_label
              else Return (as_float tmp_label))) (λ label,
  ret (vision, audio, text, label))).

(** The same dataset object with other output flags. *)
Definition with_output (flatten max_pad : bool) (self : SentimentDataset)
  : SentimentDataset :=
  {| flatten_ts := flatten; aligned := aligned self; task := task self;
     max_pad := max_pad; max_pad_num := max_pad_num self;
     data_type := data_type self; z_norm := z_norm self |}.

(** The same dataset object with [z_norm] set or unset. *)
Definition with_z_norm (flag : bool) (self : SentimentDataset) : SentimentDataset :=
  {| flatten_ts := flatten_ts self; aligned := aligned self; task := task self;
     max_pad := max_pad self; max_pad_num := max_pad_num self;
     data_type := data_type self; z_norm := flag |}.


End Loader.

(** ** A reference instance of the numeric kernel

    IEEE binary64 numbers, as numpy holds unpickled float arrays, and the
    binary32 arithmetic of torch's CPU kernels on the tensors made from
    them.  A binary32 operation is the binary64 one rounded to binary32.
    The reductions follow the order of the library code: numpy's pairwise
    sum of a C-contiguous array, torch's cascade sum, its running (Welford)
    variance in binary64 for a tensor of several columns and its two-pass
    variance for a single column.  Where torch adds in vector lanes (a
    single column of nine or more rows) the order depends on the processor;
    the instance keeps the order of the scalar kernel.  The sign of a zero
    sum is not followed. *)
Module Float64.

Definition round32 (x : PrimFloat.float) : PrimFloat.float :=
  match Prim2SF x with
  | S754_finite s m e => SF2Prim (binary_round 24 128 s m e)
  | _ => x
  end.

Definition of_Z (z : Z) : PrimFloat.float := SF2Prim (binary_normalize 53 1024 z 0 false).

(** *** [ndarray.sum()] *)

(** [res += a[i]] along a run *)
Definition add_run (res : PrimFloat.float) (a : list PrimFloat.float) : PrimFloat.float :=
  foldl PrimFloat.add res a.

(** The next [k] runs of eight entries. *)
Fixpoint blocks8 (k : nat) (a : list PrimFloat.float) : list (list PrimFloat.float) :=
  match k with
  | 0 => []
  | S k' => take 8 a :: blocks8 k' (drop 8 a)
  end.

(** numpy's sum of 8 to 128 entries: eight running sums over the runs of
    eight, added up in pairs, then the entries left over one by one. *)
Definition unrolled_sum (a : list PrimFloat.float) : PrimFloat.float :=
  let n := length a in
  let r := foldl (zip_with PrimFloat.add) (take 8 a) (blocks8 (n / 8 - 1) (drop 8 a)) in
  match r with
  | [r0; r1; r2; r3; r4; r5; r6; r7] =>
      add_run (((r0 + r1) + (r2 + r3)) + ((r4 + r5) + (r6 + r7)))%float
              (drop (n - n mod 8) a)
  | _ => 0%float
  end.

(** numpy's [pairwise_sum]: fewer than 8 entries are added one by one,
    more than 128 are split in two halves, the first a multiple of 8. *)
Fixpoint pairwise_sum (fuel : nat) (a : list PrimFloat.float) : PrimFloat.float :=
  let n := length a in
  if n <? 8 then add_run 0%float a
  else if n <=? 128 then unrolled_sum a
  else match fuel with
       | 0 => 0%float
       | S fuel' =>
           let n2 := n / 2 - (n / 2) mod 8 in
           (pairwise_sum fuel' (take n2 a) + pairwise_sum fuel' (drop n2 a))%float
       end.

Definition fsum (l : list PrimFloat.float) : PrimFloat.float :=
  pairwise_sum (length l) l.

(** *** [Tensor.mean] *)

Definition add32 (x y : PrimFloat.float) : PrimFloat.float := round32 (x + y)%float.

(** The four running sums of torch's cascade sum. *)
Record levels := Levels {
  acc0 : PrimFloat.float; acc1 : PrimFloat.float;
  acc2 : PrimFloat.float; acc3 : PrimFloat.float }.

Definition ceil_log2 (x : nat) : nat :=
  if x <=? 2 then 1 else Nat.log2 (x - 1) + 1.

Definition level_power (size : nat) : nat := Nat.max 4 (ceil_log2 size / 4).

(** After a full block: each level is handed up to the next, as far as the
    block count [i] says. *)
Definition carry (power i : nat) (a : levels) : levels :=
  let step := 2 ^ power in
  let a1 := Levels 0%float (add32 (acc1 a) (acc0 a)) (acc2 a) (acc3 a) in
  if negb ((i / step) mod step =? 0) then a1
  else
    let a2 := Levels 0%float 0%float (add32 (acc2 a1) (acc1 a1)) (acc3 a1) in
    if negb ((i / step ^ 2) mod step =? 0) then a2
    else Levels 0%float 0%float 0%float (add32 (acc3 a2) (acc2 a2)).

(** [k] full blocks of [2 ^ power] entries, [i] entries being done. *)
Fixpoint cascade (power k i : nat) (a : levels) (l : list PrimFloat.float)
  : levels * list PrimFloat.float :=
  match k with
  | 0 => (a, l)
  | S k' =>
      let step := 2 ^ power in
      let a' := Levels (foldl add32 (acc0 a) (take step l)) (acc1 a) (acc2 a) (acc3 a) in
      cascade power k' (i + step) (carry power (i + step) a') (drop step l)
  end.

(** torch's sum of one column in binary32: full blocks through the
    cascade, the rest one by one, then the four levels together. *)
Definition sum32 (l : list PrimFloat.float) : PrimFloat.float :=
  let size := length l in
  let power := level_power size in
  let '(a, rest) := cascade power (size / 2 ^ power) 0 (Levels 0 0 0 0)%float l in
  let a0 := foldl add32 (acc0 a) rest in
  add32 (add32 (add32 a0 (acc1 a)) (acc2 a)) (acc3 a).

Definition flen (l : list PrimFloat.float) : PrimFloat.float :=
  round32 (of_Z (Z.of_nat (length l))).

(** [sum / n] *)
Definition fmean (l : list PrimFloat.float) : PrimFloat.float :=
  round32 (sum32 l / flen l)%float.

(** *** [torch.std] *)

(** One step of the running mean and sum of squares, in binary64. *)
Definition welford_step (acc : PrimFloat.float * PrimFloat.float * Z) (x : PrimFloat.float)
  : PrimFloat.float * PrimFloat.float * Z :=
  let '(mean, m2, n) := acc in
  let n' := (n + 1)%Z in
  let delta := (x - mean)%float in
  let mean' := (mean + delta / of_Z n')%float in
  let delta' := (x - mean')%float in
  (mean', (m2 + delta * delta')%float, n').

(** [torch.std] of one column among several, with Bessel's correction. *)
Definition fstd (l : list PrimFloat.float) : PrimFloat.float :=
  let '(_, m2, n) := foldl welford_step (0%float, 0%float, 0%Z) l in
  let divisor := if (1 <? n)%Z then of_Z (n - 1) else 0%float in
  round32 (PrimFloat.sqrt (m2 / divisor)%float).

(** [torch.std] when the result is one number: the squared distances from
    the binary32 mean are added up in binary64. *)
Definition fstd_all (l : list PrimFloat.float) : PrimFloat.float :=
  let mu := fmean l in
  let sum_dx2 := foldl (λ s x, (s + (x - mu) * (x - mu))%float) 0%float l in
  round32 (PrimFloat.sqrt (sum_dx2 / of_Z (Z.max 0 (Z.of_nat (length l) - 1)))%float).

Definition max32 : PrimFloat.float := 0x1.fffffep+127%float.

Definition fnan_to_num (x : PrimFloat.float) : PrimFloat.float :=
  if PrimFloat.is_nan x then 0%float
  else if (x =? infinity)%float then max32
  else if (x =? neg_infinity)%float then (- max32)%float
  else x.

#[global] Instance numeric : Numeric := {|
  scalar := PrimFloat.float;
  zero := 0%float;
  of_int := of_Z;
  nonzero := λ x, negb (x =? 0)%float;
  np_sum := fsum;
  eq_zero := λ x, (x =? 0)%float;
  gt_zero := λ x, (0 <? x)%float;
  is_neg_inf := λ x, (x =? neg_infinity)%float;
  to_float := round32;
  mean := fmean;
  std := fstd;
  std_all := fstd_all;
  sub := λ x y, round32 (x - y)%float;
  div := λ x y, round32 (x / y)%float;
  nan_to_num := fnan_to_num |}.

End Float64.

(** ** Concrete data

    Small arrays over the reference instance, on which the definitions
    above can be run. *)
Module Examples.
Import Float64.
Local Open Scope float_scope.

(** Two unpadded samples: three and one vision frames, a label of shape
    [(1, 3)] and one of shape [(1, 1)]. *)
Definition batch5 : list sample5 :=
  [ Sample5 (T2 2 [[1; 5]; [3; 5]; [5; 5]]) (T2 1 [[1]]) (T2 1 [[1]; [2]]) 7
            (T2 3 [[1; 2; 3]]);
    Sample5 (T2 2 [[1; 5]]) (T2 1 [[1]; [4]]) (T2 1 [[2]]) 8 (T2 1 [[9]]) ].

(** Two samples of fixed length 2. *)
Definition batch4 : list sample4 :=
  [ Sample4 (T2 2 [[1; 5]; [3; 5]]) (T2 1 [[1]; [0]]) (T2 1 [[1]; [2]]) (T2 3 [[1; 2; 3]]);
    Sample4 (T2 2 [[1; 5]; [0; 0]]) (T2 1 [[1]; [4]]) (T2 1 [[2]; [0]]) (T2 1 [[9]]) ].

(** A label with two rows of two values. *)
Definition square_label : tensor2 := T2 2 [[1; 2]; [3; 4]].

Definition square_batch5 : list sample5 :=
  [ Sample5 (T2 1 [[1]]) (T2 1 [[1]]) (T2 1 [[1]]) 0 square_label ].

Definition square_batch4 : list sample4 :=
  [ Sample4 (T2 1 [[1]]) (T2 1 [[1]]) (T2 1 [[1]]) square_label ].

(** A split of three samples of three frames each.  Sample 0 starts with a
    silent frame, sample 1 has no text at all, sample 2 has text but no
    vision; one audio entry is negative infinity. *)
Definition vision0 : tensor2 := T2 2 [[0; 0]; [1; 2]; [3; 4]].
Definition audio0 : tensor2 := T2 1 [[7]; [neg_infinity]; [9]].
Definition text0 : tensor2 := T2 1 [[0]; [5]; [6]].
Definition vision1 : tensor2 := T2 2 [[1; 1]; [1; 1]; [1; 1]].
Definition audio1 : tensor2 := T2 1 [[1]; [1]; [1]].
Definition text1 : tensor2 := T2 1 [[0]; [0]; [0]].
Definition vision2 : tensor2 := T2 2 [[0; 0]; [0; 0]; [0; 0]].
Definition audio2 : tensor2 := T2 1 [[0]; [2]; [2]].
Definition text2 : tensor2 := T2 1 [[0]; [0]; [4]].

Definition split : gmap string (list tensor2) :=
  <["vision" := [vision0; vision1; vision2]]>
  (<["audio" := [audio0; audio1; audio2]]>
  (<["text" := [text0; text1; text2]]>
  (<["labels" := [T2 1 [[2]]; T2 1 [[-1]]; T2 1 [[1]]]]> ∅))).

Definition world0 : world := World split [].

Definition config (flatten aligned max_pad : bool) (n : Z) : SentimentDataset :=
  {| flatten_ts := flatten; aligned := aligned; task := None;
     max_pad := max_pad; max_pad_num := n; data_type := "mosi"; z_norm := false |}.

(** A split whose first text array holds 1 and -1 and nothing else. *)
Definition cancel0 : tensor2 := T2 2 [[1; -1]].
Definition cancel1 : tensor2 := T2 2 [[2; 1]].
Definition cancel_text : list tensor2 := [cancel0; cancel1].

Definition cancelling : gmap string (list tensor2) :=
  <["vision" := [T2 1 [[1]]; T2 1 [[2]]]]>
  (<["audio" := [T2 1 [[3]]; T2 1 [[4]]]]>
  (<["text" := cancel_text]>
  (<["labels" := [T2 1 [[1]]; T2 1 [[-1]]]]> ∅))).

(** Three meld records with 2, 5 and 3 tokens. *)
Definition meld_a : meld_sample :=
  {| Id := "a"; token_ids := [11; 12]%Z;
     video_features := T2 1 [[1]; [2]]; audio_features := T2 1 [[1]]; meld_label := 0%Z |}.
Definition meld_b : meld_sample :=
  {| Id := "b"; token_ids := [21; 22; 23; 24; 25]%Z;
     video_features := T2 1 [[3]]; audio_features := T2 1 [[2]; [3]]; meld_label := 1%Z |}.
Definition meld_c : meld_sample :=
  {| Id := "c"; token_ids := [31; 32; 33]%Z;
     video_features := T2 1 [[4]]; audio_features := T2 1 [[5]]; meld_label := 2%Z |}.

Definition meld_batch3 : list meld_sample := [meld_a; meld_b; meld_c].

(** Does a collected label hold the value [v]? *)
Definition holds (v : PrimFloat.float) (o : outcome (@collected numeric)) : bool :=
  match o with
  | Return c => existsb (PrimFloat.eqb v) (entries c : list PrimFloat.float)
  | _ => false
  end.


(** The samples of [batch4] as they come without [max_pad], with their
    indices 7 and 8. *)
Definition even_batch5 : list sample5 :=
  [ Sample5 (T2 2 [[1; 5]; [3; 5]]) (T2 1 [[1]; [0]]) (T2 1 [[1]; [2]]) 7
            (T2 3 [[1; 2; 3]]);
    Sample5 (T2 2 [[1; 5]; [0; 0]]) (T2 1 [[1]; [4]]) (T2 1 [[2]; [0]]) 8 (T2 1 [[9]]) ].

(** A dataset object for the classification task. *)
Definition classify : SentimentDataset :=
  {| flatten_ts := false; aligned := true; task := Some "classification";
     max_pad := false; max_pad_num := 50; data_type := "mosi"; z_norm := false |}.

(** What a pickled file holds: three splits. *)
Definition alldata : gmap string (gmap string (list tensor2)) :=
  <["train" := split]> (<["valid" := cancelling]> (<["test" := cancelling]> ∅)).

(** [split] and [cancelling] after [drop_entry]. *)
Definition split' : gmap string (list tensor2) :=
  delete_from 0 (zero_sum_indices 0 [text0; text1; text2]) <$> split.

Definition cancelling' : gmap string (list tensor2) :=
  delete_from 0 (zero_sum_indices 0 cancel_text) <$> cancelling.


(** What [_process_2] returns for [batch4]. *)
Definition stacked_vision : @tensor3 numeric := T3 2 2 [[[1; 5]; [3; 5]]; [[1; 5]; [0; 0]]].
Definition stacked_audio : @tensor3 numeric := T3 2 1 [[[1]; [0]]; [[1]; [4]]].
Definition stacked_text : @tensor3 numeric := T3 2 1 [[[1]; [2]]; [[2]; [0]]].
Definition stacked_labels : list (list (@scalar numeric)) := [[1]; [9]].

(** Sample 0 of [split] as the preparation hands it out with [aligned]
    set: cut at frame 1, the first one with text. *)
Definition vision0_cut : @tensor2 numeric := T2 2 [[1; 2]; [3; 4]].
Definition audio0_cut : @tensor2 numeric := T2 1 [[neg_infinity]; [9]].
Definition text0_cut : @tensor2 numeric := T2 1 [[5]; [6]].
Definition label0 : @tensor2 numeric := T2 1 [[2]].

(** [split] once [__init__] has run on it. *)
Definition world0_clean : world :=
  World (<["audio" := clean_neg_inf <$> [audio0; audio1; audio2]]> split) [].


(** The vision and audio arrays of [cancelling]. *)
Definition cancel_vision : list (@tensor2 numeric) := [T2 1 [[1]]; T2 1 [[2]]].
Definition cancel_audio : list (@tensor2 numeric) := [T2 1 [[3]]; T2 1 [[4]]].


(** A pickled meld mapping of two records. *)
Definition meld_raw : list (string * @raw_meld numeric) :=
  [ ("a", {| raw_token_ids := [11; 12]%Z; raw_video_features := T2 1 [[1]; [2]];
             raw_audio_features := T2 1 [[1]]; raw_label := 0%Z |});
    ("b", {| raw_token_ids := [21; 22; 23; 24; 25]%Z; raw_video_features := T2 1 [[3]];
             raw_audio_features := T2 1 [[2]; [3]]; raw_label := 1%Z |}) ].

(** Sample 0 of [split] as [__getitem__] hands it out unpadded. *)
Definition sample0 : @sample5 numeric :=
  Sample5 vision0_cut audio0_cut text0_cut 0 label0.


(** Two meld records of different video width: one frame of width 2, two
    frames of width 1; one audio value is 0.1 as a 64-bit float. *)
Definition tenth : PrimFloat.float := 0x1.999999999999ap-4.
Definition tenth32 : PrimFloat.float := 0x1.99999ap-4.

Definition meld_wide : @meld_sample numeric :=
  {| Id := "w"; token_ids := [1]%Z;
     video_features := T2 2 [[1; 2]]; audio_features := T2 1 [[tenth]];
     meld_label := 0%Z |}.
Definition meld_narrow : @meld_sample numeric :=
  {| Id := "n"; token_ids := [2; 3]%Z;
     video_features := T2 1 [[7]; [8]]; audio_features := T2 1 [[1]];
     meld_label := 1%Z |}.

Definition meld_mixed : list (@meld_sample numeric) := [meld_narrow; meld_wide].

(** What [collate_fn] returns for them. *)
Definition mixed_collated : @meld_batch numeric :=
  {| mb_text := IT2 3%nat [ [0; 1; 0]; [0; 2; 3] ]%Z;
     mb_visual := T3 3%nat 2%nat [ [[0; 0]; [1; 2]; [0; 0]]; [[0; 0]; [7; 7]; [8; 8]] ];
     mb_acoustic := T3 2%nat 1%nat [ [[0]; [tenth32]]; [[0]; [1]] ];
     mb_labels := [0; 1]%Z;
     mb_lengths := [2; 3]%nat;
     mb_mask := [ [true; true; false]; [true; true; true] ] |}.


Definition constant_audio : @tensor2 numeric :=
  T2 2 [[0.5; 1]; [0.5; 2]; [0.5; 3]; [0.5; 4]; [0.5; 5]; [0.5; 6]; [0.5; 7]].








End Examples.

(** * Facts *)

Section Facts.
Context `{Numeric}.

(** ** Traversals that return *)

Lemma mapM_Return {A B} (f : A → outcome B) (g : A → B) (l : list A) :
  Forall (λ x, f x = Return (g x)) l → mapM f l = Return (g <$> l).
Proof.
  induction 1 as [|x l Hx _ IH]; [done|].
  cbn. rewrite Hx. cbn. rewrite IH. done.
Qed.

Lemma mapM_Return_inv {A B} (f : A → outcome B) (l : list A) (k : list B) :
  mapM f l = Return k → Forall2 (λ x y, f x = Return y) l k.
Proof.
  revert k. induction l as [|x l IH]; intros k Hk; cbn in Hk.
  - injection Hk as <-. constructor.
  - destruct (f x) as [y| |] eqn:Hx; cbn in Hk; try discriminate.
    destruct (mapM f l) as [k'| |] eqn:Hl; cbn in Hk; try discriminate.
    injection Hk as <-. constructor; [done|]. by apply IH.
Qed.

Lemma bind_Return_inv {A B} (m : outcome A) (f : A → outcome B) (b : B) :
  m ≫= f = Return b → ∃ a, m = Return a ∧ f a = Return b.
Proof. destruct m as [a| |]; [|done..]. intros Hb. by exists a. Qed.

Lemma view_column_Return {A} (l : list A) :
  view_column (length l) l = Return ((λ x, [x]) <$> l).
Proof. unfold view_column. by rewrite Nat.eqb_refl. Qed.

(** ** [pad_sequence] *)

Lemma pad_sequence_Return (sequences : list tensor2) (w : nat) :
  sequences ≠ [] →
  Forall (λ s, ncols s = w) sequences →
  pad_sequence sequences = Return (batch_of (max_len sequences) w sequences).
Proof.
  intros Hne Hw. destruct sequences as [|s0 rest]; [done|].
  unfold pad_sequence.
  assert (ncols s0 = w) as Hs0 by (by inversion Hw).
  rewrite Hs0.
  replace (forallb (λ s, (ncols s =? w) || (ncols s =? 1)) (s0 :: rest)) with true.
  - do 2 f_equal. rewrite <- (list_fmap_id (s0 :: rest)) at 2.
    apply list_fmap_ext. intros k s Hs. unfold expand.
    rewrite Forall_forall in Hw.
    rewrite (Hw s) by (by eapply list_elem_of_lookup_2). by rewrite Nat.eqb_refl.
  - symmetry. apply forallb_forall. intros s Hs.
    apply orb_true_iff. left.
    apply Nat.eqb_eq. rewrite Forall_forall in Hw. apply Hw.
    by apply list_elem_of_In.
Qed.

Lemma size0_le_max_len (sequences : list tensor2) (k : nat) (s : tensor2) :
  sequences !! k = Some s → size0 s ≤ max_len sequences.
Proof.
  intros Hk. apply max_list_elem_of_le.
  apply list_elem_of_fmap. exists s. split; [done|].
  by eapply list_elem_of_lookup_2.
Qed.


(** ** Labels *)

Lemma collect_item_ok (label : tensor2) :
  label_ok label →
  ∃ c, collect_label label = Return c ∧ item c = Return (label_entry label).
Proof.
  destruct label as [w rs]. unfold label_ok, size0, rect. cbn.
  intros (Hlen & Hw & Hrect).
  destruct rs as [|r [|? ?]]; try discriminate.
  apply Forall_inv in Hrect. cbn in Hrect.
  destruct r as [|x r]; cbn in Hrect; [lia|]. subst w.
  unfold collect_label, label_entry, first_entry, item, entries, reshape, flatten, size0.
  cbn [ncols rows concat length].
  rewrite app_nil_r. cbn [length head default].
  destruct r as [|y r].
  - cbn. eexists. split; done.
  - replace (1 <? S (length (y :: r))) with true by (cbn; done).
    rewrite Nat.mul_1_r, Nat.eqb_refl. cbn.
    eexists. split; done.
Qed.

Lemma label_pipeline {A} (f : A → tensor2) (inputs : list A) :
  Forall (λ s, label_ok (f s)) inputs →
  ∃ cs, mapM collect_label (f <$> inputs) = Return cs ∧
        mapM item cs = Return ((λ s, label_entry (f s)) <$> inputs).
Proof.
  induction 1 as [|s inputs Hs _ (cs & Hcs & Hxs)].
  - exists []. done.
  - destruct (collect_item_ok _ Hs) as (c & Hc & Hx).
    exists (c :: cs). cbn. rewrite Hc. cbn. rewrite Hcs. cbn.
    rewrite Hx. cbn. rewrite Hxs. done.
Qed.

Lemma label_column_ok {A} (f : A → tensor2) (inputs : list A) :
  Forall (λ s, label_ok (f s)) inputs →
  ∃ cs, mapM collect_label (f <$> inputs) = Return cs ∧
        tensor_column (length inputs) cs = Return ((λ s, [label_entry (f s)]) <$> inputs).
Proof.
  intros Hok. destruct (label_pipeline f inputs Hok) as (cs & Hcs & Hxs).
  exists cs. split; [done|].
  unfold tensor_column. rewrite Hxs. cbn.
  unfold view_column. rewrite length_fmap, Nat.eqb_refl.
  by rewrite <- list_fmap_compose.
Qed.

(** ** The unpadded collator *)

Lemma process_1_Return (inputs : list sample5) :
  inputs ≠ [] →
  unpadded_batch inputs →
  ∃ width : nat → nat,
  _process_1 inputs =
    Return ((λ i, batch_of (max_len (get5 i <$> inputs)) (width i) (get5 i <$> inputs))
              <$> [0; 1; 2],
            (λ i, size0 <$> (get5 i <$> inputs)) <$> [0; 1; 2],
            (λ s, [ind5 s]) <$> inputs,
            (λ s, [label_entry (label5 s)]) <$> inputs).
Proof.
  intros Hne [Hw Hlab].
  destruct inputs as [|s0 rest] eqn:Hin; [done|]. rewrite <- Hin in *.
  exists (λ i, ncols (get5 i s0)).
  assert (∀ i, i < 3 → pad_sequence (get5 i <$> inputs) =
            Return (batch_of (max_len (get5 i <$> inputs)) (ncols (get5 i s0))
                      (get5 i <$> inputs))) as Hpad.
  { intros i Hi. destruct (Hw i Hi) as [w Hall].
    rewrite (pad_sequence_Return _ w).
    - rewrite Hin in Hall. apply Forall_inv in Hall. by rewrite Hall.
    - rewrite Hin. done.
    - by apply Forall_fmap. }
  destruct (label_column_ok label5 inputs Hlab) as (cs & Hcs & Hcol).
  unfold _process_1. rewrite Hin at 1. cbn [seq Nat.sub mapM].
  rewrite (Hpad 0), (Hpad 1), (Hpad 2) by lia. cbn.
  rewrite Hcs. cbn.
  unfold view_column at 1. rewrite length_fmap, Nat.eqb_refl. cbn.
  rewrite Hcol. cbn.
  by rewrite <- (list_fmap_compose ind5).
Qed.


(** ** The pre-padded collator *)

Lemma stack_Return (tensors : list tensor2) (n w : nat) :
  tensors ≠ [] →
  Forall (λ s, size0 s = n ∧ ncols s = w) tensors →
  stack tensors = Return (T3 n w (rows <$> tensors)).
Proof.
  intros Hne Hall. destruct tensors as [|s0 rest]; [done|].
  unfold stack.
  pose proof (Forall_inv Hall) as [Hn Hw]. rewrite Hn, Hw.
  replace (forallb _ (s0 :: rest)) with true; [done|].
  symmetry. apply forallb_forall. intros s Hs.
  rewrite Forall_forall in Hall.
  destruct (Hall s) as [-> ->]; [by apply list_elem_of_In|].
  by rewrite !Nat.eqb_refl.
Qed.

Lemma stack_Return_inv (tensors : list tensor2) (b : tensor3) :
  stack tensors = Return b →
  items b = rows <$> tensors ∧
  Forall (λ s, size0 s = dim1 b ∧ ncols s = dim2 b) tensors.
Proof.
  unfold stack. destruct tensors as [|s0 rest]; [done|].
  destruct (forallb _ (s0 :: rest)) eqn:Hall; [|done].
  intros [= <-]. split; [done|]. cbn [dim1 dim2].
  apply Forall_forall. intros s Hs.
  rewrite forallb_forall in Hall. specialize (Hall s).
  rewrite <- list_elem_of_In in Hall. specialize (Hall Hs).
  apply andb_true_iff in Hall as [?%Nat.eqb_eq ?%Nat.eqb_eq]. done.
Qed.

Lemma process_2_Return (inputs : list sample4) :
  inputs ≠ [] →
  padded_batch inputs →
  ∃ n w : nat → nat,
  _process_2 inputs =
    Return (T3 (n 0) (w 0) (rows <$> (get4 0 <$> inputs)),
            T3 (n 1) (w 1) (rows <$> (get4 1 <$> inputs)),
            T3 (n 2) (w 2) (rows <$> (get4 2 <$> inputs)),
            (λ s, [label_entry (label4 s)]) <$> inputs).
Proof.
  intros Hne [Hshape Hlab].
  destruct inputs as [|s0 rest] eqn:Hin; [done|]. rewrite <- Hin in *.
  exists (λ i, size0 (get4 i s0)), (λ i, ncols (get4 i s0)).
  assert (∀ i, i < 3 → stack (get4 i <$> inputs) =
            Return (T3 (size0 (get4 i s0)) (ncols (get4 i s0))
                      (rows <$> (get4 i <$> inputs)))) as Hstack.
  { intros i Hi. destruct (Hshape i Hi) as (n & w & Hall).
    rewrite (stack_Return _ n w).
    - rewrite Hin in Hall. apply Forall_inv in Hall as [-> ->]. done.
    - rewrite Hin. done.
    - by apply Forall_fmap. }
  destruct (label_column_ok label4 inputs Hlab) as (cs & Hcs & Hcol).
  unfold _process_2. rewrite Hin at 1. cbn [seq Nat.sub mapM].
  rewrite (Hstack 0), (Hstack 1), (Hstack 2) by lia. cbn.
  rewrite Hcs. cbn. rewrite Hcol. done.
Qed.

(** ** Label selection *)

Lemma label_rule_single_row (label : tensor2) : label_ok label → label_rule label.
Proof.
  intros Hok. split.
  - destruct label as [w rs]. unfold label_ok, size0, rect in Hok. cbn in Hok.
    destruct Hok as (Hlen & Hw & Hrect). cbn [ncols]. intros Hcols.
    destruct rs as [|r [|? ?]]; try discriminate.
    apply Forall_inv in Hrect. cbn in Hrect.
    destruct r as [|x r]; cbn in Hrect; [lia|]. subst w.
    unfold collect_label, reshape, transpose, label_entry, first_entry, flatten, size0.
    cbn [ncols rows concat length].
    rewrite app_nil_r. cbn [length head default].
    replace (1 <? S (length r)) with true by (symmetry; by apply Nat.ltb_lt).
    rewrite Nat.mul_1_r, Nat.eqb_refl. done.
  - intros Hcols. unfold collect_label.
    replace (1 <? ncols label) with false; [done|].
    symmetry. apply Nat.ltb_ge. lia.
Qed.

Lemma label_rule_narrow (label : tensor2) :
  ncols label ≤ 1 → collect_label label = Return (Whole label).
Proof.
  intros Hcols. unfold collect_label.
  replace (1 <? ncols label) with false; [done|].
  symmetry. apply Nat.ltb_ge. lia.
Qed.

(** C8, amended. In both collators a label that is a single row with more
    than one value is collected as the first row of its transpose, which
    holds the label's first value alone; a label with one value per row is
    collected as it is; and for a batch whose labels are single rows the
    labels come back as a column of [batch_size] rows, one value each. *)
Theorem collators_label_column (inputs5 : list sample5) (inputs4 : list sample4) :
  inputs5 ≠ [] → unpadded_batch inputs5 →
  inputs4 ≠ [] → padded_batch inputs4 →
  Forall (λ s, label_rule (label5 s)) inputs5 ∧
  Forall (λ s, label_rule (label4 s)) inputs4 ∧
  (∃ padded lengths inds,
     _process_1 inputs5 =
       Return (padded, lengths, inds, (λ s, [label_entry (label5 s)]) <$> inputs5)) ∧
  (∃ v a t,
     _process_2 inputs4 =
       Return (v, a, t, (λ s, [label_entry (label4 s)]) <$> inputs4)).
Proof.
  intros Hne5 Hwf5 Hne4 Hwf4.
  split; [|split; [|split]].
  - destruct Hwf5 as [_ Hlab]. eapply Forall_impl; [exact Hlab|].
    intros s. apply label_rule_single_row.
  - destruct Hwf4 as [_ Hlab]. eapply Forall_impl; [exact Hlab|].
    intros s. apply label_rule_single_row.
  - destruct (process_1_Return inputs5 Hne5 Hwf5) as [width Hret]. eauto.
  - destruct (process_2_Return inputs4 Hne4 Hwf4) as (n & w & Hret). eauto.
Qed.

(** ** The start offset *)

Lemma first_nonzero_from_Some (i : nat) (rs : list (list scalar)) (k : nat) :
  first_nonzero_from i rs = Some k →
  i ≤ k ∧
  (∃ r, rs !! (k - i) = Some r ∧ existsb nonzero r = true) ∧
  ∀ j r, j < k - i → rs !! j = Some r → existsb nonzero r = false.
Proof.
  revert i. induction rs as [|r0 rs IH]; intros i Hk; cbn in Hk; [done|].
  destruct (existsb nonzero r0) eqn:Hr0.
  - injection Hk as <-. split; [lia|]. rewrite Nat.sub_diag. split.
    + exists r0. done.
    + intros j r Hj. lia.
  - destruct (IH _ Hk) as (Hle & (r & Hr & Hnz) & Hbefore).
    split; [lia|]. split.
    + exists r. split; [|done].
      replace (k - i) with (S (k - S i)) by lia. done.
    + intros j r' Hj Hr'. destruct j as [|j].
      * cbn in Hr'. by injection Hr' as <-.
      * cbn in Hr'. apply (Hbefore j); [lia|done].
Qed.

Lemma first_nonzero_from_None (i : nat) (rs : list (list scalar)) :
  first_nonzero_from i rs = None ↔ Forall (λ r, existsb nonzero r = false) rs.
Proof.
  revert i. induction rs as [|r0 rs IH]; intros i; cbn.
  - split; [constructor|done].
  - destruct (existsb nonzero r0) eqn:Hr0.
    + split; [done|]. intros Hall. apply Forall_inv in Hall. congruence.
    + rewrite IH. split.
      * intros Hall. by constructor.
      * intros Hall. by apply Forall_inv_tail in Hall.
Qed.

Lemma first_nonzero_is_first (t : tensor2) (k : nat) :
  first_nonzero t = Some k → is_first_nonzero t k.
Proof.
  intros Hk. apply first_nonzero_from_Some in Hk as (_ & Hat & Hbefore).
  rewrite Nat.sub_0_r in *. by split.
Qed.

Lemma has_nonzero_first (t : tensor2) :
  has_nonzero t → ∃ k, first_nonzero t = Some k ∧ is_first_nonzero t k.
Proof.
  intros Hnz. destruct (first_nonzero t) as [k|] eqn:Hk.
  - exists k. split; [done|]. by apply first_nonzero_is_first.
  - apply first_nonzero_from_None in Hk.
    unfold has_nonzero in Hnz. apply Exists_exists in Hnz as (r & Hr & Hnz).
    rewrite Forall_forall in Hk. specialize (Hk r Hr). congruence.
Qed.

Lemma all_zero_first_nonzero (t : tensor2) : all_zero t → first_nonzero t = None.
Proof. intros Hz. by apply first_nonzero_from_None. Qed.

(** ** Retrieval reads the dataset and never writes it *)

Lemma read_only_ret {A} (a : A) : read_only (ret a).
Proof. done. Qed.

Lemma read_only_lift {A} (o : outcome A) : read_only (lift o).
Proof. done. Qed.

Lemma read_only_exit {A} : read_only (@exit _ A).
Proof. done. Qed.

Lemma read_only_print (text : tensor2) (ind : Z) : read_only (print text ind).
Proof. done. Qed.

Lemma read_only_read (key : string) (ind : Z) : read_only (read key ind).
Proof. intros w. unfold read. by destruct (dataset w !! key). Qed.

Lemma read_only_bind {A B} (m : M A) (f : A → M B) :
  read_only m → (∀ a, read_only (f a)) → read_only (bind m f).
Proof.
  intros Hm Hf w. unfold bind. specialize (Hm w).
  destruct (m w) as [[a|e|] w']; cbn in *; [|done..].
  by rewrite Hf.
Qed.

Create HintDb read_only.
#[local] Hint Resolve read_only_ret read_only_lift read_only_exit read_only_print
  read_only_read : read_only.

Lemma read_only_align (self : SentimentDataset) (ind : Z) (vision audio text : tensor2) :
  read_only (align self ind vision audio text).
Proof.
  unfold align. destruct (aligned self).
  - destruct (first_nonzero text); [auto with read_only|].
    apply read_only_bind; auto with read_only.
  - repeat (apply read_only_bind; [auto with read_only|intros ?]).
    auto with read_only.
Qed.

Lemma read_only_prepare (self : SentimentDataset) (ind : Z) : read_only (prepare self ind).
Proof.
  unfold prepare.
  do 3 (apply read_only_bind; [auto with read_only|intros ?]).
  apply read_only_bind; [apply read_only_align|]. intros [[? ?] ?].
  destruct (z_norm self);
    repeat (apply read_only_bind; [auto with read_only|intros ?]);
    auto with read_only.
Qed.

Lemma read_only_pack (self : SentimentDataset) (ind : Z) (v a t l : tensor2) :
  read_only (pack self ind v a t l).
Proof.
  unfold pack. destruct (flatten_ts self); [auto with read_only|].
  destruct (max_pad self); [|auto with read_only].
  repeat (apply read_only_bind; [auto with read_only|intros ?]).
  auto with read_only.
Qed.

Lemma read_only_getitem (self : SentimentDataset) (ind : Z) :
  read_only (__getitem__ self ind).
Proof.
  unfold __getitem__. apply read_only_bind; [apply read_only_prepare|].
  intros [[[v a] t] l]. apply read_only_pack.
Qed.

(** C9. Whatever the flags, the index and the outcome, and so whenever
    retrieval succeeds, [__getitem__] leaves the dataset dictionary as it
    found it.  The dictionary is written by the constructor alone: when
    [__init__] returns, the audio array has its entries equal to negative
    infinity replaced by [0.0] and every other modality is untouched. *)
Theorem getitem_leaves_dataset (self : SentimentDataset) (ind : Z) (w : world) :
  dataset (__getitem__ self ind w).2 = dataset w ∧
  ∀ flatten_time_series aligned task max_pad max_pad_num data_type z_norm self' w',
    __init__ flatten_time_series aligned task max_pad max_pad_num data_type z_norm w
      = (Return self', w') →
    ∃ audio, dataset w !! "audio" = Some audio ∧
      dataset w' !! "audio" =
        Some (map2 (λ x, if is_neg_inf x then zero else x) <$> audio) ∧
      (∀ key, key ≠ "audio" → dataset w' !! key = dataset w !! key) ∧
      stdout w' = stdout w.
Proof.
  split; [apply read_only_getitem|].
  intros f al tk mp n dt zn self' w'. unfold __init__.
  destruct (dataset w !! "audio") as [audio|] eqn:Haudio; [|done].
  intros [= <- <-]. exists audio. cbn.
  split; [done|]. split; [by rewrite lookup_insert_eq|].
  split; [|done]. intros key Hkey. by rewrite lookup_insert_ne.
Qed.

(** ** The degenerate sample *)

Lemma getitem_unfold (self : SentimentDataset) (ind : Z) (w : world)
    (vision audio text : tensor2) :
  read "vision" ind w = (Return vision, w) →
  read "audio" ind w = (Return audio, w) →
  read "text" ind w = (Return text, w) →
  prepare self ind w =
    bind (align self ind vision audio text)
      (λ '(vision, audio, text),
         let '(vision, audio, text) :=
           if z_norm self
           then (z_normalize vision, z_normalize audio, z_normalize text)
           else (vision, audio, text) in
         bind (read "labels" ind) (λ tmp_label,
         bind (lift (if bool_decide (task self = Some "classification")
                     then _get_class tmp_label
                     else Return (as_float tmp_label))) (λ label,
         ret (vision, audio, text, label)))) w.
Proof.
  intros Hv Ha Ht. unfold prepare.
  unfold bind at 1. rewrite Hv.
  unfold bind at 1. rewrite Ha.
  unfold bind at 1. rewrite Ht. done.
Qed.

(** C5. With [aligned] set and a text row that is zero throughout,
    [__getitem__] prints the text tensor and the index and then ends the
    process through [exit()]: nothing is returned and nothing is raised. *)
Theorem aligned_zero_text_exits (self : SentimentDataset) (ind : Z) (w : world)
    (vision audio text : tensor2) :
  aligned self = true →
  read "vision" ind w = (Return vision, w) →
  read "audio" ind w = (Return audio, w) →
  read "text" ind w = (Return text, w) →
  all_zero text →
  __getitem__ self ind w =
    (SystemExit, World (dataset w) (stdout w ++ [(text, ind)])).
Proof.
  intros Hal Hv Ha Ht Hzero.
  unfold __getitem__. unfold bind at 1.
  rewrite (getitem_unfold self ind w vision audio text Hv Ha Ht).
  unfold bind at 1. unfold align. rewrite Hal.
  rewrite (all_zero_first_nonzero text Hzero). done.
Qed.

(** ** Truncation from the start offset *)


(** ** Padding to a fixed length *)

Lemma size0_fixed_length (n : nat) (t : tensor2) : size0 (fixed_length n t) = n.
Proof.
  unfold fixed_length, size0. cbn.
  rewrite length_app, length_take, length_replicate. lia.
Qed.

Lemma pad_to_fixed_length (n : Z) (t : tensor2) :
  (0 ≤ n)%Z → pad_to n t = Return (fixed_length (Z.to_nat n) t).
Proof.
  intros Hn. unfold pad_to, slice_to, F_pad_below, fixed_length, size0.
  cbn [rows ncols].
  replace (0 <=? n)%Z with true by (symmetry; by apply Z.leb_le).
  rewrite length_take.
  replace (_ <? 0)%Z with false by (symmetry; apply Z.ltb_ge; lia).
  do 3 f_equal.
  - rewrite take_take. f_equal. lia.
  - f_equal. lia.
Qed.

(** A negative [max_pad_num] is refused by [F.pad]. *)
Lemma pad_to_negative (n : Z) (t : tensor2) :
  (n < 0)%Z → pad_to n t = Raise RuntimeError.
Proof.
  intros Hn. unfold pad_to, slice_to, F_pad_below, size0. cbn [rows ncols].
  replace (0 <=? n)%Z with false by (symmetry; apply Z.leb_gt; lia).
  rewrite length_take.
  replace (_ <? 0)%Z with true; [done|].
  symmetry. apply Z.ltb_lt. lia.
Qed.

Lemma pack_max_pad (self : SentimentDataset) (ind : Z) (v a t l : tensor2) (w : world) :
  flatten_ts self = false → max_pad self = true → (0 ≤ max_pad_num self)%Z →
  pack self ind v a t l w =
    (Return (Padded (Sample4 (fixed_length (Z.to_nat (max_pad_num self)) v)
                             (fixed_length (Z.to_nat (max_pad_num self)) a)
                             (fixed_length (Z.to_nat (max_pad_num self)) t) l)), w).
Proof.
  intros Hflat Hpad Hn. unfold pack. rewrite Hflat, Hpad.
  by rewrite !pad_to_fixed_length.
Qed.

Lemma process_2_Return_inv (inputs : list sample4) (bv ba bt : tensor3)
    (labels : list (list scalar)) :
  _process_2 inputs = Return (bv, ba, bt, labels) →
  stack (get4 0 <$> inputs) = Return bv ∧
  stack (get4 1 <$> inputs) = Return ba ∧
  stack (get4 2 <$> inputs) = Return bt.
Proof.
  unfold _process_2. destruct inputs as [|s0 rest]; [done|].
  cbn [seq Nat.sub mapM].
  generalize (mapM collect_label (label4 <$> s0 :: rest)). intros labs.
  destruct (stack (get4 0 <$> s0 :: rest)) as [b0| |]; [|done..].
  destruct (stack (get4 1 <$> s0 :: rest)) as [b1| |]; [|done..].
  destruct (stack (get4 2 <$> s0 :: rest)) as [b2| |]; [|done..].
  cbn. intros Hret.
  apply bind_Return_inv in Hret as (cs & _ & Hret).
  apply bind_Return_inv in Hret as (col & _ & Hret).
  by injection Hret as <- <- <- _.
Qed.

Lemma stack_dim1 (tensors : list tensor2) (b : tensor3) (n : nat) :
  stack tensors = Return b → Forall (λ s, size0 s = n) tensors → dim1 b = n.
Proof.
  intros Hb Hn. destruct tensors as [|s0 rest]; [done|].
  apply stack_Return_inv in Hb as [_ Hb].
  apply Forall_inv in Hb as [<- _]. by apply Forall_inv in Hn.
Qed.

(** C2, amended. With [max_pad] set, [flatten_time_series] unset and a
    [max_pad_num] that is not negative, [__getitem__] cuts each of the three
    modalities to [max_pad_num] frames and fills it up with zero frames to
    exactly [max_pad_num] frames, whatever its length was, and hands the
    label on as it was built.  A batch of such samples that [_process_2]
    stacks has a time axis of exactly [max_pad_num] in every modality, and
    [_process_2] does stack it when the feature widths agree and the labels
    are single rows. *)
Theorem max_pad_fixes_length (self : SentimentDataset) (ind : Z) (w w' : world)
    (vision audio text label : tensor2) :
  flatten_ts self = false → max_pad self = true → (0 ≤ max_pad_num self)%Z →
  prepare self ind w = (Return (vision, audio, text, label), w') →
  let n := Z.to_nat (max_pad_num self) in
  (∃ s, __getitem__ self ind w = (Return (Padded s), w') ∧
     fixed_sample n s ∧ label4 s = label ∧
     rows (vision4 s) = take n (rows vision) ++ replicate (n - size0 vision) (zero_row (ncols vision)) ∧
     rows (audio4 s) = take n (rows audio) ++ replicate (n - size0 audio) (zero_row (ncols audio)) ∧
     rows (text4 s) = take n (rows text) ++ replicate (n - size0 text) (zero_row (ncols text)) ∧
     size0 (vision4 s) = n ∧ size0 (audio4 s) = n ∧ size0 (text4 s) = n) ∧
  (∀ inputs bv ba bt labels,
     Forall (fixed_sample n) inputs →
     _process_2 inputs = Return (bv, ba, bt, labels) →
     dim1 bv = n ∧ dim1 ba = n ∧ dim1 bt = n) ∧
  (∀ inputs,
     inputs ≠ [] →
     Forall (fixed_sample n) inputs →
     (∀ i, i < 3 → ∃ width, Forall (λ s, ncols (get4 i s) = width) inputs) →
     Forall (λ s, label_ok (label4 s)) inputs →
     ∃ bv ba bt labels, _process_2 inputs = Return (bv, ba, bt, labels)).
Proof.
  intros Hflat Hpad Hn Hprep n.
  assert (∀ inputs i, Forall (fixed_sample n) inputs →
            Forall (λ s, size0 s = n) (get4 i <$> inputs)) as Hsizes.
  { intros inputs i Hfix. apply Forall_fmap. eapply Forall_impl; [exact Hfix|].
    intros s (v & a & t & ->). destruct i as [|[|?]]; apply size0_fixed_length. }
  split; [|split].
  - eexists. split.
    + unfold __getitem__. unfold bind. rewrite Hprep.
      by apply pack_max_pad.
    + split; [by exists vision, audio, text|].
      cbn [vision4 audio4 text4 label4]. fold n.
      rewrite !size0_fixed_length. done.
  - intros inputs bv ba bt labels Hfix Hret.
    apply process_2_Return_inv in Hret as (Hv & Ha & Ht).
    repeat split; eapply stack_dim1; eauto.
  - intros inputs Hne Hfix Hwidth Hlab.
    destruct (process_2_Return inputs Hne) as (m & wd & Hret); [|eauto].
    split; [|done]. intros i Hi. destruct (Hwidth i Hi) as [width Hall].
    exists n, width. specialize (Hsizes inputs i Hfix).
    rewrite Forall_fmap in Hsizes.
    rewrite Forall_forall in *. intros s Hs. split; [by apply Hsizes|by apply Hall].
Qed.

(** ** Entry dropping *)

Lemma zero_sum_indices_range (i : nat) (text : list tensor2) (j : nat) :
  j ∈ zero_sum_indices i text → i ≤ j < i + length text.
Proof.
  revert i. induction text as [|k rest IH]; intros i; cbn.
  - by intros ?%elem_of_nil.
  - destruct (zero_sum k).
    + intros [->|Hj%IH]%elem_of_cons; lia.
    + intros Hj%IH. lia.
Qed.

Lemma zero_sum_indices_spec (i : nat) (text : list tensor2) (j : nat) :
  j ∈ zero_sum_indices i text ↔
  i ≤ j ∧ ∃ k, text !! (j - i) = Some k ∧ zero_sum k = true.
Proof.
  revert i. induction text as [|k0 rest IH]; intros i; cbn.
  - split; [by intros ?%elem_of_nil|]. by intros (_ & k & ? & _).
  - assert (j ∈ zero_sum_indices (S i) rest ↔
              S i ≤ j ∧ ∃ k, (k0 :: rest) !! (j - i) = Some k ∧ zero_sum k = true) as Htail.
    { rewrite IH. split.
      - intros (Hle & k & Hk & Hz). split; [done|]. exists k. split; [|done].
        replace (j - i) with (S (j - S i)) by lia. done.
      - intros (Hle & k & Hk & Hz). split; [done|]. exists k. split; [|done].
        replace (j - i) with (S (j - S i)) in Hk by lia. done. }
    destruct (zero_sum k0) eqn:Hk0.
    + rewrite elem_of_cons, Htail. split.
      * intros [->|(Hle & Hk)].
        -- split; [lia|]. exists k0. by rewrite Nat.sub_diag.
        -- split; [lia|done].
      * intros (Hle & k & Hk & Hz).
        destruct (decide (j = i)) as [->|Hne]; [by left|].
        right. split; [lia|]. by exists k.
    + rewrite Htail. split.
      * intros (Hle & Hk). split; [lia|done].
      * intros (Hle & k & Hk & Hz).
        destruct (decide (j = i)) as [->|Hne].
        -- rewrite Nat.sub_diag in Hk. cbn in Hk. congruence.
        -- split; [lia|]. by exists k.
Qed.

Lemma length_zero_sum_indices (i : nat) (text : list tensor2) :
  length (zero_sum_indices i text) = length (filter (λ k, zero_sum k = true) text).
Proof.
  revert i. induction text as [|k rest IH]; intros i; [done|].
  cbn [zero_sum_indices]. rewrite filter_cons. destruct (zero_sum k) eqn:Hk.
  - rewrite decide_True by done. cbn. by rewrite IH.
  - rewrite decide_False by done. by rewrite IH.
Qed.

(** Deleting the zero-sum indices from the text array keeps the rows whose
    sum is not zero, in their order. *)
Lemma delete_from_text (i : nat) (before : list nat) (text : list tensor2) :
  Forall (λ j, j < i) before →
  delete_from i (before ++ zero_sum_indices i text) text =
    filter (λ k, zero_sum k = false) text.
Proof.
  revert i before. induction text as [|k rest IH]; intros i before Hbefore; [done|].
  cbn [delete_from zero_sum_indices]. rewrite filter_cons.
  assert (i ∉ before) as Hi.
  { intros Hin. rewrite Forall_forall in Hbefore. specialize (Hbefore i Hin). lia. }
  destruct (zero_sum k) eqn:Hk.
  - rewrite bool_decide_eq_true_2 by (apply elem_of_app; right; left).
    rewrite decide_False by done.
    replace (before ++ i :: zero_sum_indices (S i) rest)
      with ((before ++ [i]) ++ zero_sum_indices (S i) rest)
      by (by rewrite <- app_assoc).
    apply IH.
    apply Forall_app. split; [|by repeat constructor].
    eapply Forall_impl; [exact Hbefore|]. cbn. lia.
  - rewrite bool_decide_eq_false_2.
    + rewrite decide_True by done. f_equal. apply IH.
      eapply Forall_impl; [exact Hbefore|]. cbn. lia.
    + intros [Hin|Hin%zero_sum_indices_range]%elem_of_app; [done|lia].
Qed.

(** Deleting a set of indices selects the entries at the other indices. *)
Lemma delete_from_select {A} (i : nat) (obj : list nat) (arr : list A) :
  delete_from i obj arr =
    omap (λ j, arr !! (j - i)) (filter (λ j, j ∉ obj) (seq i (length arr))).
Proof.
  revert i. induction arr as [|x rest IH]; intros i; [done|].
  cbn [delete_from length seq]. rewrite filter_cons.
  assert (omap (λ j, (x :: rest) !! (j - i)) (filter (λ j, j ∉ obj) (seq (S i) (length rest)))
          = omap (λ j, rest !! (j - S i)) (filter (λ j, j ∉ obj) (seq (S i) (length rest))))
    as Htail.
  { apply list_omap_ext. apply Forall2_same_length_lookup_2; [done|].
    intros n j j' Hj Hj'. assert (j' = j) as -> by congruence.
    apply list_elem_of_lookup_2, list_elem_of_filter in Hj as [_ Hj].
    apply elem_of_seq in Hj.
    replace (j - i) with (S (j - S i)) by lia. done. }
  destruct (decide (i ∈ obj)) as [Hin|Hin].
  - rewrite bool_decide_eq_true_2 by done.
    rewrite decide_False by tauto. by rewrite IH, Htail.
  - rewrite bool_decide_eq_false_2 by done.
    rewrite decide_True by done. cbn [omap list_omap]. rewrite Nat.sub_diag.
    cbn [lookup list_lookup]. f_equal. rewrite IH. symmetry. exact Htail.
Qed.

Lemma np_delete_Return {A} (arr : list A) (obj : list nat) :
  Forall (λ j, j < length arr) obj →
  np_delete arr obj = Return (delete_from 0 obj arr).
Proof.
  intros Hobj. unfold np_delete.
  replace (forallb _ obj) with true; [done|].
  symmetry. apply forallb_forall. intros j Hj.
  apply Nat.ltb_lt. rewrite Forall_forall in Hobj. apply Hobj.
  by apply list_elem_of_In.
Qed.

(** The loop over the keys rewrites every array it visits and nothing
    else. *)
Lemma drop_loop (drop : list nat) (keys : list string)
    (d : gmap string (list tensor2)) :
  NoDup keys →
  (∀ key, key ∈ keys → ∃ arr, d !! key = Some arr ∧ Forall (λ j, j < length arr) drop) →
  ∃ d', foldl (drop_step drop) (Return d) keys = Return d' ∧
    ∀ key, d' !! key =
      if decide (key ∈ keys) then delete_from 0 drop <$> d !! key else d !! key.
Proof.
  revert d. induction keys as [|k keys IH]; intros d Hnd Hkeys.
  - exists d. split; [done|]. intros key. rewrite decide_False; [done|].
    apply not_elem_of_nil.
  - apply NoDup_cons in Hnd as [Hk Hnd].
    destruct (Hkeys k) as (arr & Harr & Hdrop); [by left|].
    cbn [foldl]. unfold drop_step at 2. cbn.
    rewrite Harr, (np_delete_Return arr drop Hdrop). cbn.
    destruct (IH (<[k := delete_from 0 drop arr]> d) Hnd) as (d' & Hd' & Hlook).
    { intros key Hkey. rewrite lookup_insert_ne by (intros ->; done).
      apply Hkeys. by right. }
    exists d'. split; [done|]. intros key. rewrite Hlook.
    destruct (decide (key = k)) as [->|Hne].
    + rewrite decide_False by done. rewrite decide_True by (by left).
      by rewrite lookup_insert_eq, Harr.
    + rewrite lookup_insert_ne by done.
      destruct (decide (key ∈ keys)) as [Hin|Hin].
      * rewrite decide_True by (by right). done.
      * rewrite decide_False; [done|]. by intros [?|?]%elem_of_cons.
Qed.

Lemma drop_entry_Return (dataset : gmap string (list tensor2)) (text : list tensor2) :
  dataset !! "text" = Some text →
  (∀ key arr, dataset !! key = Some arr → length text ≤ length arr) →
  drop_entry dataset = Return (delete_from 0 (zero_sum_indices 0 text) <$> dataset).
Proof.
  intros Htext Hlen. unfold drop_entry. rewrite Htext.
  destruct (drop_loop (zero_sum_indices 0 text) (map_to_list dataset).*1 dataset)
    as (d' & Hd' & Hlook).
  - apply NoDup_fst_map_to_list.
  - intros key Hkey. apply list_elem_of_fmap in Hkey as ([key' arr] & -> & Hin).
    apply elem_of_map_to_list in Hin. exists arr. split; [done|].
    apply Forall_forall. intros j Hj%zero_sum_indices_range.
    specialize (Hlen _ _ Hin). lia.
  - cbn. rewrite Hd'. f_equal. apply map_eq. intros key.
    rewrite Hlook, lookup_fmap.
    destruct (decide (key ∈ (map_to_list dataset).*1)) as [Hin|Hin]; [done|].
    destruct (dataset !! key) as [arr|] eqn:Harr; [|done].
    exfalso. apply Hin. apply list_elem_of_fmap. exists (key, arr).
    split; [done|]. by apply elem_of_map_to_list.
Qed.

Lemma kept_indices_spec (text : list tensor2) (j : nat) :
  j ∈ kept_indices text ↔ ∃ k, text !! j = Some k ∧ zero_sum k = false.
Proof.
  unfold kept_indices. rewrite list_elem_of_filter, elem_of_seq, zero_sum_indices_spec.
  rewrite Nat.sub_0_r. split.
  - intros [Hnot [_ Hj]]. cbn in Hj.
    destruct (lookup_lt_is_Some_2 text j Hj) as [k Hk].
    exists k. split; [done|]. destruct (zero_sum k) eqn:Hz; [|done].
    exfalso. apply Hnot. split; [lia|]. by exists k.
  - intros (k & Hk & Hz). split.
    + intros (_ & k' & Hk' & Hz'). congruence.
    + split; [lia|]. cbn. by eapply lookup_lt_Some.
Qed.

Lemma delete_from_kept {A} (text : list tensor2) (arr : list A) :
  length arr = length text →
  delete_from 0 (zero_sum_indices 0 text) arr = select (kept_indices text) arr.
Proof.
  intros Hlen. rewrite delete_from_select. unfold select, kept_indices.
  rewrite Hlen. apply list_omap_ext. apply Forall2_same_length_lookup_2; [done|].
  intros n j j' Hj Hj'. assert (j' = j) as -> by congruence.
  by rewrite Nat.sub_0_r.
Qed.

Lemma drop_entry_selects (dataset : gmap string (list tensor2))
    (text : list tensor2) (n : nat) :
  dataset !! "text" = Some text →
  common_count dataset n →
  ∃ d' text',
    drop_entry dataset = Return d' ∧
    (∀ key, d' !! key = select (kept_indices text) <$> dataset !! key) ∧
    d' !! "text" = Some text' ∧
    text' = filter (λ k, zero_sum k = false) text.
Proof.
  intros Htext Hcount.
  assert (length text = n) as Hn by (by eapply Hcount).
  exists (delete_from 0 (zero_sum_indices 0 text) <$> dataset),
         (filter (λ k, zero_sum k = false) text).
  split.
  { apply drop_entry_Return; [done|]. intros key arr Harr.
    rewrite (Hcount _ _ Harr). lia. }
  split.
  { intros key. rewrite lookup_fmap.
    destruct (dataset !! key) as [arr|] eqn:Harr; [|done]. cbn. f_equal.
    apply delete_from_kept. rewrite (Hcount _ _ Harr). done. }
  split; [|done].
  rewrite lookup_fmap, Htext. cbn. f_equal.
  apply (delete_from_text 0 []). constructor.
Qed.

Lemma length_filter_split {A} (P : A → bool) (l : list A) :
  length (filter (λ x, P x = true) l) + length (filter (λ x, P x = false) l) = length l.
Proof.
  induction l as [|x l IH]; [done|].
  rewrite !filter_cons. destruct (P x).
  - rewrite decide_True, decide_False by done. cbn. lia.
  - rewrite decide_False, decide_True by done. cbn. lia.
Qed.

Lemma length_select_kept {A} (text : list tensor2) (arr : list A) :
  length arr = length text →
  length (select (kept_indices text) arr) + length (filter (λ k, zero_sum k = true) text)
    = length text.
Proof.
  intros Hlen. rewrite <- (delete_from_kept text arr Hlen).
  assert (∀ (i : nat) (obj : list nat) (a : list A) (b : list tensor2),
            length a = length b →
            length (delete_from i obj a) = length (delete_from i obj b)) as Hsame.
  { intros i obj a. revert i. induction a as [|x a IH]; intros i [|y b] Hab;
      try done. cbn. injection Hab as Hab.
    destruct (bool_decide (i ∈ obj)); cbn; by rewrite (IH (S i) b). }
  rewrite (Hsame 0 _ arr text Hlen).
  pose proof (delete_from_text 0 [] text) as Htext. cbn [app] in Htext.
  rewrite Htext by constructor.
  rewrite Nat.add_comm. apply (length_filter_split zero_sum).
Qed.

Lemma filter_ext_elem {A} (P Q : A → Prop) `{!∀ x, Decision (P x)} `{!∀ x, Decision (Q x)}
    (l : list A) :
  (∀ x, x ∈ l → (P x ↔ Q x)) → filter P l = filter Q l.
Proof.
  induction l as [|x l IH]; intros Hext; [done|].
  rewrite !filter_cons.
  rewrite IH by (intros y Hy; apply Hext; by right).
  destruct (decide (P x)) as [HP|HP], (decide (Q x)) as [HQ|HQ]; try done.
  - exfalso. apply HQ. apply (Hext x); [left|done].
  - exfalso. apply HP. apply (Hext x); [left|done].
Qed.

Lemma nonzero_sum_indices_kept (text : list tensor2) :
  nonzero_sum_indices text = kept_indices text.
Proof.
  unfold nonzero_sum_indices, kept_indices. apply filter_ext_elem.
  intros j Hj. apply elem_of_seq in Hj as [_ Hj]. cbn in Hj.
  destruct (lookup_lt_is_Some_2 text j Hj) as [k Hk].
  rewrite Hk. cbn. rewrite zero_sum_indices_spec, Nat.sub_0_r. split.
  - intros [= Hz] (_ & k' & Hk' & Hz'). unfold zero_sum in Hz'. congruence.
  - intros Hnot. f_equal. destruct (eq_zero (np_sum (flatten k))) eqn:Hz; [|done].
    exfalso. apply Hnot. split; [lia|]. by exists k.
Qed.

(** C10. [drop_entry] removes exactly the samples whose text array adds up
    to zero.  The text arrays left are those whose sum is not zero, in
    their order, and every array of the split is cut down to their
    positions.  A text array whose sum is zero goes, also when it holds
    non-zero entries that cancel: the split then gets shorter in every
    array although that sample has text.  A text array whose sum is not
    zero always stays. *)
Theorem drop_entry_by_sum (dataset : gmap string (list tensor2))
    (text : list tensor2) (n : nat) :
  dataset !! "text" = Some text →
  common_count dataset n →
  ∃ d' text',
    drop_entry dataset = Return d' ∧
    d' !! "text" = Some text' ∧
    text' = filter (λ k, eq_zero (np_sum (flatten k)) = false) text ∧
    (∀ key, d' !! key = select (nonzero_sum_indices text) <$> dataset !! key) ∧
    (∀ j k, text !! j = Some k →
       (eq_zero (np_sum (flatten k)) = true →
          (j ∉ nonzero_sum_indices text) ∧ (k ∉ text')) ∧
       (eq_zero (np_sum (flatten k)) = false →
          j ∈ nonzero_sum_indices text ∧ k ∈ text')) ∧
    (∀ j k, text !! j = Some k →
       eq_zero (np_sum (flatten k)) = true → ¬ all_zero k →
       (k ∉ text') ∧ length text' < length text ∧
       ∀ key arr, dataset !! key = Some arr →
         ∃ arr', d' !! key = Some arr' ∧ length arr' < length arr).
Proof.
  intros Htext Hcount.
  destruct (drop_entry_selects dataset text n Htext Hcount)
    as (d' & text' & Hret & Hsel & Htext' & ->).
  assert (length text = n) as Hn by (by eapply Hcount).
  exists d', (filter (λ k, eq_zero (np_sum (flatten k)) = false) text).
  split; [done|]. split; [done|]. split; [done|].
  rewrite nonzero_sum_indices_kept.
  split; [done|].
  assert (∀ k, eq_zero (np_sum (flatten k)) = true →
            k ∉ filter (λ k, eq_zero (np_sum (flatten k)) = false) text) as Hgone.
  { intros k Hz [Hz' _]%list_elem_of_filter. congruence. }
  split.
  - intros j k Hk. split.
    + intros Hz. split; [|by apply Hgone].
      intros (k' & Hk' & Hz')%kept_indices_spec. unfold zero_sum in Hz'. congruence.
    + intros Hz. split.
      * apply kept_indices_spec. by exists k.
      * apply list_elem_of_filter. split; [done|]. by eapply list_elem_of_lookup_2.
  - intros j k Hk Hz _. split; [by apply Hgone|].
    assert (0 < length (filter (λ k, zero_sum k = true) text)) as Hpos.
    { assert (k ∈ filter (λ k, zero_sum k = true) text) as Hin.
      { apply list_elem_of_filter. split; [done|]. by eapply list_elem_of_lookup_2. }
      destruct (filter (λ k, zero_sum k = true) text) as [|? ?];
        [by apply elem_of_nil in Hin|cbn; lia]. }
    split.
    + pose proof (length_filter_split zero_sum text) as Hsplit.
      unfold zero_sum in Hsplit, Hpos. lia.
    + intros key arr Harr. exists (select (kept_indices text) arr).
      split; [by rewrite Hsel, Harr|].
      pose proof (length_select_kept text arr) as Hlen.
      rewrite (Hcount _ _ Harr), Hn in Hlen. specialize (Hlen eq_refl).
      rewrite (Hcount _ _ Harr). lia.
Qed.


(** What is left of a split: every array has lost as many samples as there
    are text arrays summing to zero, and no text array left sums to zero. *)
Lemma drop_entry_count (dataset : gmap string (list tensor2))
    (text : list tensor2) (n : nat) :
  dataset !! "text" = Some text →
  common_count dataset n →
  ∃ d' text',
    drop_entry dataset = Return d' ∧
    common_count d' (n - length (filter (λ k, zero_sum k = true) text)) ∧
    d' !! "text" = Some text' ∧
    Forall (λ k, zero_sum k = false) text'.
Proof.
  intros Htext Hcount.
  destruct (drop_entry_selects dataset text n Htext Hcount)
    as (d' & text' & Hret & Hsel & Htext' & ->).
  exists d', (filter (λ k, zero_sum k = false) text).
  split; [done|]. split; [|split; [done|]].
  - intros key arr' Harr'. rewrite Hsel in Harr'.
    destruct (dataset !! key) as [arr|] eqn:Harr; [|done].
    injection Harr' as <-.
    assert (length text = n) as Hn by (by eapply Hcount).
    pose proof (length_select_kept text arr) as Hlen.
    rewrite (Hcount _ _ Harr), Hn in Hlen. specialize (Hlen eq_refl). lia.
  - apply Forall_forall. by intros k [Hk _]%list_elem_of_filter.
Qed.

(** [get_dataloader] filters the three splits one after the other, each
    on its own. *)
Lemma drop_all_splits_Return
    (alldata : gmap string (gmap string (list tensor2)))
    (train valid test train' valid' test' : gmap string (list tensor2)) :
  alldata !! "train" = Some train →
  alldata !! "valid" = Some valid →
  alldata !! "test" = Some test →
  drop_entry train = Return train' →
  drop_entry valid = Return valid' →
  drop_entry test = Return test' →
  drop_all_splits alldata =
    Return (<["test" := test']> (<["valid" := valid']> (<["train" := train']> alldata))).
Proof.
  intros Htrain Hvalid Htest Htrain' Hvalid' Htest'.
  unfold drop_all_splits, drop_split.
  rewrite Htrain, Htrain'. cbn.
  rewrite lookup_insert_ne, Hvalid, Hvalid' by done. cbn.
  rewrite !lookup_insert_ne, Htest, Htest' by done. done.
Qed.

(** ** The meld collator *)

Lemma sorted_2_5_3 (s1 s2 s3 : meld_sample) :
  length (token_ids s1) = 2 → length (token_ids s2) = 5 → length (token_ids s3) = 3 →
  sorted [s1; s2; s3] = [s1; s3; s2].
Proof.
  intros H1 H2 H3. cbn [sorted insert_by_len]. rewrite H2, H3.
  change (3 <? 5) with true. cbn [insert_by_len]. rewrite H1, H3.
  by change (3 <? 2) with false.
Qed.

Lemma row_sum_mask (len sent_len : nat) :
  len ≤ sent_len → row_sum ((λ t, t <? len) <$> seq 0 sent_len) = len.
Proof.
  intros Hle. unfold row_sum.
  replace sent_len with (len + (sent_len - len)) by lia.
  rewrite seq_app, fmap_app, filter_app, length_app.
  assert (∀ i m, i + m ≤ len →
            length (filter (λ b, b = true) ((λ t, t <? len) <$> seq i m)) = m) as Hin.
  { intros i m. revert i. induction m as [|m IH]; intros i Him; [done|].
    cbn [seq fmap list_fmap]. rewrite filter_cons.
    rewrite decide_True by (apply Nat.ltb_lt; lia).
    cbn. f_equal. apply IH. lia. }
  assert (∀ i m, len ≤ i →
            length (filter (λ b, b = true) ((λ t, t <? len) <$> seq i m)) = 0) as Hout.
  { intros i m. revert i. induction m as [|m IH]; intros i Him; [done|].
    cbn [seq fmap list_fmap]. rewrite filter_cons.
    rewrite decide_False
      by (intros Hlt; apply Nat.ltb_lt in Hlt; lia).
    apply IH. lia. }
  rewrite Hin, Hout by lia. lia.
Qed.

(** C3, amended. For three samples with 2, 5 and 3 tokens, in this order,
    and feature widths that agree, the meld collator returns the samples by
    ascending token count; the length tensor is [3, 4, 6] (each length plus
    one for the start marker, in the sorted order), position [t] of a mask
    row is valid exactly when [t] is below that length, so the row sums are
    [3, 4, 6] too, and the padded time axis of the text batch is 6. *)
Theorem collate_fn_2_5_3 (s1 s2 s3 : meld_sample) :
  length (token_ids s1) = 2 → length (token_ids s2) = 5 → length (token_ids s3) = 3 →
  ncols (video_features s2) = ncols (video_features s1) →
  ncols (video_features s3) = ncols (video_features s1) →
  ncols (audio_features s2) = ncols (audio_features s1) →
  ncols (audio_features s3) = ncols (audio_features s1) →
  ∃ b, collate_fn [s1; s2; s3] = Return b ∧
    mb_labels b = [meld_label s1; meld_label s3; meld_label s2] ∧
    mb_lengths b = [3; 4; 6] ∧
    mb_mask b = [(λ t, t <? 3) <$> seq 0 6; (λ t, t <? 4) <$> seq 0 6;
                 (λ t, t <? 6) <$> seq 0 6] ∧
    row_sum <$> mb_mask b = [3; 4; 6] ∧
    icols (mb_text b) = 6 ∧
    Forall (λ row, length row = 6) (irows (mb_text b)).
Proof.
  intros H1 H2 H3 Hv2 Hv3 Ha2 Ha3.
  unfold collate_fn. rewrite (sorted_2_5_3 s1 s2 s3 H1 H2 H3).
  cbn [fmap list_fmap pad_sequence_1d mbind outcome_bind].
  rewrite (pad_sequence_Return
             [as_float (video_features s1); as_float (video_features s3);
              as_float (video_features s2)]
             (ncols (video_features s1)));
    [|done|repeat (apply Forall_cons_2; [done|]); apply Forall_nil_2].
  rewrite (pad_sequence_Return
             [as_float (audio_features s1); as_float (audio_features s3);
              as_float (audio_features s2)]
             (ncols (audio_features s1)));
    [|done|repeat (apply Forall_cons_2; [done|]); apply Forall_nil_2].
  cbn [fmap list_fmap pad_sequence_1d mbind outcome_bind].
  rewrite H1, H2, H3.
  eexists. split; [reflexivity|].
  cbn [mb_labels mb_lengths mb_mask mb_text pad_left_1d icols irows max_list].
  repeat split.
  cbn [fmap list_fmap].
  repeat (apply Forall_cons_2;
          [cbn [length]; rewrite length_app, length_replicate, ?H1, ?H2, ?H3;
           reflexivity|]).
  apply Forall_nil_2.
Qed.

(** * Further facts *)

(** ** When the collators return *)

Lemma mapM_Return_is {A B} (f : A → outcome B) (l : list A) :
  Forall (λ x, ∃ y, f x = Return y) l ↔ ∃ k, mapM f l = Return k.
Proof.
  split.
  - induction 1 as [|x l [y Hy] _ [k Hk]]; [by exists []|].
    exists (y :: k). cbn. rewrite Hy. cbn. rewrite Hk. done.
  - intros [k Hk]. apply mapM_Return_inv in Hk.
    induction Hk as [|x y l k Hxy _ IH]; constructor; eauto.
Qed.

Lemma length_flatten_rect (t : tensor2) :
  rect t → length (flatten t) = size0 t * ncols t.
Proof.
  destruct t as [w rs]. unfold rect, flatten, size0. cbn.
  induction 1 as [|r rs Hr _ IH]; [done|].
  cbn. rewrite length_app, IH, Hr. done.
Qed.

(** A rectangular label from which the collators get one number is a
    single row. *)
Lemma collect_item_inv (label : tensor2) (c : collected) (x : scalar) :
  rect label → collect_label label = Return c → item c = Return x → label_ok label.
Proof.
  intros Hrect Hc Hx.
  assert (length (entries c) = 1) as Hone.
  { unfold item in Hx. destruct (entries c) as [|y [|? ?]]; done. }
  pose proof (length_flatten_rect label Hrect) as Hflat.
  unfold collect_label in Hc. destruct (1 <? ncols label) eqn:Hcols.
  - apply Nat.ltb_lt in Hcols.
    apply bind_Return_inv in Hc as (t & Ht & Hrow).
    unfold reshape in Ht. destruct (_ =? _); [|done]. injection Ht as <-.
    destruct (ncols label) as [|w] eqn:Hw; [lia|].
    cbn in Hrow. injection Hrow as <-. cbn in Hone.
    rewrite length_take in Hone.
    split; [|split; [lia|by rewrite <- Hw in *]]. nia.
  - apply Nat.ltb_ge in Hcols. injection Hc as <-. cbn in Hone.
    rewrite Hone in Hflat. symmetry in Hflat.
    apply Nat.eq_mul_1 in Hflat as [Hrows Hwidth].
    split; [done|]. split; [lia|done].
Qed.

Lemma size0_expand (w : nat) (s : tensor2) : size0 (expand w s) = size0 s.
Proof.
  unfold expand, size0. destruct (ncols s =? w); [done|].
  cbn. by rewrite length_fmap.
Qed.

(** [pad_sequence] returns exactly for the sequences it can copy, and then
    returns the batch of their expanded frames, each filled up with
    zero frames. *)
Lemma pad_sequence_copyable (sequences : list tensor2) :
  copyable sequences →
  ∃ s0, head sequences = Some s0 ∧
    pad_sequence sequences =
      Return (batch_of (max_len sequences) (ncols s0) (expand (ncols s0) <$> sequences)).
Proof.
  destruct sequences as [|s0 rest]; [done|]. intros Hall.
  exists s0. split; [done|]. unfold pad_sequence.
  replace (forallb _ (s0 :: rest)) with true; [done|].
  symmetry. apply forallb_forall. intros s Hs%list_elem_of_In.
  unfold copyable in Hall. rewrite Forall_forall in Hall.
  apply orb_true_iff. destruct (Hall s Hs) as [Hw|Hw]; [left|right]; by apply Nat.eqb_eq.
Qed.

Lemma pad_sequence_Return_inv (sequences : list tensor2) (b : tensor3) :
  pad_sequence sequences = Return b →
  copyable sequences ∧
  ∃ s0, head sequences = Some s0 ∧
    b = batch_of (max_len sequences) (ncols s0) (expand (ncols s0) <$> sequences).
Proof.
  unfold pad_sequence. destruct sequences as [|s0 rest]; [done|].
  destruct (forallb _ (s0 :: rest)) eqn:Hall; [|done]. intros [= <-].
  split; [|by exists s0].
  apply Forall_forall. intros s Hs.
  rewrite forallb_forall in Hall.
  specialize (Hall s (proj1 (list_elem_of_In _ _) Hs)).
  apply orb_true_iff in Hall as [Hw|Hw]; [left|right]; by apply Nat.eqb_eq.
Qed.

(** [_process_1] returns as soon as each modality can be padded and the
    labels are single rows. *)
Lemma process_1_Return_of_pads (inputs : list sample5) :
  (∀ i, i < 3 → copyable (get5 i <$> inputs)) →
  Forall (λ s, label_ok (label5 s)) inputs →
  ∃ out, _process_1 inputs = Return out.
Proof.
  intros Hcopy Hlab.
  assert (∀ i, i < 3 → ∃ b, pad_sequence (get5 i <$> inputs) = Return b) as Hpad.
  { intros i Hi. destruct (pad_sequence_copyable _ (Hcopy i Hi)) as (s & _ & Hs). eauto. }
  destruct (Hpad 0) as [b0 Hb0]; [lia|].
  destruct (Hpad 1) as [b1 Hb1]; [lia|].
  destruct (Hpad 2) as [b2 Hb2]; [lia|].
  destruct (label_column_ok label5 inputs Hlab) as (cs & Hcs & Hcol).
  destruct inputs as [|s0 rest]; [exfalso; apply (Hcopy 0); lia|].
  unfold _process_1. cbn [seq Nat.sub mapM].
  rewrite Hb0, Hb1, Hb2. cbn [mbind outcome_bind mret outcome_ret].
  rewrite Hcs. cbn [mbind outcome_bind].
  unfold view_column at 1. rewrite length_fmap, Nat.eqb_refl. cbn [mbind outcome_bind].
  rewrite Hcol. cbn [mbind outcome_bind]. eauto.
Qed.

Lemma tensor_column_Return_inv (n : nat) (cs : list collected) (col : list (list scalar)) :
  tensor_column n cs = Return col → ∃ xs, mapM item cs = Return xs.
Proof.
  unfold tensor_column. intros Hcol.
  apply bind_Return_inv in Hcol as (xs & Hxs & _). by exists xs.
Qed.

Lemma labels_ok_of_Return {A} (f : A → tensor2) (inputs : list A)
    (cs : list collected) (xs : list scalar) :
  Forall (λ s, rect (f s)) inputs →
  mapM collect_label (f <$> inputs) = Return cs →
  mapM item cs = Return xs →
  Forall (λ s, label_ok (f s)) inputs.
Proof.
  intros Hrect Hcs Hxs.
  apply mapM_Return_inv in Hcs. apply mapM_Return_inv in Hxs.
  revert cs xs Hcs Hxs. induction Hrect as [|s inputs Hs _ IH]; intros cs xs Hcs Hxs.
  - constructor.
  - cbn in Hcs. inversion Hcs as [|? c ? cs' Hc Hcs' ]; subst.
    inversion Hxs as [|? x ? xs' Hx Hxs']; subst.
    constructor; [by eapply collect_item_inv|by eapply IH].
Qed.

(** X1. [_process_1] returns exactly for the batches in which, for each
    of the three modalities, every sample has the feature width of the first
    sample or width 1 (which [pad_sequence] spreads over the columns), and
    whose labels are single rows; in particular the batch is not empty.
    Labels are rectangular arrays and indices fit a 64-bit integer, as
    [torch.tensor(inds)] needs them. *)
Theorem process_1_returns_iff (inputs : list sample5) :
  Forall (λ s, rect (label5 s)) inputs →
  Forall (λ s, int64 (ind5 s)) inputs →
  (∃ out, _process_1 inputs = Return out) ↔
    (∀ i, i < 3 → copyable (get5 i <$> inputs)) ∧
    Forall (λ s, label_ok (label5 s)) inputs.
Proof.
  intros Hrect _. split.
  - intros [out Hout]. unfold _process_1 in Hout.
    destruct inputs as [|s0 rest] eqn:Hin; [done|]. rewrite <- Hin in *.
    apply bind_Return_inv in Hout as (processed & Hproc & Hout).
    apply bind_Return_inv in Hout as (cs & Hcs & Hout).
    apply bind_Return_inv in Hout as (inds & _ & Hout).
    apply bind_Return_inv in Hout as (col & Hcol & _).
    apply tensor_column_Return_inv in Hcol as [xs Hxs].
    split; [|by eapply labels_ok_of_Return].
    apply mapM_Return_inv in Hproc.
    intros i Hi.
    assert (∃ y, pad_sequence (get5 i <$> inputs) = Return y) as [y Hy].
    { assert (i ∈ seq 0 (5 - 2)) as Hseq by (apply elem_of_seq; cbn; lia).
      apply list_elem_of_lookup in Hseq as [j Hj].
      destruct (Forall2_lookup_l _ _ _ _ _ Hproc Hj) as (p & _ & Hp).
      apply bind_Return_inv in Hp as (y & Hy & _). by exists y. }
    by apply pad_sequence_Return_inv in Hy as [Hy _].
  - intros [Hcopy Hlab]. by apply process_1_Return_of_pads.
Qed.

(** X2. [_process_2] returns exactly for the batches that are not empty,
    have one shape per modality and labels of a single row. *)
Theorem process_2_returns_iff (inputs : list sample4) :
  Forall (λ s, rect (label4 s)) inputs →
  (∃ out, _process_2 inputs = Return out) ↔ inputs ≠ [] ∧ padded_batch inputs.
Proof.
  intros Hrect. split.
  - intros [[[[bv ba] bt] col] Hout].
    pose proof (process_2_Return_inv _ _ _ _ _ Hout) as (Hv & Ha & Ht).
    unfold _process_2 in Hout.
    destruct inputs as [|s0 rest] eqn:Hin; [done|]. rewrite <- Hin in *.
    split; [by rewrite Hin|].
    apply bind_Return_inv in Hout as (processed & _ & Hout).
    apply bind_Return_inv in Hout as (cs & Hcs & Hout).
    destruct (processed.*1) as [|? [|? [|? [|? ?]]]]; try done.
    apply bind_Return_inv in Hout as (col' & Hcol & _).
    apply tensor_column_Return_inv in Hcol as [xs Hxs].
    split; [|by eapply labels_ok_of_Return].
    intros i Hi.
    assert (∃ b, stack (get4 i <$> inputs) = Return b) as [b Hb].
    { destruct i as [|[|[|?]]]; [eauto..|lia]. }
    apply stack_Return_inv in Hb as [_ Hb].
    exists (dim1 b), (dim2 b). by apply Forall_fmap in Hb.
  - intros [Hne Hwf]. destruct (process_2_Return inputs Hne Hwf) as (n & w & Hret). eauto.
Qed.

(** X3. A batch that [_process_2] returns holds every sample's frames as
    they are, in batch order: nothing is padded or cut, and every sample
    has the shape of the batch tensor. *)
Theorem process_2_keeps_frames (inputs : list sample4) (bv ba bt : tensor3)
    (labels : list (list scalar)) :
  _process_2 inputs = Return (bv, ba, bt, labels) →
  items bv = (λ s, rows (vision4 s)) <$> inputs ∧
  items ba = (λ s, rows (audio4 s)) <$> inputs ∧
  items bt = (λ s, rows (text4 s)) <$> inputs ∧
  Forall (λ s, size0 (vision4 s) = dim1 bv ∧ ncols (vision4 s) = dim2 bv ∧
               size0 (audio4 s) = dim1 ba ∧ ncols (audio4 s) = dim2 ba ∧
               size0 (text4 s) = dim1 bt ∧ ncols (text4 s) = dim2 bt) inputs.
Proof.
  intros Hret. apply process_2_Return_inv in Hret as (Hv & Ha & Ht).
  apply stack_Return_inv in Hv as [Hiv Hsv].
  apply stack_Return_inv in Ha as [Hia Hsa].
  apply stack_Return_inv in Ht as [Hit Hst].
  rewrite <- list_fmap_compose in Hiv, Hia, Hit.
  split; [done|]. split; [done|]. split; [done|].
  rewrite Forall_fmap in Hsv, Hsa, Hst.
  rewrite Forall_forall in *. intros s Hs.
  destruct (Hsv s Hs), (Hsa s Hs), (Hst s Hs). done.
Qed.


Lemma max_len_same_length (sequences : list tensor2) (n : nat) :
  sequences ≠ [] → Forall (λ s, size0 s = n) sequences → max_len sequences = n.
Proof.
  intros Hne Hall. unfold max_len.
  induction Hall as [|s rest Hs Hall IH]; [done|].
  cbn. destruct rest as [|s' rest']; [cbn; lia|].
  rewrite IH by done. lia.
Qed.

(** Padding sequences of one length is stacking them. *)
Lemma batch_of_same_length (sequences : list tensor2) (n w : nat) :
  sequences ≠ [] → Forall (λ s, size0 s = n) sequences →
  batch_of (max_len sequences) w sequences = T3 n w (rows <$> sequences).
Proof.
  intros Hne Hall. rewrite (max_len_same_length sequences n Hne Hall).
  unfold batch_of. f_equal. apply list_fmap_ext. intros k s Hk.
  unfold right_pad. rewrite Forall_forall in Hall.
  rewrite (Hall s) by (by eapply list_elem_of_lookup_2).
  rewrite Nat.sub_diag. apply app_nil_r.
Qed.

Lemma get4_without_index (i : nat) (inputs : list sample5) :
  get4 i <$> (without_index <$> inputs) = get5 i <$> inputs.
Proof.
  rewrite <- list_fmap_compose. apply list_fmap_ext. intros k s _.
  by destruct i as [|[|?]].
Qed.

Lemma process_1_nonempty (inputs : list sample5) :
  inputs ≠ [] →
  _process_1 inputs =
    (processed ← mapM (λ i,
         pad_seq ← pad_sequence (get5 i <$> inputs);
         Return (pad_seq, size0 <$> (get5 i <$> inputs))) [0; 1; 2];
     labels ← mapM collect_label (label5 <$> inputs);
     inds_t ← view_column (length inputs) (ind5 <$> inputs);
     labels_t ← tensor_column (length inputs) labels;
     Return (processed.*1, processed.*2, inds_t, labels_t)).
Proof. by destruct inputs. Qed.

Lemma process_2_nonempty (inputs : list sample4) :
  inputs ≠ [] →
  _process_2 inputs =
    (processed ← mapM (λ i,
         stacked ← stack (get4 i <$> inputs);
         Return (stacked, size0 <$> (get4 i <$> inputs))) [0; 1; 2];
     labels ← mapM collect_label (label4 <$> inputs);
     match processed.*1 with
     | [v; a; t] =>
         labels_t ← tensor_column (length inputs) labels;
         Return (v, a, t, labels_t)
     | _ => Raise IndexError
     end).
Proof. by destruct inputs. Qed.

(** X4. On a batch whose samples already share one shape per modality the
    two collators agree: [_process_1] returns the very batch tensors and
    label column that [_process_2] returns for the same samples without
    their index, beside the lengths and the index column. *)
Theorem process_1_agrees_with_process_2 (inputs : list sample5) :
  inputs ≠ [] →
  padded_batch (without_index <$> inputs) →
  ∃ bv ba bt labels,
    _process_2 (without_index <$> inputs) = Return (bv, ba, bt, labels) ∧
    _process_1 inputs =
      Return ([bv; ba; bt],
              (λ i, size0 <$> (get5 i <$> inputs)) <$> [0; 1; 2],
              (λ s, [ind5 s]) <$> inputs,
              labels).
Proof.
  intros Hne [Hshape Hlab].
  assert (∀ i, i < 3 → ∃ n w,
            stack (get4 i <$> (without_index <$> inputs)) =
              Return (T3 n w (rows <$> (get5 i <$> inputs))) ∧
            pad_sequence (get5 i <$> inputs) =
              Return (T3 n w (rows <$> (get5 i <$> inputs)))) as Hboth.
  { intros i Hi. destruct (Hshape i Hi) as (n & w & Hall).
    rewrite Forall_fmap in Hall.
    assert (Forall (λ s, size0 s = n ∧ ncols s = w) (get5 i <$> inputs)) as Hall'.
    { apply Forall_fmap. eapply Forall_impl; [exact Hall|].
      intros s. cbn. by destruct i as [|[|?]]. }
    assert (get5 i <$> inputs ≠ []) as Hne' by (by destruct inputs).
    exists n, w. rewrite get4_without_index. split.
    - by apply stack_Return.
    - rewrite (pad_sequence_Return _ w Hne').
      + rewrite (batch_of_same_length _ n w Hne'); [done|].
        eapply Forall_impl; [exact Hall'|]. by intros s [? _].
      + eapply Forall_impl; [exact Hall'|]. by intros s [_ ?]. }
  destruct (Hboth 0) as (n0 & w0 & Hs0 & Hp0); [lia|].
  destruct (Hboth 1) as (n1 & w1 & Hs1 & Hp1); [lia|].
  destruct (Hboth 2) as (n2 & w2 & Hs2 & Hp2); [lia|].
  rewrite Forall_fmap in Hlab.
  destruct (label_column_ok label5 inputs) as (cs & Hcs & Hcol).
  { eapply Forall_impl; [exact Hlab|]. done. }
  assert (label4 <$> (without_index <$> inputs) = label5 <$> inputs) as Hlabels.
  { rewrite <- list_fmap_compose. by apply list_fmap_ext. }
  exists (T3 n0 w0 (rows <$> (get5 0 <$> inputs))),
         (T3 n1 w1 (rows <$> (get5 1 <$> inputs))),
         (T3 n2 w2 (rows <$> (get5 2 <$> inputs))),
         ((λ s, [label_entry (label5 s)]) <$> inputs).
  split.
  - rewrite process_2_nonempty by (by destruct inputs).
    cbn [mapM]. rewrite Hs0, Hs1, Hs2. cbn.
    rewrite Hlabels, Hcs. cbn. rewrite length_fmap, Hcol. done.
  - rewrite process_1_nonempty by done.
    cbn [mapM]. rewrite Hp0, Hp1, Hp2. cbn.
    rewrite Hcs. cbn.
    unfold view_column at 1. rewrite length_fmap, Nat.eqb_refl. cbn.
    rewrite Hcol. cbn.
    by rewrite <- (list_fmap_compose ind5).
Qed.


(** ** The meld collator on any batch *)

Lemma insert_by_len_perm (x : meld_sample) (l : list meld_sample) :
  insert_by_len x l ≡ₚ x :: l.
Proof.
  induction l as [|y l IH]; [done|]. cbn [insert_by_len].
  destruct (length (token_ids y) <? length (token_ids x)); [|reflexivity].
  rewrite IH. apply Permutation_swap.
Qed.

Lemma sorted_perm (batch : list meld_sample) : sorted batch ≡ₚ batch.
Proof.
  induction batch as [|x l IH]; [done|]. cbn.
  by rewrite insert_by_len_perm, IH.
Qed.

Lemma insert_by_len_sorted (x : meld_sample) (l : list meld_sample) :
  StronglySorted shorter_eq l → StronglySorted shorter_eq (insert_by_len x l).
Proof.
  induction 1 as [|y l Hl IH Hy]; cbn [insert_by_len].
  - repeat constructor.
  - destruct (length (token_ids y) <? length (token_ids x)) eqn:Hlt.
    + apply Nat.ltb_lt in Hlt. constructor; [done|].
      rewrite insert_by_len_perm. constructor; [|done].
      unfold shorter_eq, token_count. lia.
    + apply Nat.ltb_ge in Hlt. constructor; [by constructor|].
      constructor; [done|].
      eapply Forall_impl; [exact Hy|]. unfold shorter_eq, token_count. intros z. lia.
Qed.

Lemma insert_by_len_filter (k : nat) (x : meld_sample) (l : list meld_sample) :
  filter (λ s, token_count s = k) (insert_by_len x l) =
  filter (λ s, token_count s = k) (x :: l).
Proof.
  induction l as [|y l IH]; [done|]. cbn [insert_by_len].
  destruct (length (token_ids y) <? length (token_ids x)) eqn:Hlt; [|done].
  apply Nat.ltb_lt in Hlt.
  rewrite (filter_cons _ y), IH, !(filter_cons _ x), (filter_cons _ y).
  unfold token_count.
  destruct (decide (length (token_ids y) = k)), (decide (length (token_ids x) = k));
    done || lia.
Qed.

(** X5. The meld collator's sort is a stable sort by token count: the
    sorted batch holds the same samples, in ascending order of token count,
    and samples of equal token count keep the order they came in. *)
Theorem sorted_is_stable_sort (batch : list meld_sample) :
  sorted batch ≡ₚ batch ∧
  StronglySorted shorter_eq (sorted batch) ∧
  ∀ k, filter (λ s, token_count s = k) (sorted batch) =
       filter (λ s, token_count s = k) batch.
Proof.
  split; [apply sorted_perm|]. split.
  - induction batch as [|x l IH]; [constructor|].
    cbn. by apply insert_by_len_sorted.
  - intros k. induction batch as [|x l IH]; [done|].
    cbn [sorted]. rewrite insert_by_len_filter, !(filter_cons _ x), IH. done.
Qed.

Lemma sorted_nonempty (batch : list meld_sample) : batch ≠ [] → sorted batch ≠ [].
Proof.
  intros Hne Hnil. apply Hne. apply Permutation_nil_r.
  rewrite <- Hnil. symmetry. apply sorted_perm.
Qed.

Lemma size0_as_float (t : tensor2) : size0 (as_float t) = size0 t.
Proof. unfold as_float, map2, size0. cbn. by rewrite length_map. Qed.

(** What [collate_fn] returns for features of one width each. *)
Lemma collate_fn_Return (batch : list meld_sample) (wv wa : nat) :
  batch ≠ [] →
  Forall (λ s, ncols (video_features s) = wv) batch →
  Forall (λ s, ncols (audio_features s) = wa) batch →
  collate_fn batch =
    Return {|
      mb_text := text_batch batch;
      mb_visual := pad_front
        (batch_of (max_len ((λ s, as_float (video_features s)) <$> sorted batch)) wv
           ((λ s, as_float (video_features s)) <$> sorted batch));
      mb_acoustic := pad_front
        (batch_of (max_len ((λ s, as_float (audio_features s)) <$> sorted batch)) wa
           ((λ s, as_float (audio_features s)) <$> sorted batch));
      mb_labels := meld_label <$> sorted batch;
      mb_lengths := (λ n, n + 1) <$> ((λ sample, length (token_ids sample)) <$> sorted batch);
      mb_mask := sent_mask
        (S (max_list (length <$> (token_ids <$> sorted batch))))
        ((λ n, n + 1) <$> ((λ sample, length (token_ids sample)) <$> sorted batch)) |}.
Proof.
  intros Hne Hv Ha. unfold collate_fn.
  pose proof (sorted_nonempty batch Hne) as Hsne.
  rewrite <- (sorted_perm batch) in Hv, Ha.
  destruct (sorted batch) as [|s0 rest] eqn:Hs; [done|]. rewrite <- Hs in *.
  assert (pad_sequence_1d (token_ids <$> sorted batch) =
            Return (IT2 (max_list (length <$> (token_ids <$> sorted batch)))
              ((λ s, s ++ replicate (max_list (length <$> (token_ids <$> sorted batch)) - length s) 0%Z)
                 <$> (token_ids <$> sorted batch)))) as ->.
  { rewrite Hs. done. }
  rewrite (pad_sequence_Return ((λ s, as_float (video_features s)) <$> sorted batch) wv);
    [|rewrite Hs; done|by apply Forall_fmap].
  rewrite (pad_sequence_Return ((λ s, as_float (audio_features s)) <$> sorted batch) wa);
    [|rewrite Hs; done|by apply Forall_fmap].
  done.
Qed.

Lemma max_list_token_counts (batch : list meld_sample) :
  max_list (length <$> (token_ids <$> sorted batch)) = max_list (token_count <$> batch).
Proof.
  rewrite <- list_fmap_compose.
  change (length ∘ token_ids) with token_count.
  by rewrite (sorted_perm batch).
Qed.

(** X6. For a batch that is not empty and whose video and audio features
    have one width each, [collate_fn] returns; labels and lengths follow
    the sorted batch, every length is the token count plus one, the text
    batch is as wide as the longest token sequence plus one, the mask has
    one row per sample of that width, position [t] of a row is valid
    exactly below the sample's length, and so each row sums to that
    length. *)
Theorem collate_fn_lengths_and_mask (batch : list meld_sample) (wv wa : nat) :
  batch ≠ [] →
  Forall (λ s, ncols (video_features s) = wv) batch →
  Forall (λ s, ncols (audio_features s) = wa) batch →
  ∃ b, collate_fn batch = Return b ∧
    mb_labels b = meld_label <$> sorted batch ∧
    mb_lengths b = (λ s, token_count s + 1) <$> sorted batch ∧
    icols (mb_text b) = max_list (token_count <$> batch) + 1 ∧
    mb_mask b = (λ len, (λ t, t <? len) <$> seq 0 (icols (mb_text b))) <$> mb_lengths b ∧
    row_sum <$> mb_mask b = mb_lengths b.
Proof.
  intros Hne Hv Ha. eexists. split; [by apply collate_fn_Return|].
  cbn [mb_labels mb_lengths mb_text mb_mask text_batch pad_left_1d icols].
  rewrite max_list_token_counts.
  split; [done|]. split; [by rewrite <- list_fmap_compose|].
  split; [lia|]. split; [done|].
  unfold sent_mask. rewrite <- !list_fmap_compose.
  apply list_fmap_ext. intros k s Hk. unfold compose.
  apply row_sum_mask.
  assert (token_count s ≤ max_list (token_count <$> batch)); [|unfold token_count in *; lia].
  apply max_list_elem_of_le, list_elem_of_fmap. exists s. split; [done|].
  rewrite <- (sorted_perm batch). by eapply list_elem_of_lookup_2.
Qed.

Lemma copyable_as_float {A} (f : A → tensor2) (l : list A) :
  copyable ((λ x, as_float (f x)) <$> l) ↔ copyable (f <$> l).
Proof.
  destruct l as [|x l]; [done|]. cbn. by rewrite !Forall_cons, !Forall_fmap.
Qed.

(** What [collate_fn] returns whenever it returns. *)
Lemma collate_fn_Return_inv (batch : list meld_sample) (b : meld_batch) :
  collate_fn batch = Return b →
  copyable (video_features <$> sorted batch) ∧
  copyable (audio_features <$> sorted batch) ∧
  ∃ s0, head (sorted batch) = Some s0 ∧
    b = {|
      mb_text := text_batch batch;
      mb_visual := pad_front
        (batch_of (max_len ((λ s, as_float (video_features s)) <$> sorted batch))
           (ncols (video_features s0))
           (expand (ncols (video_features s0)) <$>
              ((λ s, as_float (video_features s)) <$> sorted batch)));
      mb_acoustic := pad_front
        (batch_of (max_len ((λ s, as_float (audio_features s)) <$> sorted batch))
           (ncols (audio_features s0))
           (expand (ncols (audio_features s0)) <$>
              ((λ s, as_float (audio_features s)) <$> sorted batch)));
      mb_labels := meld_label <$> sorted batch;
      mb_lengths := (λ n, n + 1) <$> ((λ sample, length (token_ids sample)) <$> sorted batch);
      mb_mask := sent_mask
        (S (max_list (length <$> (token_ids <$> sorted batch))))
        ((λ n, n + 1) <$> ((λ sample, length (token_ids sample)) <$> sorted batch)) |}.
Proof.
  intros Hb. unfold collate_fn in Hb.
  apply bind_Return_inv in Hb as (text & Htext & Hb).
  apply bind_Return_inv in Hb as (visual & Hvisual & Hb).
  apply bind_Return_inv in Hb as (acoustic & Hacoustic & Hb).
  apply pad_sequence_Return_inv in Hvisual as (Hv & v0 & Hv0 & ->).
  apply pad_sequence_Return_inv in Hacoustic as (Ha & a0 & Ha0 & ->).
  apply (proj1 (copyable_as_float video_features _)) in Hv.
  apply (proj1 (copyable_as_float audio_features _)) in Ha.
  split; [done|]. split; [done|].
  destruct (sorted batch) as [|s0 rest] eqn:Hs; [done|]. rewrite <- Hs in *.
  exists s0. split; [by rewrite Hs|].
  rewrite Hs in Hv0, Ha0. injection Hv0 as <-. injection Ha0 as <-.
  assert (text = IT2 (max_list (length <$> (token_ids <$> sorted batch)))
            ((λ s, s ++ replicate (max_list (length <$> (token_ids <$> sorted batch)) - length s) 0%Z)
               <$> (token_ids <$> sorted batch))) as ->.
  { rewrite Hs in Htext |- *. by injection Htext. }
  by injection Hb.
Qed.

Lemma collate_fn_copyable (batch : list meld_sample) :
  copyable (video_features <$> sorted batch) →
  copyable (audio_features <$> sorted batch) →
  ∃ b, collate_fn batch = Return b.
Proof.
  intros Hv Ha. unfold collate_fn.
  destruct (pad_sequence_copyable _ (proj2 (copyable_as_float video_features _) Hv))
    as (v0 & _ & ->).
  destruct (pad_sequence_copyable _ (proj2 (copyable_as_float audio_features _) Ha))
    as (a0 & _ & ->).
  destruct (sorted batch) as [|s0 rest] eqn:Hs; [done|]. rewrite <- Hs.
  assert (∃ text, pad_sequence_1d (token_ids <$> sorted batch) = Return text) as [text ->].
  { rewrite Hs. cbn. eauto. }
  cbn [mbind outcome_bind]. eauto.
Qed.

(** X7. [collate_fn] returns exactly for the batches in which every sample
    has the video width of the first sample of the sorted batch or width 1,
    and likewise for the audio width; in particular the batch is not empty.
    Token ids and labels are integers a [LongTensor] can hold. *)
Theorem collate_fn_returns_iff (batch : list meld_sample) :
  Forall (λ s, Forall int64 (token_ids s) ∧ int64 (meld_label s)) batch →
  (∃ b, collate_fn batch = Return b) ↔
  copyable (video_features <$> sorted batch) ∧
  copyable (audio_features <$> sorted batch).
Proof.
  intros _. split.
  - intros [b Hb]. by destruct (collate_fn_Return_inv batch b Hb) as (Hv & Ha & _).
  - intros [Hv Ha]. by apply collate_fn_copyable.
Qed.

(** X8. In what [collate_fn] returns, row [k] of the text batch is a zero
    (the start marker), then the tokens of the [k]-th sample of the sorted
    batch, then zeros up to the common width; and sample [k] of the visual
    and of the acoustic batch is a zero frame, then that sample's frames as
    32-bit floats (each value spread over the batch's columns when the
    sample has width 1 and the batch another), then zero frames. *)
Theorem collate_fn_start_marker (batch : list meld_sample) (b : meld_batch)
    (k : nat) (s : meld_sample) :
  collate_fn batch = Return b →
  sorted batch !! k = Some s →
  (∃ pad, irows (mb_text b) !! k = Some (0%Z :: token_ids s ++ replicate pad 0%Z) ∧
          S (token_count s + pad) = icols (mb_text b)) ∧
  (∃ pad, items (mb_visual b) !! k =
            Some (zero_row (dim2 (mb_visual b)) ::
                  rows (expand (dim2 (mb_visual b)) (as_float (video_features s))) ++
                  replicate pad (zero_row (dim2 (mb_visual b)))) ∧
          S (size0 (video_features s) + pad) = dim1 (mb_visual b)) ∧
  (∃ pad, items (mb_acoustic b) !! k =
            Some (zero_row (dim2 (mb_acoustic b)) ::
                  rows (expand (dim2 (mb_acoustic b)) (as_float (audio_features s))) ++
                  replicate pad (zero_row (dim2 (mb_acoustic b)))) ∧
          S (size0 (audio_features s) + pad) = dim1 (mb_acoustic b)).
Proof.
  intros Hb Hk.
  destruct (collate_fn_Return_inv batch b Hb) as (_ & _ & s0 & _ & ->).
  cbn [mb_text mb_visual mb_acoustic text_batch pad_left_1d pad_front batch_of irows icols
       items dim1 dim2].
  split; [|split].
  - exists (max_list (length <$> (token_ids <$> sorted batch)) - length (token_ids s)).
    rewrite !list_lookup_fmap, Hk. cbn. split; [done|].
    assert (length (token_ids s) ≤ max_list (length <$> (token_ids <$> sorted batch)));
      [|unfold token_count; lia].
    apply max_list_elem_of_le. rewrite <- list_fmap_compose.
    apply list_elem_of_fmap. exists s. split; [done|]. by eapply list_elem_of_lookup_2.
  - exists (max_len ((λ s, as_float (video_features s)) <$> sorted batch)
            - size0 (video_features s)).
    rewrite !list_lookup_fmap, Hk. cbn [fmap option_fmap option_map].
    unfold right_pad. rewrite size0_expand, size0_as_float. split; [done|].
    assert (size0 (as_float (video_features s))
              ≤ max_len ((λ s, as_float (video_features s)) <$> sorted batch)) as Hle.
    { apply (size0_le_max_len _ k). by rewrite list_lookup_fmap, Hk. }
    rewrite size0_as_float in Hle. lia.
  - exists (max_len ((λ s, as_float (audio_features s)) <$> sorted batch)
            - size0 (audio_features s)).
    rewrite !list_lookup_fmap, Hk. cbn [fmap option_fmap option_map].
    unfold right_pad. rewrite size0_expand, size0_as_float. split; [done|].
    assert (size0 (as_float (audio_features s))
              ≤ max_len ((λ s, as_float (audio_features s)) <$> sorted batch)) as Hle.
    { apply (size0_le_max_len _ k). by rewrite list_lookup_fmap, Hk. }
    rewrite size0_as_float in Hle. lia.
Qed.


(** ** Indexing *)

Lemma py_index_nat {A} (l : list A) (i : nat) (x : A) :
  l !! i = Some x → py_index l (Z.of_nat i) = Return x.
Proof.
  intros Hi. unfold py_index.
  replace (0 <=? Z.of_nat i)%Z with true by (symmetry; apply Z.leb_le; lia).
  replace (Z.of_nat i <? 0)%Z with false by (symmetry; apply Z.ltb_ge; lia).
  by rewrite Nat2Z.id, Hi.
Qed.

Lemma py_index_wrap {A} (l : list A) (i : Z) :
  (- Z.of_nat (length l) ≤ i < 0)%Z →
  py_index l i = py_index l (Z.of_nat (length l) + i).
Proof.
  intros Hi. unfold py_index.
  replace (0 <=? i)%Z with false by (symmetry; apply Z.leb_gt; lia).
  replace (0 <=? Z.of_nat (length l) + i)%Z with true by (symmetry; apply Z.leb_le; lia).
  done.
Qed.

Lemma py_index_out {A} (l : list A) (i : Z) :
  (Z.of_nat (length l) ≤ i ∨ i < - Z.of_nat (length l))%Z →
  py_index l i = Raise IndexError.
Proof.
  intros Hi. unfold py_index.
  destruct (0 <=? i)%Z eqn:Hsign.
  - apply Z.leb_le in Hsign.
    replace (i <? 0)%Z with false by (symmetry; apply Z.ltb_ge; lia).
    rewrite lookup_ge_None_2; [done|lia].
  - apply Z.leb_gt in Hsign.
    replace (Z.of_nat (length l) + i <? 0)%Z with true; [done|].
    symmetry. apply Z.ltb_lt. lia.
Qed.

Lemma py_index_Return_inv {A} (l : list A) (i : Z) (x : A) :
  py_index l i = Return x →
  x ∈ l ∧ (- Z.of_nat (length l) ≤ i < Z.of_nat (length l))%Z.
Proof.
  unfold py_index. intros Hx.
  destruct (_ <? 0)%Z eqn:Hneg; [done|]. apply Z.ltb_ge in Hneg.
  destruct (l !! _) as [y|] eqn:Hy; [|done]. injection Hx as ->.
  split; [by eapply list_elem_of_lookup_2|].
  apply lookup_lt_Some in Hy. destruct (0 <=? i)%Z eqn:Hsign.
  - apply Z.leb_le in Hsign. lia.
  - apply Z.leb_gt in Hsign. lia.
Qed.

(** ** The meld dataset object *)

(** X9. [MeldDataset] refuses an empty mapping with an [IndexError];
    otherwise it holds one record per entry, in the mapping's order, each
    with its key as [Id]: [len] is the number of entries, index [i] and
    index [i - len] both give entry [i], any other index is an
    [IndexError], and [lav_dim] reports 300 and the audio and video widths
    of the first record. *)
Theorem MeldDataset_serves_records (raw_data : list (string * raw_meld)) :
  (raw_data = [] → MeldDataset_init raw_data = Raise IndexError) ∧
  (raw_data ≠ [] →
   ∃ self, MeldDataset_init raw_data = Return self ∧
     MeldDataset_len self = length raw_data ∧
     lav_dim self = Return (300, acoustic_size self, visual_size self) ∧
     (∀ i entry, raw_data !! i = Some entry →
        MeldDataset_getitem self (Z.of_nat i) = Return (with_id entry) ∧
        MeldDataset_getitem self (Z.of_nat i - Z.of_nat (length raw_data)) =
          Return (with_id entry)) ∧
     (∀ index, (Z.of_nat (length raw_data) ≤ index ∨
                index < - Z.of_nat (length raw_data))%Z →
        MeldDataset_getitem self index = Raise IndexError)).
Proof.
  split; [by intros ->|]. intros Hne.
  destruct raw_data as [|e0 rest] eqn:Hraw; [done|]. rewrite <- Hraw in *.
  unfold MeldDataset_init.
  assert (py_index (with_id <$> raw_data) 0 = Return (with_id e0)) as Hfirst.
  { rewrite Hraw. done. }
  rewrite Hfirst. cbn [mbind outcome_bind].
  eexists. split; [done|].
  unfold MeldDataset_len, MeldDataset_getitem, lav_dim.
  cbn [meld_len meld_data visual_size acoustic_size].
  rewrite Hfirst, length_fmap.
  split; [done|]. split; [done|]. split.
  - intros i entry Hi.
    assert ((with_id <$> raw_data) !! i = Some (with_id entry)) as Hi'
      by (by rewrite list_lookup_fmap, Hi).
    split; [by apply py_index_nat|].
    rewrite py_index_wrap.
    + rewrite length_fmap.
      replace (Z.of_nat (length raw_data) + (Z.of_nat i - Z.of_nat (length raw_data)))%Z
        with (Z.of_nat i) by lia.
      by apply py_index_nat.
    + rewrite length_fmap. apply lookup_lt_Some in Hi. lia.
  - intros index Hindex. apply py_index_out. by rewrite length_fmap.
Qed.


(** ** Every outcome of [drop_entry] *)

Lemma drop_loop_Raise_stays (drop : list nat) (keys : list string) (e : exn) :
  foldl (drop_step drop) (Raise e) keys = Raise e.
Proof. induction keys as [|k keys IH]; [done|]. exact IH. Qed.

Lemma np_delete_out_of_bounds {A} (arr : list A) (obj : list nat) (j : nat) :
  j ∈ obj → length arr ≤ j → np_delete arr obj = Raise IndexError.
Proof.
  intros Hj Hlen. unfold np_delete.
  destruct (forallb _ obj) eqn:Hall; [|done].
  rewrite forallb_forall in Hall. specialize (Hall j).
  rewrite <- list_elem_of_In in Hall. specialize (Hall Hj).
  apply Nat.ltb_lt in Hall. lia.
Qed.

Lemma np_delete_cases {A} (arr : list A) (obj : list nat) :
  np_delete arr obj = Return (delete_from 0 obj arr) ∨
  np_delete arr obj = Raise IndexError.
Proof. unfold np_delete. destruct (forallb _ obj); auto. Qed.

(** Once an array is too short for a dropped index the loop ends in an
    [IndexError], whatever the order of the keys. *)
Lemma drop_loop_Raise (drop : list nat) (keys : list string)
    (d : gmap string (list tensor2)) (key : string) (arr : list tensor2) (j : nat) :
  NoDup keys →
  (∀ k, k ∈ keys → is_Some (d !! k)) →
  key ∈ keys → d !! key = Some arr → j ∈ drop → length arr ≤ j →
  foldl (drop_step drop) (Return d) keys = Raise IndexError.
Proof.
  revert d. induction keys as [|k keys IH]; intros d Hnd Hkeys Hkey Harr Hj Hlen.
  - by apply elem_of_nil in Hkey.
  - apply NoDup_cons in Hnd as [Hk Hnd].
    destruct (Hkeys k) as [arr_k Harr_k]; [by left|].
    cbn [foldl]. unfold drop_step at 2. cbn. rewrite Harr_k.
    destruct (decide (key = k)) as [->|Hne].
    + assert (arr_k = arr) as -> by congruence.
      rewrite (np_delete_out_of_bounds arr drop j Hj Hlen). cbn.
      apply drop_loop_Raise_stays.
    + destruct (np_delete_cases arr_k drop) as [-> | ->]; cbn;
        [|apply drop_loop_Raise_stays].
      apply IH; try done.
      * intros k' Hk'. rewrite lookup_insert_ne by (intros ->; done).
        apply Hkeys. by right.
      * apply elem_of_cons in Hkey as [?|?]; done.
      * by rewrite lookup_insert_ne.
Qed.

Lemma keys_of_map (d : gmap string (list tensor2)) (key : string) :
  key ∈ (map_to_list d).*1 ↔ is_Some (d !! key).
Proof.
  rewrite list_elem_of_fmap. split.
  - intros ([k arr] & -> & Hin). apply elem_of_map_to_list in Hin. by exists arr.
  - intros [arr Harr]. exists (key, arr). split; [done|]. by apply elem_of_map_to_list.
Qed.

Lemma drop_entry_fits (dataset : gmap string (list tensor2)) (text : list tensor2) :
  dataset !! "text" = Some text →
  (∀ key arr j, dataset !! key = Some arr → j ∈ zero_sum_indices 0 text → j < length arr) →
  drop_entry dataset = Return (delete_from 0 (zero_sum_indices 0 text) <$> dataset).
Proof.
  intros Htext Hfit. unfold drop_entry. rewrite Htext.
  destruct (drop_loop (zero_sum_indices 0 text) (map_to_list dataset).*1 dataset)
    as (d' & Hd' & Hlook).
  - apply NoDup_fst_map_to_list.
  - intros key [arr Harr]%keys_of_map. exists arr. split; [done|].
    apply Forall_forall. intros j Hj. by eapply Hfit.
  - cbn. rewrite Hd'. f_equal. apply map_eq. intros key.
    rewrite Hlook, lookup_fmap.
    destruct (decide (key ∈ (map_to_list dataset).*1)) as [Hin|Hin]; [done|].
    destruct (dataset !! key) as [arr|] eqn:Harr; [|done].
    exfalso. apply Hin. apply keys_of_map. by rewrite Harr.
Qed.

Lemma drop_entry_too_short (dataset : gmap string (list tensor2))
    (text arr : list tensor2) (key : string) (j : nat) :
  dataset !! "text" = Some text →
  dataset !! key = Some arr →
  j ∈ zero_sum_indices 0 text → length arr ≤ j →
  drop_entry dataset = Raise IndexError.
Proof.
  intros Htext Harr Hj Hlen. unfold drop_entry. rewrite Htext. cbn.
  apply (drop_loop_Raise _ _ _ key arr j); try done.
  - apply NoDup_fst_map_to_list.
  - intros k. by rewrite keys_of_map.
  - apply keys_of_map. by rewrite Harr.
Qed.

(** X10. The three outcomes of [drop_entry].  Without a ["text"] array it
    raises [KeyError].  With one, it raises [IndexError] as soon as some
    array is too short to hold a sample whose text sums to zero, and
    otherwise returns every array with exactly those samples removed. *)
Theorem drop_entry_outcomes (dataset : gmap string (list tensor2)) :
  (dataset !! "text" = None → drop_entry dataset = Raise KeyError) ∧
  (∀ text, dataset !! "text" = Some text →
     (∀ key arr j k, dataset !! key = Some arr →
        text !! j = Some k → zero_sum k = true → j < length arr) →
     drop_entry dataset = Return (delete_from 0 (zero_sum_indices 0 text) <$> dataset)) ∧
  (∀ text key arr j k, dataset !! "text" = Some text →
     dataset !! key = Some arr →
     text !! j = Some k → zero_sum k = true → length arr ≤ j →
     drop_entry dataset = Raise IndexError).
Proof.
  split; [|split].
  - intros Htext. unfold drop_entry. by rewrite Htext.
  - intros text Htext Hfit. apply drop_entry_fits; [done|].
    intros key arr j Harr Hj.
    apply zero_sum_indices_spec in Hj as (_ & k & Hk & Hz).
    rewrite Nat.sub_0_r in Hk. by eapply Hfit.
  - intros text key arr j k Htext Harr Hk Hz Hlen.
    apply (drop_entry_too_short dataset text arr key j); try done.
    apply zero_sum_indices_spec. split; [lia|]. exists k.
    by rewrite Nat.sub_0_r.
Qed.

Lemma drop_entry_Return_inv (dataset d' : gmap string (list tensor2)) :
  drop_entry dataset = Return d' →
  ∃ text, dataset !! "text" = Some text ∧
    d' = delete_from 0 (zero_sum_indices 0 text) <$> dataset.
Proof.
  intros Hret. destruct (dataset !! "text") as [text|] eqn:Htext.
  - exists text. split; [done|].
    destruct (decide (map_Forall (λ _ arr,
                Forall (λ j, j < length arr) (zero_sum_indices 0 text)) dataset))
      as [Hfit|Hbad].
    + rewrite (drop_entry_fits dataset text Htext) in Hret; [by injection Hret|].
      intros key arr j Harr Hj. specialize (Hfit key arr Harr). cbn in Hfit.
      rewrite Forall_forall in Hfit. by apply Hfit.
    + apply map_not_Forall in Hbad as (key & arr & Harr & Hbad); [|apply _].
      apply not_Forall_Exists in Hbad; [|apply _].
      apply Exists_exists in Hbad as (j & Hj & Hlen). cbn in Hlen.
      rewrite (drop_entry_too_short dataset text arr key j) in Hret; try done. lia.
  - unfold drop_entry in Hret. by rewrite Htext in Hret.
Qed.

Lemma zero_sum_indices_none (i : nat) (text : list tensor2) :
  Forall (λ k, zero_sum k = false) text → zero_sum_indices i text = [].
Proof.
  intros Hall. revert i. induction Hall as [|k rest Hk _ IH]; intros i; [done|].
  cbn. rewrite Hk. apply IH.
Qed.

Lemma delete_from_nothing {A} (i : nat) (arr : list A) : delete_from i [] arr = arr.
Proof.
  revert i. induction arr as [|x arr IH]; intros i; [done|].
  cbn. rewrite bool_decide_eq_false_2 by apply not_elem_of_nil. by rewrite IH.
Qed.

Lemma drop_entry_nothing (dataset : gmap string (list tensor2)) (text : list tensor2) :
  dataset !! "text" = Some text →
  Forall (λ k, zero_sum k = false) text →
  drop_entry dataset = Return dataset.
Proof.
  intros Htext Hall.
  rewrite (drop_entry_fits dataset text Htext).
  - f_equal. rewrite (zero_sum_indices_none 0 text Hall).
    apply map_eq. intros key. rewrite lookup_fmap.
    destruct (dataset !! key) as [arr|]; [|done]. cbn.
    by rewrite delete_from_nothing.
  - intros key arr j _ Hj. rewrite (zero_sum_indices_none 0 text Hall) in Hj.
    by apply elem_of_nil in Hj.
Qed.

(** X11. Filtering twice is filtering once: what [drop_entry] returns it
    returns unchanged when applied again, and a split in which no text array
    sums to zero comes back as it is, whatever the lengths of its arrays. *)
Theorem drop_entry_idempotent (dataset : gmap string (list tensor2)) :
  (∀ d', drop_entry dataset = Return d' → drop_entry d' = Return d') ∧
  (∀ text, dataset !! "text" = Some text →
     Forall (λ k, zero_sum k = false) text →
     drop_entry dataset = Return dataset).
Proof.
  split; [|apply drop_entry_nothing].
  intros d' Hret.
  apply drop_entry_Return_inv in Hret as (text & Htext & ->).
  apply (drop_entry_nothing _ (filter (λ k, zero_sum k = false) text)).
  - rewrite lookup_fmap, Htext. cbn. f_equal.
    apply (delete_from_text 0 []). constructor.
  - apply Forall_forall. by intros k [Hk _]%list_elem_of_filter.
Qed.


(** ** When a retrieval ends the process *)

Lemma steady_ret {A} (a : A) : steady (ret a).
Proof. done. Qed.

Lemma steady_lift {A} (o : outcome A) : o ≠ SystemExit → steady (lift o).
Proof. done. Qed.

Lemma steady_read (key : string) (ind : Z) : steady (read key ind).
Proof.
  intros w. unfold read. destruct (dataset w !! key) as [arr|]; [|done].
  split; [done|]. cbn. unfold py_index.
  destruct (_ <? 0)%Z; [done|]. by destruct (arr !! _).
Qed.

Lemma steady_bind {A B} (m : M A) (f : A → M B) :
  steady m → (∀ a, steady (f a)) → steady (bind m f).
Proof.
  intros Hm Hf w. unfold bind. destruct (Hm w) as [Hw Hexit].
  destruct (m w) as [[a|e|] w']; cbn in *; subst; [apply Hf|done..].
Qed.

Lemma from_first_nonzero_no_exit (t : tensor2) : from_first_nonzero t ≠ SystemExit.
Proof. unfold from_first_nonzero. by destruct (first_nonzero t). Qed.

Lemma get_class_no_exit (flag : tensor2) : _get_class flag ≠ SystemExit.
Proof. unfold _get_class. by destruct (flatten flag) as [|? [|? ?]]. Qed.

Lemma pad_to_no_exit (n : Z) (t : tensor2) : pad_to n t ≠ SystemExit.
Proof. unfold pad_to, F_pad_below. by destruct (_ <? 0)%Z. Qed.

Lemma steady_after_align (self : SentimentDataset) (ind : Z)
    (cut : tensor2 * tensor2 * tensor2) : steady (after_align self ind cut).
Proof.
  destruct cut as [[v a] t]. unfold after_align.
  destruct (z_norm self);
    (apply steady_bind; [apply steady_read|intros tmp];
     apply steady_bind; [|intros ?; apply steady_ret];
     apply steady_lift; destruct (bool_decide _); [apply get_class_no_exit|done]).
Qed.

Lemma steady_pack (self : SentimentDataset) (ind : Z) (v a t l : tensor2) :
  steady (pack self ind v a t l).
Proof.
  unfold pack. destruct (flatten_ts self); [apply steady_ret|].
  destruct (max_pad self); [|apply steady_ret].
  repeat (apply steady_bind; [apply steady_lift, pad_to_no_exit|intros ?]).
  apply steady_ret.
Qed.

Lemma prepare_steps (self : SentimentDataset) (ind : Z) :
  prepare self ind =
    bind (read "vision" ind) (λ vision,
    bind (read "audio" ind) (λ audio,
    bind (read "text" ind) (λ text,
    bind (align self ind vision audio text) (after_align self ind)))).
Proof.
  unfold prepare, after_align. do 3 f_equal.
Qed.

(** With [aligned] unset, or a text row that holds a non-zero entry, the
    cut is a steady step. *)
Lemma steady_align (self : SentimentDataset) (ind : Z) (vision audio text : tensor2) :
  aligned self = false ∨ first_nonzero text ≠ None →
  steady (align self ind vision audio text).
Proof.
  intros Hcase. unfold align. destruct (aligned self).
  - destruct Hcase as [|Hnz]; [done|].
    destruct (first_nonzero text); [apply steady_ret|done].
  - repeat (apply steady_bind; [apply steady_lift, from_first_nonzero_no_exit|intros ?]).
    apply steady_ret.
Qed.

Lemma steady_outcome {A} (m : M A) (w : world) :
  steady m → ∃ o, m w = (o, w) ∧ o ≠ SystemExit.
Proof.
  intros Hm. destruct (Hm w) as [Hw Ho]. destruct (m w) as [o w'].
  cbn in *. subst. by exists o.
Qed.

Lemma bind_assoc_M {A B C} (m : M A) (f : A → M B) (g : B → M C) (w : world) :
  bind (bind m f) g w = bind m (λ a, bind (f a) g) w.
Proof. unfold bind. by destruct (m w) as [[a|e|] w']. Qed.

Lemma bind_at {A B} (m : M A) (f : A → M B) (w : world) (o : outcome A) :
  m w = (o, w) →
  bind m f w =
    match o with
    | Return a => f a w
    | Raise e => (Raise e, w)
    | SystemExit => (SystemExit, w)
    end.
Proof. intros Hm. unfold bind. rewrite Hm. by destruct o. Qed.

(** A retrieval that ends the process found [aligned] set and a text row
    without a non-zero entry. *)
Lemma getitem_exit_inv (self : SentimentDataset) (ind : Z) (w : world) :
  (__getitem__ self ind w).1 = SystemExit →
  aligned self = true ∧
  ∃ vision audio text,
    read "vision" ind w = (Return vision, w) ∧
    read "audio" ind w = (Return audio, w) ∧
    read "text" ind w = (Return text, w) ∧
    all_zero text.
Proof.
  unfold __getitem__. rewrite prepare_steps. intros Hexit.
  destruct (steady_outcome _ w (steady_read "vision" ind)) as (ov & Hv & Hov).
  destruct (steady_outcome _ w (steady_read "audio" ind)) as (oa & Ha & Hoa).
  destruct (steady_outcome _ w (steady_read "text" ind)) as (ot & Ht & Hot).
  rewrite bind_assoc_M in Hexit.
  rewrite (bind_at _ _ w ov Hv) in Hexit.
  destruct ov as [vision|e|]; [|done..].
  rewrite bind_assoc_M in Hexit.
  rewrite (bind_at _ _ w oa Ha) in Hexit.
  destruct oa as [audio|e|]; [|done..].
  rewrite bind_assoc_M in Hexit.
  rewrite (bind_at _ _ w ot Ht) in Hexit.
  destruct ot as [text|e|]; [|done..].
  destruct (aligned self) eqn:Hal, (first_nonzero text) as [start|] eqn:Hstart.
  4: {
    exfalso.
    assert (steady (bind (bind (align self ind vision audio text) (after_align self ind))
                      (λ '(v, a, t, l), pack self ind v a t l))) as Hs.
    { apply steady_bind; [apply steady_bind|].
      - apply steady_align. by left.
      - apply steady_after_align.
      - intros [[[? ?] ?] ?]. apply steady_pack. }
    destruct (Hs w) as [_ Hne]. apply Hne. exact Hexit. }
  3: {
    exfalso.
    assert (steady (bind (bind (align self ind vision audio text) (after_align self ind))
                      (λ '(v, a, t, l), pack self ind v a t l))) as Hs.
    { apply steady_bind; [apply steady_bind|].
      - apply steady_align. by left.
      - apply steady_after_align.
      - intros [[[? ?] ?] ?]. apply steady_pack. }
    destruct (Hs w) as [_ Hne]. apply Hne. exact Hexit. }
  1: {
    exfalso.
    assert (steady (bind (bind (align self ind vision audio text) (after_align self ind))
                      (λ '(v, a, t, l), pack self ind v a t l))) as Hs.
    { apply steady_bind; [apply steady_bind|].
      - apply steady_align. right. by rewrite Hstart.
      - apply steady_after_align.
      - intros [[[? ?] ?] ?]. apply steady_pack. }
    destruct (Hs w) as [_ Hne]. apply Hne. exact Hexit. }
  split; [done|]. exists vision, audio, text.
  repeat split; try done.
  unfold all_zero. by apply (proj1 (first_nonzero_from_None 0 (rows text))).
Qed.

(** X12. [__getitem__] ends the process exactly when [aligned] is set and
    the text row of the sample holds no non-zero entry (the three modality
    rows being there); in every other case it returns or raises without
    printing and leaves the dataset and the output as they were. *)
Theorem getitem_exit_iff (self : SentimentDataset) (ind : Z) (w : world) :
  ((__getitem__ self ind w).1 = SystemExit ↔
     aligned self = true ∧
     ∃ vision audio text,
       read "vision" ind w = (Return vision, w) ∧
       read "audio" ind w = (Return audio, w) ∧
       read "text" ind w = (Return text, w) ∧
       all_zero text) ∧
  ((__getitem__ self ind w).1 ≠ SystemExit → (__getitem__ self ind w).2 = w).
Proof.
  split; [split|].
  - apply getitem_exit_inv.
  - intros (Hal & vision & audio & text & Hv & Ha & Ht & Hzero).
    unfold __getitem__. unfold bind at 1.
    rewrite (getitem_unfold self ind w vision audio text Hv Ha Ht).
    unfold bind at 1. unfold align. rewrite Hal.
    rewrite (all_zero_first_nonzero text Hzero). done.
  - intros Hne. unfold __getitem__ in *. rewrite prepare_steps in *.
    destruct (steady_outcome _ w (steady_read "vision" ind)) as (ov & Hv & Hov).
    destruct (steady_outcome _ w (steady_read "audio" ind)) as (oa & Ha & Hoa).
    destruct (steady_outcome _ w (steady_read "text" ind)) as (ot & Ht & Hot).
    rewrite bind_assoc_M in *.
    rewrite (bind_at _ _ w ov Hv) in *.
    destruct ov as [vision|e|]; [|done..].
    rewrite bind_assoc_M in *.
    rewrite (bind_at _ _ w oa Ha) in *.
    destruct oa as [audio|e|]; [|done..].
    rewrite bind_assoc_M in *.
    rewrite (bind_at _ _ w ot Ht) in *.
    destruct ot as [text|e|]; [|done..].
    destruct (decide (aligned self = true ∧ first_nonzero text = None)) as [[Hal Hz]|Hcase].
    + exfalso. apply Hne. unfold bind, align. rewrite Hal, Hz. done.
    + assert (steady (bind (bind (align self ind vision audio text) (after_align self ind))
                        (λ '(v, a, t, l), pack self ind v a t l))) as Hs.
      { apply steady_bind; [apply steady_bind|].
        - apply steady_align. destruct (aligned self); [right|by left].
          intros Hz. by apply Hcase.
        - apply steady_after_align.
        - intros [[[? ?] ?] ?]. apply steady_pack. }
      by destruct (Hs w).
Qed.

(** X13. After [drop_entry], retrieval never ends the process: in a split
    whose text arrays sum to zero whenever they are zero throughout, no
    index of the filtered split reaches the [exit()] branch, whatever the
    flags. *)
Theorem no_exit_after_drop_entry (d d' : gmap string (list tensor2))
    (text : list tensor2) (self : SentimentDataset) (ind : Z)
    (out : list (tensor2 * Z)) :
  d !! "text" = Some text →
  (∀ k, k ∈ text → all_zero k → zero_sum k = true) →
  drop_entry d = Return d' →
  (__getitem__ self ind (World d' out)).1 ≠ SystemExit.
Proof.
  intros Htext Hzero Hret Hexit.
  apply drop_entry_Return_inv in Hret as (text' & Htext' & ->).
  assert (text' = text) as -> by congruence.
  apply getitem_exit_inv in Hexit as (_ & v & a & t & _ & _ & Ht & Hall).
  unfold read in Ht. cbn [dataset] in Ht.
  rewrite lookup_fmap, Htext in Ht. cbn in Ht.
  injection Ht as Ht. apply py_index_Return_inv in Ht as [Hin _].
  pose proof (delete_from_text 0 [] text) as Hfilter. cbn [app] in Hfilter.
  rewrite Hfilter in Hin by constructor.
  apply list_elem_of_filter in Hin as [Hsum Hin].
  rewrite (Hzero t Hin Hall) in Hsum. done.
Qed.


(** ** What a retrieval that returns went through *)

Lemma read_steps (key : string) (ind : Z) (w : world) :
  read key ind w =
    (match dataset w !! key with
     | Some arr => py_index arr ind
     | None => Raise KeyError
     end, w).
Proof. unfold read. by destruct (dataset w !! key). Qed.

Lemma align_Return_inv (self : SentimentDataset) (ind : Z) (w w' : world)
    (vision audio text : tensor2) (cut : tensor2 * tensor2 * tensor2) :
  align self ind vision audio text w = (Return cut, w') →
  w' = w ∧
  ∃ start_v start_a start,
    first_nonzero text = Some start ∧
    (if aligned self then start_v = start ∧ start_a = start
     else first_nonzero vision = Some start_v ∧ first_nonzero audio = Some start_a) ∧
    cut = (as_float (slice_from start_v vision),
           as_float (slice_from start_a audio),
           as_float (slice_from start text)).
Proof.
  unfold align, from_first_nonzero. destruct (aligned self).
  - destruct (first_nonzero text) as [start|]; [|done].
    intros [= <- <-]. split; [done|]. by exists start, start, start.
  - unfold bind, lift, ret.
    destruct (first_nonzero vision) as [sv|]; [|done].
    destruct (first_nonzero audio) as [sa|]; [|done].
    destruct (first_nonzero text) as [st|]; [|done].
    intros [= <- <-]. split; [done|]. by exists sv, sa, st.
Qed.

(** The steps behind a [prepare] that returns. *)
Lemma prepare_Return_inv (self : SentimentDataset) (ind : Z) (w w' : world)
    (v a t l : tensor2) :
  prepare self ind w = (Return (v, a, t, l), w') →
  w' = w ∧
  ∃ vision audio text cv ca ct tmp_label,
    read "vision" ind w = (Return vision, w) ∧
    read "audio" ind w = (Return audio, w) ∧
    read "text" ind w = (Return text, w) ∧
    align self ind vision audio text w = (Return (cv, ca, ct), w) ∧
    (v, a, t) = (if z_norm self then (z_normalize cv, z_normalize ca, z_normalize ct)
                 else (cv, ca, ct)) ∧
    read "labels" ind w = (Return tmp_label, w) ∧
    (if bool_decide (task self = Some "classification")
     then _get_class tmp_label else Return (as_float tmp_label)) = Return l.
Proof.
  rewrite prepare_steps. intros Hret.
  destruct (steady_outcome _ w (steady_read "vision" ind)) as (ov & Hv & _).
  destruct (steady_outcome _ w (steady_read "audio" ind)) as (oa & Ha & _).
  destruct (steady_outcome _ w (steady_read "text" ind)) as (ot & Ht & _).
  destruct (steady_outcome _ w (steady_read "labels" ind)) as (ol & Hl & _).
  rewrite (bind_at _ _ w ov Hv) in Hret. destruct ov as [vision|e|]; [|done..].
  rewrite (bind_at _ _ w oa Ha) in Hret. destruct oa as [audio|e|]; [|done..].
  rewrite (bind_at _ _ w ot Ht) in Hret. destruct ot as [text|e|]; [|done..].
  unfold bind at 1 in Hret.
  destruct (align self ind vision audio text w) as [[[[cv ca] ct]|e|] w1] eqn:Hal;
    [|done..].
  apply align_Return_inv in Hal as Hw1. destruct Hw1 as [-> _].
  unfold after_align in Hret.
  assert (∃ v0 a0 t0, (v0, a0, t0) =
            (if z_norm self then (z_normalize cv, z_normalize ca, z_normalize ct)
             else (cv, ca, ct)) ∧
            bind (read "labels" ind) (λ tmp_label,
              bind (lift (if bool_decide (task self = Some "classification")
                          then _get_class tmp_label
                          else Return (as_float tmp_label))) (λ label,
              ret (v0, a0, t0, label))) w = (Return (v, a, t, l), w'))
    as (v0 & a0 & t0 & Hnorm & Hrest).
  { destruct (z_norm self); eauto. }
  rewrite (bind_at _ _ w ol Hl) in Hrest. destruct ol as [tmp|e|]; [|done..].
  unfold bind, lift, ret in Hrest.
  destruct (if bool_decide (task self = Some "classification")
            then _get_class tmp else Return (as_float tmp)) as [label|e|] eqn:Hlabel;
    [|done..].
  injection Hrest as <- <- <- <- <-.
  split; [done|]. exists vision, audio, text, cv, ca, ct, tmp.
  repeat split; done.
Qed.

Lemma prepare_with_output (flatten max_pad : bool) (self : SentimentDataset) (ind : Z) :
  prepare (with_output flatten max_pad self) ind = prepare self ind.
Proof. reflexivity. Qed.

(** ** Flattening *)

(** X14. With [flatten_time_series] set, [__getitem__] hands out exactly
    the entries it hands out unflattened and unpadded, each modality in
    row-major order, with the same index and label, and it succeeds for the
    same samples; [max_pad] plays no part. *)
Theorem flatten_carries_same_entries (self : SentimentDataset) (max_pad : bool)
    (ind : Z) (w : world) :
  (∀ s w', __getitem__ (with_output false false self) ind w = (Return (Unpadded s), w') →
     __getitem__ (with_output true max_pad self) ind w =
       (Return (Flat (flatten (vision5 s)) (flatten (audio5 s)) (flatten (text5 s))
                     (ind5 s) (label5 s)), w')) ∧
  (∀ r w', __getitem__ (with_output true max_pad self) ind w = (Return r, w') →
     ∃ s, __getitem__ (with_output false false self) ind w = (Return (Unpadded s), w') ∧
       ind5 s = ind ∧
       r = Flat (flatten (vision5 s)) (flatten (audio5 s)) (flatten (text5 s))
             ind (label5 s)).
Proof.
  unfold __getitem__. rewrite !prepare_with_output. unfold bind.
  destruct (prepare self ind w) as [[[[[v a] t] l]|e|] w1]; split; try done.
  - unfold pack, ret. cbn. by intros s w' [= <- <-].
  - unfold pack, ret. cbn. intros r w' [= <- <-]. by eexists.
Qed.

(** ** Shapes after the cut and after normalisation *)

Lemma size0_as_float_slice (start : nat) (t : tensor2) :
  size0 (as_float (slice_from start t)) = size0 t - start.
Proof. unfold size0. cbn. by rewrite length_fmap, length_drop. Qed.

Lemma length_reduce0 (f : list scalar → scalar) (t : tensor2) :
  length (reduce0 f t) = ncols t.
Proof. unfold reduce0. by rewrite length_fmap, length_seq. Qed.

(** Normalisation changes no shape. *)
Lemma z_normalize_shape (t : tensor2) :
  size0 (z_normalize t) = size0 t ∧
  ncols (z_normalize t) = ncols t ∧
  (rect t → rect (z_normalize t)).
Proof.
  unfold z_normalize, size0, rect. cbn [rows ncols].
  split; [by rewrite length_fmap|]. split; [done|].
  intros Hrect. apply Forall_fmap. eapply Forall_impl; [exact Hrect|].
  intros r Hr. cbn.
  rewrite length_zip_with, length_zip, !length_reduce0, Hr. lia.
Qed.

(** X15. With [aligned] set, modalities that come with the same number of
    frames leave [__getitem__]'s preparation with the same number of frames:
    all three are cut at the first non-zero text frame, at least one frame
    is left, and normalisation does not change the count. *)
Theorem aligned_keeps_frames_aligned (self : SentimentDataset) (ind : Z) (w w' : world)
    (vision audio text v a t l : tensor2) (n : nat) :
  aligned self = true →
  read "vision" ind w = (Return vision, w) →
  read "audio" ind w = (Return audio, w) →
  read "text" ind w = (Return text, w) →
  size0 vision = n → size0 audio = n → size0 text = n →
  prepare self ind w = (Return (v, a, t, l), w') →
  ∃ start, is_first_nonzero text start ∧ start < n ∧
    size0 v = n - start ∧ size0 a = n - start ∧ size0 t = n - start.
Proof.
  intros Hal Hv Ha Ht Hnv Hna Hnt Hprep.
  apply prepare_Return_inv in Hprep
    as (-> & vision' & audio' & text' & cv & ca & ct & tmp & Hv' & Ha' & Ht' &
        Hcut & Hnorm & _).
  assert (vision' = vision) as -> by congruence.
  assert (audio' = audio) as -> by congruence.
  assert (text' = text) as -> by congruence.
  apply align_Return_inv in Hcut as (_ & sv & sa & start & Hstart & Hoff & Hcut).
  rewrite Hal in Hoff. destruct Hoff as [-> ->].
  injection Hcut as -> -> ->.
  exists start. pose proof (first_nonzero_is_first text start Hstart) as Hfirst.
  split; [done|]. split.
  { destruct Hfirst as [(r & Hr & _) _]. apply lookup_lt_Some in Hr.
    unfold size0 in Hnt. lia. }
  pose proof (z_normalize_shape (as_float (slice_from start vision))) as (Hzv & _).
  pose proof (z_normalize_shape (as_float (slice_from start audio))) as (Hza & _).
  pose proof (z_normalize_shape (as_float (slice_from start text))) as (Hzt & _).
  rewrite size0_as_float_slice in Hzv, Hza, Hzt.
  destruct (z_norm self); injection Hnorm as -> -> ->;
    rewrite ?size0_as_float_slice; lia.
Qed.

(** X16. Switching [z_norm] on changes values only: the preparation
    returns for the same samples, each modality is the normalised form of
    what comes out with [z_norm] off, with as many frames and the same
    width, rectangular if it was, and the label is the same. *)
Theorem z_norm_keeps_shape (self : SentimentDataset) (ind : Z) (w w' : world)
    (v a t l : tensor2) :
  prepare (with_z_norm false self) ind w = (Return (v, a, t, l), w') →
  prepare (with_z_norm true self) ind w =
    (Return (z_normalize v, z_normalize a, z_normalize t, l), w') ∧
  Forall (λ x, size0 (z_normalize x) = size0 x ∧ ncols (z_normalize x) = ncols x ∧
               (rect x → rect (z_normalize x))) [v; a; t].
Proof.
  intros Hoff. split.
  - rewrite prepare_steps in *.
    unfold bind in *.
    destruct (read "vision" ind w) as [[vision|e|] w1]; [|done..].
    destruct (read "audio" ind w1) as [[audio|e|] w2]; [|done..].
    destruct (read "text" ind w2) as [[text|e|] w3]; [|done..].
    change (align (with_z_norm true self)) with (align (with_z_norm false self)).
    destruct (align (with_z_norm false self) ind vision audio text w3)
      as [[[[cv ca] ct]|e|] w4]; [|done..].
    unfold after_align in *. cbn [z_norm with_z_norm task] in *.
    unfold bind in *.
    destruct (read "labels" ind w4) as [[tmp|e|] w5]; [|done..].
    unfold lift, ret in *.
    destruct (if bool_decide (task self = Some "classification")
              then _get_class tmp else Return (as_float tmp)) as [label|e|]; [|done..].
    by injection Hoff as <- <- <- <- <-.
  - repeat (apply Forall_cons_2; [apply z_normalize_shape|]). apply Forall_nil_2.
Qed.


(** ** Normalisation, entry by entry *)





(** ** The class label *)

(** X17. With [task == "classification"] the label that leaves the
    preparation is the 1 × 1 tensor holding 1 when the stored label is
    positive and 0 otherwise; the stored label holds exactly one value (any
    other count would have been a [ValueError]), and the result is a label
    both collators accept. *)
Theorem classification_label (self : SentimentDataset) (ind : Z) (w w' : world)
    (v a t l : tensor2) :
  task self = Some "classification" →
  prepare self ind w = (Return (v, a, t, l), w') →
  ∃ tmp_label x,
    read "labels" ind w = (Return tmp_label, w) ∧
    flatten tmp_label = [x] ∧
    l = T2 1 [[of_int (if gt_zero x then 1 else 0)]] ∧
    label_ok l.
Proof.
  intros Htask Hprep.
  apply prepare_Return_inv in Hprep
    as (-> & vision & audio & text & cv & ca & ct & tmp & _ & _ & _ & _ & _ & Hl & Hlabel).
  rewrite bool_decide_eq_true_2 in Hlabel by done.
  unfold _get_class in Hlabel.
  destruct (flatten tmp) as [|x [|? ?]] eqn:Hflat; try done.
  injection Hlabel as <-. exists tmp, x.
  split; [done|]. split; [done|]. split; [done|].
  split; [done|]. split; [cbn; lia|]. by repeat constructor.
Qed.

(** ** Indices and keys *)

Lemma getitem_first_read (self : SentimentDataset) (ind : Z) (w : world) (e : exn) :
  read "vision" ind w = (Raise e, w) → __getitem__ self ind w = (Raise e, w).
Proof.
  intros Hv. unfold __getitem__. rewrite prepare_steps, bind_assoc_M.
  by rewrite (bind_at _ _ w (Raise e) Hv).
Qed.

(** X18. [__getitem__] reads the vision array first: without a ["vision"]
    key it raises [KeyError], and for an index at or past the number of
    vision samples, or below its negative, it raises [IndexError]; in both
    cases nothing is printed and nothing is changed. *)
Theorem getitem_lookup_errors (self : SentimentDataset) (ind : Z) (w : world) :
  (dataset w !! "vision" = None → __getitem__ self ind w = (Raise KeyError, w)) ∧
  (∀ arr, dataset w !! "vision" = Some arr →
     (Z.of_nat (length arr) ≤ ind ∨ ind < - Z.of_nat (length arr))%Z →
     __getitem__ self ind w = (Raise IndexError, w)).
Proof.
  split.
  - intros Hnone. apply getitem_first_read. by rewrite read_steps, Hnone.
  - intros arr Harr Hout. apply getitem_first_read.
    by rewrite read_steps, Harr, py_index_out.
Qed.

Lemma read_wrap (key : string) (ind : Z) (w : world) (n : nat) :
  common_count (dataset w) n →
  (- Z.of_nat n ≤ ind < 0)%Z →
  read key ind w = read key (Z.of_nat n + ind) w.
Proof.
  intros Hcount Hind. rewrite !read_steps.
  destruct (dataset w !! key) as [arr|] eqn:Harr; [|done].
  rewrite <- (Hcount _ _ Harr) in *. by rewrite py_index_wrap.
Qed.

(** The index plays no part in the cut beyond what is printed on exit. *)
Lemma align_outcome_index (self : SentimentDataset) (ind ind' : Z) (w : world)
    (vision audio text : tensor2) :
  (align self ind vision audio text w).1 = (align self ind' vision audio text w).1 ∧
  ((align self ind vision audio text w).1 ≠ SystemExit →
   align self ind vision audio text w = align self ind' vision audio text w).
Proof.
  unfold align. destruct (aligned self); [|done].
  destruct (first_nonzero text); [done|]. split; [done|]. intros Hne. by destruct Hne.
Qed.

(** X19. A negative index counts from the end: in a dataset whose arrays
    all hold [n] samples, preparing index [ind] with [-n <= ind < 0] has the
    outcome of preparing index [n + ind]: the same tensors and label, the
    same exception, or the same exit. *)
Theorem negative_index_wraps (self : SentimentDataset) (ind : Z) (w : world) (n : nat) :
  common_count (dataset w) n →
  (- Z.of_nat n ≤ ind < 0)%Z →
  (prepare self ind w).1 = (prepare self (Z.of_nat n + ind) w).1.
Proof.
  intros Hcount Hind. rewrite !prepare_steps.
  destruct (steady_outcome _ w (steady_read "vision" ind)) as (ov & Hv & _).
  destruct (steady_outcome _ w (steady_read "audio" ind)) as (oa & Ha & _).
  destruct (steady_outcome _ w (steady_read "text" ind)) as (ot & Ht & _).
  pose proof Hv as Hv'. pose proof Ha as Ha'. pose proof Ht as Ht'.
  rewrite (read_wrap "vision" _ _ n Hcount Hind) in Hv'.
  rewrite (read_wrap "audio" _ _ n Hcount Hind) in Ha'.
  rewrite (read_wrap "text" _ _ n Hcount Hind) in Ht'.
  rewrite (bind_at _ _ w ov Hv), (bind_at _ _ w ov Hv').
  destruct ov as [vision|e|]; [|done..].
  rewrite (bind_at _ _ w oa Ha), (bind_at _ _ w oa Ha').
  destruct oa as [audio|e|]; [|done..].
  rewrite (bind_at _ _ w ot Ht), (bind_at _ _ w ot Ht').
  destruct ot as [text|e|]; [|done..].
  destruct (align_outcome_index self ind (Z.of_nat n + ind) w vision audio text)
    as [Hsame Hnoexit].
  unfold bind.
  destruct (align self ind vision audio text w) as [[cut|e|] w1] eqn:Hal.
  - rewrite <- Hnoexit by done.
    apply align_Return_inv in Hal as Hw1. destruct cut as [[cv ca] ct].
    destruct Hw1 as [-> _].
    unfold after_align.
    destruct (z_norm self); unfold bind;
      by rewrite (read_wrap "labels" ind w n Hcount Hind).
  - rewrite <- Hnoexit by done. done.
  - cbn in Hsame.
    destruct (align self (Z.of_nat n + ind) vision audio text w) as [[?|?|] ?]; done.
Qed.

(** ** A negative [max_pad_num] *)

(** X20. With [max_pad] set, [flatten_time_series] unset and a negative
    [max_pad_num], a sample whose preparation returns is refused with a
    [RuntimeError]: cutting to a negative length leaves nothing that can be
    padded to it. *)
Theorem negative_max_pad_num_raises (self : SentimentDataset) (ind : Z) (w w' : world)
    (v a t l : tensor2) :
  flatten_ts self = false → max_pad self = true → (max_pad_num self < 0)%Z →
  prepare self ind w = (Return (v, a, t, l), w') →
  __getitem__ self ind w = (Raise RuntimeError, w').
Proof.
  intros Hflat Hpad Hneg Hprep.
  unfold __getitem__. unfold bind at 1. rewrite Hprep.
  unfold pack. rewrite Hflat, Hpad.
  unfold bind, lift. by rewrite pad_to_negative.
Qed.


(** ** When a retrieval returns *)

Lemma first_nonzero_has_nonzero (t : tensor2) (k : nat) :
  first_nonzero t = Some k → has_nonzero t.
Proof.
  intros Hk. apply first_nonzero_is_first in Hk as [(r & Hr & Hnz) _].
  apply Exists_exists. exists r. split; [|done]. by eapply list_elem_of_lookup_2.
Qed.

Lemma pack_Return (self : SentimentDataset) (ind : Z) (v a t l : tensor2) (w : world) :
  (∃ r, pack self ind v a t l w = (Return r, w)) ↔
  (flatten_ts self = true ∨ max_pad self = false ∨ (0 ≤ max_pad_num self)%Z).
Proof.
  unfold pack. destruct (flatten_ts self); [by split; eauto|].
  destruct (max_pad self); [|by split; eauto].
  destruct (decide (0 ≤ max_pad_num self)%Z) as [Hn|Hn].
  - rewrite !pad_to_fixed_length by done. split; eauto.
  - unfold bind, lift. rewrite pad_to_negative by lia.
    split; [by intros [r ?]|]. intros [?|[?|?]]; done.
Qed.

(** X21. [__getitem__] returns exactly when: the sample is there in all
    four arrays; the text row holds a non-zero entry, and with [aligned]
    unset so do the vision and the audio row; for the classification task
    the stored label holds exactly one value; and the padding length is not
    negative where it is used. *)
Theorem getitem_returns_iff (self : SentimentDataset) (ind : Z) (w : world) :
  (∃ r w', __getitem__ self ind w = (Return r, w')) ↔
  ∃ vision audio text tmp_label,
    read "vision" ind w = (Return vision, w) ∧
    read "audio" ind w = (Return audio, w) ∧
    read "text" ind w = (Return text, w) ∧
    read "labels" ind w = (Return tmp_label, w) ∧
    has_nonzero text ∧
    (aligned self = false → has_nonzero vision ∧ has_nonzero audio) ∧
    (task self = Some "classification" → ∃ x, flatten tmp_label = [x]) ∧
    (flatten_ts self = true ∨ max_pad self = false ∨ (0 ≤ max_pad_num self)%Z).
Proof.
  split.
  - intros (r & w' & Hret). unfold __getitem__ in Hret. unfold bind at 1 in Hret.
    destruct (prepare self ind w) as [[[[[v a] t] l]|e|] w1] eqn:Hprep; [|done..].
    apply prepare_Return_inv in Hprep
      as (-> & vision & audio & text & cv & ca & ct & tmp & Hv & Ha & Ht &
          Hcut & _ & Hl & Hlabel).
    exists vision, audio, text, tmp.
    apply align_Return_inv in Hcut as (_ & sv & sa & st & Hst & Hoff & _).
    do 4 (split; [done|]).
    split; [by eapply first_nonzero_has_nonzero|].
    split; [|split].
    + intros Hal. rewrite Hal in Hoff. destruct Hoff.
      split; by eapply first_nonzero_has_nonzero.
    + intros Htask. rewrite bool_decide_eq_true_2 in Hlabel by done.
      unfold _get_class in Hlabel.
      destruct (flatten tmp) as [|x [|? ?]]; try done. by exists x.
    + apply (pack_Return self ind v a t l w).
      exists r. destruct (pack self ind v a t l w) as [o w2] eqn:Hpack.
      destruct (steady_pack self ind v a t l w) as [Hw2 _].
      rewrite Hpack in Hw2. cbn in Hw2. subst. by injection Hret as -> _.
  - intros (vision & audio & text & tmp & Hv & Ha & Ht & Hl & Hnz & Hun & Hcls & Hpad).
    destruct (has_nonzero_first text Hnz) as (st & Hst & _).
    assert (∃ cut, align self ind vision audio text w = (Return cut, w)) as [cut Hcut].
    { unfold align, from_first_nonzero. destruct (aligned self).
      - rewrite Hst. eauto.
      - destruct Hun as [Hnv Hna]; [done|].
        destruct (has_nonzero_first vision Hnv) as (sv & Hsv & _).
        destruct (has_nonzero_first audio Hna) as (sa & Hsa & _).
        unfold bind, lift, ret. rewrite Hsv, Hsa, Hst. eauto. }
    assert (∃ l, (if bool_decide (task self = Some "classification")
                  then _get_class tmp else Return (as_float tmp)) = Return l)
      as [l Hlabel].
    { case_bool_decide as Htask; [|eauto].
      destruct (Hcls Htask) as [x Hx]. unfold _get_class. rewrite Hx. eauto. }
    assert (∃ v a t, prepare self ind w = (Return (v, a, t, l), w)) as (v & a & t & Hprep).
    { rewrite prepare_steps.
      rewrite (bind_at _ _ w _ Hv), (bind_at _ _ w _ Ha), (bind_at _ _ w _ Ht).
      rewrite (bind_at _ _ w _ Hcut). destruct cut as [[cv ca] ct].
      unfold after_align.
      destruct (z_norm self);
        rewrite (bind_at _ _ w _ Hl); unfold bind, lift, ret; rewrite Hlabel; eauto. }
    apply (pack_Return self ind v a t l w) in Hpad as [r Hr].
    exists r, w. unfold __getitem__. unfold bind at 1. by rewrite Hprep.
Qed.

(** ** The constructor *)

Lemma clean_neg_inf_twice (t : tensor2) :
  is_neg_inf zero = false → clean_neg_inf (clean_neg_inf t) = clean_neg_inf t.
Proof.
  intros Hzero. unfold clean_neg_inf, map2. cbn. f_equal.
  rewrite <- list_fmap_compose. apply list_fmap_ext. intros i r _. cbn.
  rewrite <- list_fmap_compose. apply list_fmap_ext. intros j x _. cbn.
  destruct (is_neg_inf x) eqn:Hx; [by rewrite Hzero|by rewrite Hx].
Qed.

(** X22. After [__init__] no audio entry equals negative infinity, every
    audio sample has the frames and width it had, and a second construction
    over the same dictionary changes nothing (zero not being negative
    infinity). *)
Theorem init_cleans_audio_for_good (flatten_time_series aligned : bool)
    (task : option string) (max_pad : bool) (max_pad_num : Z) (data_type : string)
    (z_norm : bool) (w w' : world) (self : SentimentDataset) :
  is_neg_inf zero = false →
  __init__ flatten_time_series aligned task max_pad max_pad_num data_type z_norm w
    = (Return self, w') →
  (∃ audio audio', dataset w !! "audio" = Some audio ∧ dataset w' !! "audio" = Some audio' ∧
     Forall (λ t, Forall (Forall (λ x, is_neg_inf x = false)) (rows t)) audio' ∧
     Forall2 (λ t t', ncols t' = ncols t ∧
                      Forall2 (λ r r', length r' = length r) (rows t) (rows t'))
             audio audio') ∧
  (∀ flatten_time_series' aligned' task' max_pad' max_pad_num' data_type' z_norm',
     (__init__ flatten_time_series' aligned' task' max_pad' max_pad_num' data_type'
        z_norm' w').2 = w').
Proof.
  intros Hzero. unfold __init__.
  destruct (dataset w !! "audio") as [audio|] eqn:Haudio; [|done].
  intros [= <- <-]. cbn [dataset stdout]. split.
  - exists audio, (clean_neg_inf <$> audio).
    split; [done|]. split; [by rewrite lookup_insert_eq|]. split.
    + apply Forall_fmap, Forall_forall. intros t _. cbn.
      apply Forall_fmap, Forall_forall. intros r _. cbn.
      apply Forall_fmap, Forall_forall. intros x _. cbn.
      destruct (is_neg_inf x) eqn:Hx; done.
    + apply Forall2_fmap_r, Forall_Forall2_diag, Forall_forall. intros t _.
      split; [done|]. cbn.
      apply Forall2_fmap_r, Forall_Forall2_diag, Forall_forall. intros r _.
      cbn. apply length_map.
  - intros f' al' tk' mp' n' dt' zn'.
    rewrite lookup_insert_eq. cbn. f_equal.
    rewrite insert_insert_eq. f_equal.
    rewrite <- list_fmap_compose. apply list_fmap_ext. intros i t _. cbn.
    by apply clean_neg_inf_twice.
Qed.

(** ** The three splits *)

Lemma drop_entry_no_exit (d : gmap string (list tensor2)) : drop_entry d ≠ SystemExit.
Proof.
  unfold drop_entry. destruct (d !! "text") as [text|]; [|done].
  generalize (map_to_list d).*1. intros keys.
  assert (∀ acc, acc ≠ SystemExit →
            foldl (drop_step (zero_sum_indices 0 text)) acc keys ≠ SystemExit) as Hloop.
  { induction keys as [|k keys IH]; intros acc Hacc; [done|].
    cbn [foldl]. apply IH. unfold drop_step. destruct acc as [d0|e|]; [|done..].
    cbn. destruct (d0 !! k) as [arr|]; [|done].
    by destruct (np_delete_cases arr (zero_sum_indices 0 text)) as [-> | ->]. }
  by apply Hloop.
Qed.

Lemma drop_split_Return_inv (split : string)
    (alldata alldata' : gmap string (gmap string (list tensor2))) :
  drop_split split alldata = Return alldata' →
  ∃ d d', alldata !! split = Some d ∧ drop_entry d = Return d' ∧
    alldata' = <[split := d']> alldata.
Proof.
  unfold drop_split. destruct (alldata !! split) as [d|]; [|done].
  intros Hret. apply bind_Return_inv in Hret as (d' & Hd' & Hret).
  injection Hret as <-. by exists d, d'.
Qed.

(** X23. When the three filters at the head of [get_dataloader] return,
    each of the splits train, valid and test has been replaced by what
    [drop_entry] returns for it and every other entry of the file is
    untouched; when one of the three splits is missing they raise. *)
Theorem drop_all_splits_outcome (alldata : gmap string (gmap string (list tensor2))) :
  (∀ alldata', drop_all_splits alldata = Return alldata' →
     (∀ split, split ∈ ["train"; "valid"; "test"] →
        ∃ d d', alldata !! split = Some d ∧ drop_entry d = Return d' ∧
                alldata' !! split = Some d') ∧
     (∀ key, key ∉ ["train"; "valid"; "test"] → alldata' !! key = alldata !! key)) ∧
  (∀ split, split ∈ ["train"; "valid"; "test"] → alldata !! split = None →
     ∃ e, drop_all_splits alldata = Raise e).
Proof.
  split.
  - intros alldata' Hret. unfold drop_all_splits in Hret.
    apply bind_Return_inv in Hret as (a1 & H1 & Hret).
    apply bind_Return_inv in Hret as (a2 & H2 & H3).
    apply drop_split_Return_inv in H1 as (d1 & d1' & Hd1 & Hr1 & ->).
    apply drop_split_Return_inv in H2 as (d2 & d2' & Hd2 & Hr2 & ->).
    apply drop_split_Return_inv in H3 as (d3 & d3' & Hd3 & Hr3 & ->).
    rewrite lookup_insert_ne in Hd2 by done.
    rewrite !lookup_insert_ne in Hd3 by done.
    split.
    + intros split Hsplit.
      repeat (apply elem_of_cons in Hsplit as [->|Hsplit]).
      * exists d1, d1'. by rewrite !lookup_insert_ne, lookup_insert_eq by done.
      * exists d2, d2'. by rewrite lookup_insert_ne, lookup_insert_eq by done.
      * exists d3, d3'. by rewrite lookup_insert_eq.
      * by apply elem_of_nil in Hsplit.
    + intros key Hkey.
      rewrite !lookup_insert_ne; [done|..]; intros <-; apply Hkey;
        repeat constructor.
  - intros split Hsplit Hnone.
    destruct (drop_all_splits alldata) as [alldata'|e|] eqn:Hret; [|eauto|].
    + exfalso. unfold drop_all_splits in Hret.
      apply bind_Return_inv in Hret as (a1 & H1 & Hret).
      apply bind_Return_inv in Hret as (a2 & H2 & H3).
      apply drop_split_Return_inv in H1 as (d1 & d1' & Hd1 & Hr1 & ->).
      apply drop_split_Return_inv in H2 as (d2 & d2' & Hd2 & Hr2 & ->).
      apply drop_split_Return_inv in H3 as (d3 & d3' & Hd3 & Hr3 & ->).
      rewrite lookup_insert_ne in Hd2 by done.
      rewrite !lookup_insert_ne in Hd3 by done.
      repeat (apply elem_of_cons in Hsplit as [->|Hsplit]); try congruence.
      by apply elem_of_nil in Hsplit.
    + exfalso. unfold drop_all_splits, drop_split in Hret.
      destruct (alldata !! "train") as [d1|]; [|done]. cbn in Hret.
      pose proof (drop_entry_no_exit d1) as Hn1.
      destruct (drop_entry d1) as [d1'|e|]; [|done..]. cbn in Hret.
      rewrite lookup_insert_ne in Hret by done.
      destruct (alldata !! "valid") as [d2|]; [|done]. cbn in Hret.
      pose proof (drop_entry_no_exit d2) as Hn2.
      destruct (drop_entry d2) as [d2'|e|]; [|done..]. cbn in Hret.
      rewrite !lookup_insert_ne in Hret by done.
      destruct (alldata !! "test") as [d3|]; [|done]. cbn in Hret.
      pose proof (drop_entry_no_exit d3) as Hn3.
      destruct (drop_entry d3) as [d3'|e|]; done.
Qed.


(** ** [get_dataloader] *)

Lemma make_loader_Return_inv (split : gmap string (list tensor2))
    (flatten_time_series : bool) (task : option string) (max_pad : bool)
    (max_seq_len : Z) (data_type : string) (z_norm shuffle : bool)
    (num_workers batch_size : Z) (process : collator) (ld : loader) :
  make_loader split flatten_time_series task max_pad max_seq_len data_type z_norm
    shuffle num_workers batch_size process = Return ld →
  ∃ audio, split !! "audio" = Some audio ∧
    ld = {| ld_self := {| flatten_ts := flatten_time_series; aligned := true;
                          task := task; max_pad := max_pad; max_pad_num := max_seq_len;
                          data_type := data_type; z_norm := z_norm |};
            ld_data := <["audio" := clean_neg_inf <$> audio]> split;
            ld_shuffle := shuffle; ld_num_workers := num_workers;
            ld_batch_size := batch_size; ld_collate_fn := process |}.
Proof.
  unfold make_loader, __init__. cbn [dataset stdout].
  destruct (split !! "audio") as [audio|]; [|done].
  intros Hret. apply bind_Return_inv in Hret as (_ & _ & [= <-]). by exists audio.
Qed.

(** A dataset whose text arrays all hold a non-zero entry never sends a
    retrieval to [exit()]. *)
Lemma no_exit_when_text_nonzero (self : SentimentDataset) (ind : Z) (w : world)
    (text : list tensor2) :
  dataset w !! "text" = Some text →
  Forall (λ k, ¬ all_zero k) text →
  (__getitem__ self ind w).1 ≠ SystemExit.
Proof.
  intros Htext Hall Hexit.
  apply getitem_exit_inv in Hexit as (_ & v & a & t & _ & _ & Ht & Hzero).
  rewrite read_steps, Htext in Ht. injection Ht as Ht.
  apply py_index_Return_inv in Ht as [Hin _].
  rewrite Forall_forall in Hall. by apply (Hall t).
Qed.

(** X24. The three loaders of [get_dataloader] for mosi or mosei.  Each
    serves its split as [drop_entry] returns it, with the audio entries equal
    to negative infinity zeroed, through a dataset object with [aligned] set
    and [max_pad_num = max_seq_len]; only the train loader may shuffle; all
    three use [_process_2] when [max_pad] is set and [_process_1] otherwise.
    And when the text arrays of the file sum to zero wherever they are zero
    throughout, no retrieval through these loaders ends the process. *)
Theorem get_dataloader_loaders (alldata : gmap string (gmap string (list tensor2)))
    (batch_size max_seq_len : Z) (max_pad train_shuffle : bool) (num_workers : Z)
    (flatten_time_series : bool) (task : option string) (data_type : string)
    (z_norm : bool) (result : loaders) :
  data_type ∈ ["mosi"; "mosei"] →
  get_dataloader (AffectData alldata) batch_size max_seq_len max_pad train_shuffle
    num_workers flatten_time_series task data_type z_norm = Return result →
  ∃ train valid test, result = Affect train valid test ∧
    ∀ name ld shuffle,
      (name, ld, shuffle) ∈
        [("train", train, train_shuffle); ("valid", valid, false); ("test", test, false)] →
      ∃ d d' audio text,
        alldata !! name = Some d ∧ drop_entry d = Return d' ∧
        d' !! "audio" = Some audio ∧ d !! "text" = Some text ∧
        ld = {| ld_self := {| flatten_ts := flatten_time_series; aligned := true;
                              task := task; max_pad := max_pad;
                              max_pad_num := max_seq_len; data_type := data_type;
                              z_norm := z_norm |};
                ld_data := <["audio" := clean_neg_inf <$> audio]> d';
                ld_shuffle := shuffle; ld_num_workers := num_workers;
                ld_batch_size := batch_size;
                ld_collate_fn := if max_pad then process_2 else process_1 |} ∧
        ((∀ k, k ∈ text → all_zero k → zero_sum k = true) →
         ∀ ind out, (__getitem__ (ld_self ld) ind (World (ld_data ld) out)).1 ≠ SystemExit).
Proof.
  intros Htype Hret. unfold get_dataloader in Hret.
  rewrite bool_decide_eq_true_2 in Hret by done.
  apply bind_Return_inv in Hret as (a & Hdrop & Hret).
  unfold drop_all_splits in Hdrop.
  apply bind_Return_inv in Hdrop as (a1 & H1 & Hdrop).
  apply bind_Return_inv in Hdrop as (a2 & H2 & H3).
  apply drop_split_Return_inv in H1 as (d1 & d1' & Hd1 & Hr1 & ->).
  apply drop_split_Return_inv in H2 as (d2 & d2' & Hd2 & Hr2 & ->).
  apply drop_split_Return_inv in H3 as (d3 & d3' & Hd3 & Hr3 & ->).
  rewrite lookup_insert_ne in Hd2 by done.
  rewrite !lookup_insert_ne in Hd3 by done.
  unfold py_get in Hret.
  rewrite !(lookup_union_l' _ _ "train") in Hret
    by (by rewrite !lookup_insert_ne, lookup_insert_eq by done).
  rewrite !lookup_insert_ne, lookup_insert_eq in Hret by done. cbn in Hret.
  apply bind_Return_inv in Hret as (train & Htrain & Hret).
  rewrite !(lookup_union_l' _ _ "valid") in Hret
    by (by rewrite lookup_insert_ne, lookup_insert_eq by done).
  rewrite lookup_insert_ne, lookup_insert_eq in Hret by done. cbn in Hret.
  apply bind_Return_inv in Hret as (valid & Hvalid & Hret).
  rewrite !(lookup_union_l' _ _ "test") in Hret by (by rewrite lookup_insert_eq).
  rewrite lookup_insert_eq in Hret. cbn in Hret.
  apply bind_Return_inv in Hret as (test & Htest & Hret).
  injection Hret as <-.
  apply make_loader_Return_inv in Htrain as (au1 & Hau1 & ->).
  apply make_loader_Return_inv in Hvalid as (au2 & Hau2 & ->).
  apply make_loader_Return_inv in Htest as (au3 & Hau3 & ->).
  do 3 eexists. split; [done|].
  assert (∀ d d' audio text self ind out,
            d !! "text" = Some text → drop_entry d = Return d' →
            (∀ k, k ∈ text → all_zero k → zero_sum k = true) →
            (__getitem__ self ind
               (World (<["audio" := clean_neg_inf <$> audio]> d') out)).1 ≠ SystemExit)
    as Hsafe.
  { intros d d' audio text self ind out Htext Hr Hzero.
    apply drop_entry_Return_inv in Hr as (text' & Htext' & ->).
    assert (text' = text) as -> by congruence.
    apply (no_exit_when_text_nonzero _ _ _ (filter (λ k, zero_sum k = false) text)).
    - cbn. rewrite lookup_insert_ne, lookup_fmap, Htext by done. cbn. f_equal.
      apply (delete_from_text 0 []). constructor.
    - apply Forall_forall. intros k [Hsum Hk]%list_elem_of_filter Hall.
      rewrite (Hzero k Hk Hall) in Hsum. done. }
  intros name ld shuffle Hin.
  repeat (apply elem_of_cons in Hin as [[= -> -> ->]|Hin]).
  - destruct (drop_entry_Return_inv _ _ Hr1) as (text & Htext & _).
    exists d1, d1', au1, text. repeat split; try done. intros Hzero ind out.
    by eapply Hsafe.
  - destruct (drop_entry_Return_inv _ _ Hr2) as (text & Htext & _).
    exists d2, d2', au2, text. repeat split; try done. intros Hzero ind out.
    by eapply Hsafe.
  - destruct (drop_entry_Return_inv _ _ Hr3) as (text & Htext & _).
    exists d3, d3', au3, text. repeat split; try done. intros Hzero ind out.
    by eapply Hsafe.
  - by apply elem_of_nil in Hin.
Qed.

(** X25. The other branches of [get_dataloader].  For a [data_type] that
    is none of mosi, mosei and meld it returns [None], whatever the file and
    the other arguments.  For meld, a file without records is an
    [IndexError]; with records, a batch size that is not positive is
    refused by the loader's constructor with a [ValueError], and for a
    positive one a single loader is returned, over a [MeldDataset] that
    holds every record of the file under its key, with that batch size. *)
Theorem get_dataloader_other_branches (file : pickled)
    (batch_size max_seq_len : Z) (max_pad train_shuffle : bool) (num_workers : Z)
    (flatten_time_series : bool) (task : option string) (data_type : string)
    (z_norm : bool) :
  (data_type ∉ ["mosi"; "mosei"; "meld"] →
   get_dataloader file batch_size max_seq_len max_pad train_shuffle num_workers
     flatten_time_series task data_type z_norm = Return NoLoaders) ∧
  (∀ raw_data, file = MeldData raw_data → data_type = "meld" →
   (raw_data = [] →
    get_dataloader file batch_size max_seq_len max_pad train_shuffle num_workers
      flatten_time_series task data_type z_norm = Raise IndexError) ∧
   (raw_data ≠ [] → (batch_size ≤ 0)%Z →
    get_dataloader file batch_size max_seq_len max_pad train_shuffle num_workers
      flatten_time_series task data_type z_norm = Raise ValueError) ∧
   (raw_data ≠ [] → (0 < batch_size)%Z →
    ∃ dataset,
      get_dataloader file batch_size max_seq_len max_pad train_shuffle num_workers
        flatten_time_series task data_type z_norm = Return (Meld dataset batch_size) ∧
      meld_data dataset = with_id <$> raw_data ∧
      MeldDataset_len dataset = length raw_data)).
Proof.
  split.
  - intros Htype. unfold get_dataloader.
    rewrite bool_decide_eq_false_2.
    + rewrite bool_decide_eq_false_2; [done|].
      intros ->. apply Htype. repeat constructor.
    + intros Hin. apply Htype.
      repeat (apply elem_of_cons in Hin as [->|Hin]); [repeat constructor..|].
      by apply elem_of_nil in Hin.
  - intros raw_data -> ->. unfold get_dataloader.
    rewrite bool_decide_eq_false_2.
    2: { intros Hin. repeat (apply elem_of_cons in Hin as [?|Hin]); try done.
         by apply elem_of_nil in Hin. }
    rewrite bool_decide_eq_true_2 by done.
    split; [by intros ->|].
    split.
    + intros Hne Hsize. destruct raw_data as [|e0 rest]; [done|].
      cbn. unfold DataLoader_init. cbn.
      by replace (batch_size <=? 0)%Z with true by (symmetry; apply Z.leb_le; lia).
    + intros Hne Hsize. destruct raw_data as [|e0 rest]; [done|].
      cbn. unfold DataLoader_init. cbn.
      replace (batch_size <=? 0)%Z with false by (symmetry; apply Z.leb_gt; lia).
      eexists. split; [reflexivity|]. cbn. by rewrite length_fmap.
Qed.


Lemma make_loader_Return (split : gmap string (list tensor2)) (audio : list tensor2)
    (flatten_time_series : bool) (task : option string) (max_pad : bool)
    (max_seq_len : Z) (data_type : string) (z_norm shuffle : bool)
    (num_workers batch_size : Z) (process : collator) :
  split !! "audio" = Some audio →
  (0 ≤ num_workers)%Z → (0 < batch_size)%Z →
  (shuffle = true → ∃ x vision, split !! "vision" = Some (x :: vision)) →
  make_loader split flatten_time_series task max_pad max_seq_len data_type z_norm
    shuffle num_workers batch_size process =
  Return {| ld_self := {| flatten_ts := flatten_time_series; aligned := true;
                          task := task; max_pad := max_pad; max_pad_num := max_seq_len;
                          data_type := data_type; z_norm := z_norm |};
            ld_data := <["audio" := clean_neg_inf <$> audio]> split;
            ld_shuffle := shuffle; ld_num_workers := num_workers;
            ld_batch_size := batch_size; ld_collate_fn := process |}.
Proof.
  intros Haudio Hworkers Hsize Hlen. unfold make_loader, __init__. cbn [dataset stdout].
  rewrite Haudio. unfold DataLoader_init, __len__. cbn [dataset].
  replace (num_workers <? 0)%Z with false by (symmetry; apply Z.ltb_ge; lia).
  replace (batch_size <=? 0)%Z with false by (symmetry; apply Z.leb_gt; lia).
  destruct shuffle; [|done].
  destruct (Hlen eq_refl) as (x & vision & Hvision).
  rewrite lookup_insert_ne, Hvision by done. done.
Qed.

(** [get_dataloader] returns its three loaders once each split is there,
    passes [drop_entry] and still has its audio array. *)
Lemma get_dataloader_Return (alldata : gmap string (gmap string (list tensor2)))
    (batch_size max_seq_len : Z) (max_pad train_shuffle : bool) (num_workers : Z)
    (flatten_time_series : bool) (task : option string) (data_type : string)
    (z_norm : bool)
    (train valid test train' valid' test' : gmap string (list tensor2))
    (audio1 audio2 audio3 : list tensor2) :
  data_type ∈ ["mosi"; "mosei"] →
  alldata !! "train" = Some train →
  alldata !! "valid" = Some valid →
  alldata !! "test" = Some test →
  drop_entry train = Return train' →
  drop_entry valid = Return valid' →
  drop_entry test = Return test' →
  train' !! "audio" = Some audio1 →
  valid' !! "audio" = Some audio2 →
  test' !! "audio" = Some audio3 →
  (0 ≤ num_workers)%Z → (0 < batch_size)%Z →
  (train_shuffle = true → ∃ x vision, train' !! "vision" = Some (x :: vision)) →
  ∃ result,
    get_dataloader (AffectData alldata) batch_size max_seq_len max_pad train_shuffle
      num_workers flatten_time_series task data_type z_norm = Return result.
Proof.
  intros Htype Htrain Hvalid Htest Htrain' Hvalid' Htest' Ha1 Ha2 Ha3 Hworkers Hsize Hlen.
  unfold get_dataloader. rewrite bool_decide_eq_true_2 by done.
  rewrite (drop_all_splits_Return alldata train valid test train' valid' test') by done.
  cbn [mbind outcome_bind]. unfold py_get.
  rewrite !(lookup_union_l' _ _ "train")
    by (by rewrite !lookup_insert_ne, lookup_insert_eq by done).
  rewrite !lookup_insert_ne, lookup_insert_eq by done. cbn [mbind outcome_bind].
  rewrite (make_loader_Return train' audio1) by done. cbn [mbind outcome_bind].
  rewrite !(lookup_union_l' _ _ "valid")
    by (by rewrite lookup_insert_ne, lookup_insert_eq by done).
  rewrite lookup_insert_ne, lookup_insert_eq by done. cbn [mbind outcome_bind].
  rewrite (make_loader_Return valid' audio2) by done. cbn [mbind outcome_bind].
  rewrite !(lookup_union_l' _ _ "test") by (by rewrite lookup_insert_eq).
  rewrite lookup_insert_eq. cbn [mbind outcome_bind].
  rewrite (make_loader_Return test' audio3) by done. cbn [mbind outcome_bind].
  by eexists.
Qed.

(** X26. [__len__] after [drop_entry]: in a split whose arrays all hold one
    sample per text array, the filtered split reports as its length the
    number of text arrays whose sum is not zero, and that is the number of
    samples every one of its arrays holds. *)
Theorem len_after_drop_entry (d : gmap string (list tensor2))
    (text vision : list tensor2) (n : nat) :
  d !! "text" = Some text →
  d !! "vision" = Some vision →
  common_count d n →
  ∃ d', drop_entry d = Return d' ∧
    (∀ out, __len__ (World d' out) =
              Return (length (filter (λ k, zero_sum k = false) text))) ∧
    common_count d' (length (filter (λ k, zero_sum k = false) text)).
Proof.
  intros Htext Hvision Hcount.
  destruct (drop_entry_selects d text n Htext Hcount)
    as (d' & text' & Hret & Hsel & Htext' & ->).
  assert (length text = n) as Hn by (by eapply Hcount).
  assert (common_count d' (length (filter (λ k, zero_sum k = false) text))) as Hcount'.
  { intros key arr' Harr'. rewrite Hsel in Harr'.
    destruct (d !! key) as [arr|] eqn:Harr; [|done].
    injection Harr' as <-.
    pose proof (length_select_kept text arr) as Hlen.
    rewrite (Hcount _ _ Harr), Hn in Hlen. specialize (Hlen eq_refl).
    pose proof (length_filter_split zero_sum text) as Hsplit. lia. }
  exists d'. split; [done|]. split; [|done].
  intros out. unfold __len__. cbn [dataset].
  rewrite Hsel, Hvision. cbn. f_equal.
  apply (Hcount' "vision"). by rewrite Hsel, Hvision.
Qed.


End Facts.

(** * The loader on concrete data *)

Section Concrete.
Import Float64 Examples.

Lemma batch5_unpadded : unpadded_batch batch5.
Proof.
  split.
  - intros i Hi. destruct i as [|[|[|?]]]; [..|lia]; eexists; repeat constructor.
  - repeat constructor.
Qed.

Lemma batch4_padded : padded_batch batch4.
Proof.
  split.
  - intros i Hi. destruct i as [|[|[|?]]]; [..|lia]; do 2 eexists; repeat constructor.
  - repeat constructor.
Qed.


(** The batch of C1's witness, evaluated. *)
Example process_1_batch5 :
  _process_1 batch5 =
    Return ([ T3 3 2 [ [[1; 5]; [3; 5]; [5; 5]]; [[1; 5]; [0; 0]; [0; 0]] ]%float;
              T3 2 1 [ [[1]; [0]]; [[1]; [4]] ]%float;
              T3 2 1 [ [[1]; [2]]; [[2]; [0]] ]%float ],
            [[3; 1]; [1; 2]; [2; 1]],
            [[7%Z]; [8%Z]],
            [[1]; [9]]%float).
Proof. reflexivity. Qed.

(** C8 as written fails on a label with two rows of two values: what is
    collected is the first row of the label, [1, 2], where the first row of
    the transpose is [1, 3]; and neither collator returns a label column for
    it. *)
Lemma square_label_not_transposed :
  1 < ncols square_label ∧
  collect_label square_label = Return (Row [1; 2]%float) ∧
  row0 (transpose square_label) = Return [1; 3]%float ∧
  collect_label square_label ≠ Row <$> row0 (transpose square_label) ∧
  _process_1 square_batch5 = Raise ValueError ∧
  _process_2 square_batch4 = Raise ValueError.
Proof.
  split; [cbn; lia|]. split; [reflexivity|]. split; [reflexivity|].
  split; [|split; reflexivity].
  intros Heq. apply (f_equal (holds 2)) in Heq. discriminate Heq.
Qed.

(** C8, amended, on [batch5] and [batch4]. *)
Lemma collators_label_column_witness :
  Forall (λ s, label_rule (label5 s)) batch5 ∧
  Forall (λ s, label_rule (label4 s)) batch4 ∧
  (∃ padded lengths inds,
     _process_1 batch5 =
       Return (padded, lengths, inds, (λ s, [label_entry (label5 s)]) <$> batch5)) ∧
  (∃ v a t,
     _process_2 batch4 =
       Return (v, a, t, (λ s, [label_entry (label4 s)]) <$> batch4)).
Proof.
  apply (collators_label_column batch5 batch4).
  - discriminate.
  - exact batch5_unpadded.
  - discriminate.
  - exact batch4_padded.
Defined.

(** A label of shape [(1, 3)] comes out as its first value. *)
Example label_1_3 :
  collect_label (T2 3 [[1; 2; 3]]%float) = Return (Row [1]%float) ∧
  row0 (transpose (T2 3 [[1; 2; 3]]%float)) = Return [1]%float ∧
  _process_2 batch4 =
    Return (T3 2 2 [ [[1; 5]; [3; 5]]; [[1; 5]; [0; 0]] ]%float,
            T3 2 1 [ [[1]; [0]]; [[1]; [4]] ]%float,
            T3 2 1 [ [[1]; [2]]; [[2]; [0]] ]%float,
            [[1]; [9]]%float).
Proof. repeat split. Qed.

(** ** Retrieval *)

(** Sample 0 with [aligned] set: the text row starts at frame 1, and all
    three modalities are cut there. *)
Example getitem_aligned_sample0 :
  __getitem__ (config false true false 50) 0 world0 =
    (Return (Unpadded (Sample5 (T2 2 [[1; 2]; [3; 4]]%float)
                               (T2 1 [[neg_infinity]; [9]]%float)
                               (T2 1 [[5]; [6]]%float) 0
                               (T2 1 [[2]]%float))), world0).
Proof. reflexivity. Qed.

(** C2 as written fails.  With [max_pad] set the label keeps its one row
    for [max_pad_num = 3] and for [max_pad_num = 0], where the modalities
    have three frames and none; and with [flatten_time_series] set as well
    nothing is cut or padded: vision comes back as its four entries. *)
Lemma max_pad_leaves_label :
  (∃ s, (__getitem__ (config false true true 3) 0 world0).1 = Return (Padded s) ∧
        size0 (vision4 s) = 3 ∧ size0 (label4 s) = 1) ∧
  (∃ s, (__getitem__ (config false true true 0) 0 world0).1 = Return (Padded s) ∧
        size0 (vision4 s) = 0 ∧ size0 (label4 s) = 1) ∧
  (∃ v a t l, (__getitem__ (config true true true 3) 0 world0).1 = Return (Flat v a t 0 l) ∧
        length v = 4).
Proof.
  split; [|split].
  - eexists. split; [reflexivity|]. split; reflexivity.
  - eexists. split; [reflexivity|]. split; reflexivity.
  - do 4 eexists. split; reflexivity.
Qed.

(** C2, amended, on sample 0 with [max_pad_num = 4]. *)
Lemma max_pad_fixes_length_witness :
  ∃ s, __getitem__ (config false true true 4) 0 world0 = (Return (Padded s), world0) ∧
    fixed_sample 4 s ∧ label4 s = T2 1 [[2]]%float ∧
    rows (vision4 s) = [[1; 2]; [3; 4]; [0; 0]; [0; 0]]%float ∧
    rows (audio4 s) = [[neg_infinity]; [9]; [0]; [0]]%float ∧
    rows (text4 s) = [[5]; [6]; [0]; [0]]%float ∧
    size0 (vision4 s) = 4 ∧ size0 (audio4 s) = 4 ∧ size0 (text4 s) = 4.
Proof.
  refine (proj1 (max_pad_fixes_length (config false true true 4) 0 world0 world0
                   (T2 2 [[1; 2]; [3; 4]]%float) (T2 1 [[neg_infinity]; [9]]%float)
                   (T2 1 [[5]; [6]]%float) (T2 1 [[2]]%float) _ _ _ _)).
  - reflexivity.
  - reflexivity.
  - cbn. lia.
  - reflexivity.
Defined.

(** A modality longer than [max_pad_num] is cut. *)
Example max_pad_truncates :
  (__getitem__ (config false true true 1) 0 world0).1 =
    Return (Padded (Sample4 (T2 2 [[1; 2]]%float) (T2 1 [[neg_infinity]]%float)
                            (T2 1 [[5]]%float) (T2 1 [[2]]%float))).
Proof. reflexivity. Qed.



(** With [aligned] unset each modality has its own offset: audio starts at
    frame 0, vision and text at frame 1. *)
Example getitem_unaligned_sample0 :
  __getitem__ (config false false false 50) 0 world0 =
    (Return (Unpadded (Sample5 (T2 2 [[1; 2]; [3; 4]]%float)
                               (T2 1 [[7]; [neg_infinity]; [9]]%float)
                               (T2 1 [[5]; [6]]%float) 0
                               (T2 1 [[2]]%float))), world0).
Proof. reflexivity. Qed.

(** C5 on sample 1, whose text row is zero throughout. *)
Lemma aligned_zero_text_exits_witness :
  __getitem__ (config false true false 50) 1 world0 =
    (SystemExit, World (dataset world0) (stdout world0 ++ [(text1, 1%Z)])).
Proof.
  apply (aligned_zero_text_exits (config false true false 50) 1 world0
           vision1 audio1 text1).
  - reflexivity.
  - reflexivity.
  - reflexivity.
  - reflexivity.
  - unfold all_zero. repeat (apply Forall_cons_2; [reflexivity|]). apply Forall_nil_2.
Defined.

(** The constructor on [world0]: the one audio entry equal to negative
    infinity becomes zero. *)
Example init_cleans_audio :
  ∃ self w',
    __init__ false true None false 50 "mosi" false world0 = (Return self, w') ∧
    dataset w' !! "audio" =
      Some [T2 1 [[7]; [0]; [9]]%float; audio1; audio2] ∧
    dataset w' !! "vision" = dataset world0 !! "vision".
Proof. do 2 eexists. split; [reflexivity|]. split; reflexivity. Qed.

(** ** Entry dropping *)

Lemma cancelling_common_count : common_count cancelling 2.
Proof.
  intros key arr Hkey. unfold cancelling in Hkey.
  repeat (apply lookup_insert_Some in Hkey as [[_ <-]|[_ Hkey]]; [reflexivity|]).
  by rewrite lookup_empty in Hkey.
Qed.

(** C10 on a split whose first text array is [[1, -1]]: it holds two
    non-zero entries, its sum is zero, and the sample goes. *)
Lemma drop_entry_by_sum_witness :
  eq_zero (np_sum (flatten cancel0)) = true ∧
  ¬ all_zero cancel0 ∧
  ∃ d' text',
    drop_entry cancelling = Return d' ∧
    d' !! "text" = Some text' ∧
    text' = [cancel1] ∧
    (cancel0 ∉ text') ∧
    length text' < length cancel_text ∧
    ∀ key arr, cancelling !! key = Some arr →
      ∃ arr', d' !! key = Some arr' ∧ length arr' < length arr.
Proof.
  assert (¬ all_zero cancel0) as Hnot.
  { intros Hz. apply Forall_inv in Hz. discriminate Hz. }
  split; [reflexivity|]. split; [exact Hnot|].
  destruct (drop_entry_by_sum cancelling cancel_text 2 eq_refl cancelling_common_count)
    as (d' & text' & Hret & Htext' & Heq & _ & _ & Hcancel).
  destruct (Hcancel 0 cancel0 eq_refl eq_refl Hnot) as (Hgone & Hshort & Hall).
  exists d', text'. repeat split; done.
Defined.

(** C6 fails on the same split.  Neither text array is zero throughout,
    yet sample 0, whose entries 1 and -1 sum to zero, is dropped from every
    array: the split goes from two samples to one although it holds no
    entry without text. *)
Lemma drop_entry_drops_cancelling_row :
  cancelling !! "text" = Some cancel_text ∧
  ¬ all_zero cancel0 ∧
  ¬ all_zero cancel1 ∧
  zero_sum cancel0 = true ∧
  ∃ d', drop_entry cancelling = Return d' ∧
    d' !! "text" = Some [cancel1] ∧
    d' !! "vision" = Some [T2 1 [[2]]%float] ∧
    d' !! "audio" = Some [T2 1 [[4]]%float] ∧
    d' !! "labels" = Some [T2 1 [[-1]]%float].
Proof.
  split; [reflexivity|].
  split; [intros Hz; apply Forall_inv in Hz; discriminate Hz|].
  split; [intros Hz; apply Forall_inv in Hz; discriminate Hz|].
  split; [reflexivity|].
  eexists. split.
  { apply (drop_entry_Return cancelling cancel_text); [reflexivity|].
    intros key arr Hkey. rewrite (cancelling_common_count _ _ Hkey). reflexivity. }
  rewrite !lookup_fmap. repeat split.
Qed.

(** ** The meld collator *)

(** C3 as written fails: the lengths 2, 5, 3 come back as [3, 4, 6], not as
    [3, 6, 4], because the batch is sorted first; so do the mask's row
    sums. *)
Lemma collate_fn_sorts_lengths :
  (λ s, length (token_ids s)) <$> meld_batch3 = [2; 5; 3] ∧
  ∃ b, collate_fn meld_batch3 = Return b ∧
    mb_lengths b = [3; 4; 6] ∧ mb_lengths b ≠ [3; 6; 4] ∧
    row_sum <$> mb_mask b = [3; 4; 6] ∧ row_sum <$> mb_mask b ≠ [3; 6; 4] ∧
    icols (mb_text b) = 6.
Proof.
  split; [reflexivity|].
  eexists. split; [reflexivity|].
  split; [reflexivity|]. split; [intros Heq; discriminate Heq|].
  split; [reflexivity|]. split; [intros Heq; discriminate Heq|].
  reflexivity.
Qed.

(** C3, amended, on the same three records. *)
Lemma collate_fn_2_5_3_witness :
  ∃ b, collate_fn [meld_a; meld_b; meld_c] = Return b ∧
    mb_labels b = [meld_label meld_a; meld_label meld_c; meld_label meld_b] ∧
    mb_lengths b = [3; 4; 6] ∧
    mb_mask b = [(λ t, t <? 3) <$> seq 0 6; (λ t, t <? 4) <$> seq 0 6;
                 (λ t, t <? 6) <$> seq 0 6] ∧
    row_sum <$> mb_mask b = [3; 4; 6] ∧
    icols (mb_text b) = 6 ∧
    Forall (λ row, length row = 6) (irows (mb_text b)).
Proof.
  apply (collate_fn_2_5_3 meld_a meld_b meld_c); reflexivity.
Defined.

(** The text batch of these records: a zero in front of every row, zeros
    behind the shorter ones. *)
Example collate_fn_text :
  mb_text <$> collate_fn meld_batch3 =
    Return (IT2 6 [ [0; 11; 12; 0; 0; 0]; [0; 31; 32; 33; 0; 0];
                    [0; 21; 22; 23; 24; 25] ]%Z).
Proof. reflexivity. Qed.


(** ** The collators on concrete batches *)

(** X1 on [batch5]. *)
Lemma process_1_returns_iff_witness :
  (∃ out, _process_1 batch5 = Return out) ↔
    (∀ i, i < 3 → copyable (get5 i <$> batch5)) ∧
    Forall (λ s, label_ok (label5 s)) batch5.
Proof.
  apply (process_1_returns_iff batch5).
  - repeat (apply Forall_cons_2; [repeat constructor|]). apply Forall_nil_2.
  - repeat (apply Forall_cons_2; [unfold int64; cbn; lia|]). apply Forall_nil_2.
Defined.

(** X2 on [batch4]. *)
Lemma process_2_returns_iff_witness :
  (∃ out, _process_2 batch4 = Return out) ↔ batch4 ≠ [] ∧ padded_batch batch4.
Proof.
  apply (process_2_returns_iff batch4).
  repeat (apply Forall_cons_2; [repeat constructor|]). apply Forall_nil_2.
Defined.

(** X3 on [batch4]. *)
Lemma process_2_keeps_frames_witness :
  items stacked_vision = (λ s, rows (vision4 s)) <$> batch4 ∧
  items stacked_audio = (λ s, rows (audio4 s)) <$> batch4 ∧
  items stacked_text = (λ s, rows (text4 s)) <$> batch4 ∧
  Forall (λ s, size0 (vision4 s) = dim1 stacked_vision ∧
               ncols (vision4 s) = dim2 stacked_vision ∧
               size0 (audio4 s) = dim1 stacked_audio ∧
               ncols (audio4 s) = dim2 stacked_audio ∧
               size0 (text4 s) = dim1 stacked_text ∧
               ncols (text4 s) = dim2 stacked_text) batch4.
Proof.
  apply (process_2_keeps_frames batch4 stacked_vision stacked_audio stacked_text
           stacked_labels).
  reflexivity.
Defined.

(** X4 on [even_batch5]. *)
Lemma process_1_agrees_with_process_2_witness :
  ∃ bv ba bt labels,
    _process_2 (without_index <$> even_batch5) = Return (bv, ba, bt, labels) ∧
    _process_1 even_batch5 =
      Return ([bv; ba; bt],
              (λ i, size0 <$> (get5 i <$> even_batch5)) <$> [0; 1; 2],
              (λ s, [ind5 s]) <$> even_batch5,
              labels).
Proof.
  apply (process_1_agrees_with_process_2 even_batch5).
  - discriminate.
  - exact batch4_padded.
Defined.

(** X6 on the three meld records. *)
Lemma collate_fn_lengths_and_mask_witness :
  ∃ b, collate_fn meld_batch3 = Return b ∧
    mb_labels b = meld_label <$> sorted meld_batch3 ∧
    mb_lengths b = (λ s, token_count s + 1) <$> sorted meld_batch3 ∧
    icols (mb_text b) = max_list (token_count <$> meld_batch3) + 1 ∧
    mb_mask b = (λ len, (λ t, t <? len) <$> seq 0 (icols (mb_text b))) <$> mb_lengths b ∧
    row_sum <$> mb_mask b = mb_lengths b.
Proof.
  apply (collate_fn_lengths_and_mask meld_batch3 1 1).
  - discriminate.
  - repeat (apply Forall_cons_2; [reflexivity|]). apply Forall_nil_2.
  - repeat (apply Forall_cons_2; [reflexivity|]). apply Forall_nil_2.
Defined.

(** X8 on two records of video width 2 and 1, for the record of width 1,
    which the sort puts second. *)
Lemma collate_fn_start_marker_witness :
  (∃ pad, irows (mb_text mixed_collated) !! 1 =
            Some (0%Z :: token_ids meld_narrow ++ replicate pad 0%Z) ∧
          S (token_count meld_narrow + pad) = icols (mb_text mixed_collated)) ∧
  (∃ pad, items (mb_visual mixed_collated) !! 1 =
            Some (zero_row (dim2 (mb_visual mixed_collated)) ::
                  rows (expand (dim2 (mb_visual mixed_collated))
                          (as_float (video_features meld_narrow))) ++
                  replicate pad (zero_row (dim2 (mb_visual mixed_collated)))) ∧
          S (size0 (video_features meld_narrow) + pad) = dim1 (mb_visual mixed_collated)) ∧
  (∃ pad, items (mb_acoustic mixed_collated) !! 1 =
            Some (zero_row (dim2 (mb_acoustic mixed_collated)) ::
                  rows (expand (dim2 (mb_acoustic mixed_collated))
                          (as_float (audio_features meld_narrow))) ++
                  replicate pad (zero_row (dim2 (mb_acoustic mixed_collated)))) ∧
          S (size0 (audio_features meld_narrow) + pad) = dim1 (mb_acoustic mixed_collated)).
Proof.
  apply (collate_fn_start_marker meld_mixed mixed_collated 1 meld_narrow); reflexivity.
Defined.



(** ** Retrieval on concrete splits *)

Lemma split_common_count : common_count split 3.
Proof.
  intros key arr Hkey. unfold split in Hkey.
  repeat (apply lookup_insert_Some in Hkey as [[_ <-]|[_ Hkey]]; [reflexivity|]).
  by rewrite lookup_empty in Hkey.
Qed.

Lemma split_drop_entry : drop_entry split = Return split'.
Proof.
  apply (drop_entry_Return split [text0; text1; text2]); [reflexivity|].
  intros key arr Harr. by rewrite (split_common_count key arr Harr).
Qed.

Lemma cancelling_drop_entry : drop_entry cancelling = Return cancelling'.
Proof.
  apply (drop_entry_Return cancelling cancel_text); [reflexivity|].
  intros key arr Harr. by rewrite (cancelling_common_count key arr Harr).
Qed.

Lemma split_text_zero (k : tensor2) :
  k ∈ [text0; text1; text2] → all_zero k → zero_sum k = true.
Proof.
  intros Hk Hall.
  repeat (apply elem_of_cons in Hk as [->|Hk]).
  - pose proof (Forall_lookup_1 _ _ 1 _ Hall eq_refl) as Hrow. discriminate Hrow.
  - reflexivity.
  - pose proof (Forall_lookup_1 _ _ 2 _ Hall eq_refl) as Hrow. discriminate Hrow.
  - by apply elem_of_nil in Hk.
Qed.

(** X13 on [split], whose sample 1 has no text. *)
Lemma no_exit_after_drop_entry_witness :
  (__getitem__ (config false true false 50) 1 (World split' [])).1 ≠ SystemExit.
Proof.
  apply (no_exit_after_drop_entry split split' [text0; text1; text2]).
  - reflexivity.
  - exact split_text_zero.
  - exact split_drop_entry.
Defined.

(** X15 on sample 0 of [split]. *)
Lemma aligned_keeps_frames_aligned_witness :
  ∃ start, is_first_nonzero text0 start ∧ start < 3 ∧
    size0 vision0_cut = 3 - start ∧ size0 audio0_cut = 3 - start ∧
    size0 text0_cut = 3 - start.
Proof.
  apply (aligned_keeps_frames_aligned (config false true false 50) 0 world0 world0
           vision0 audio0 text0 vision0_cut audio0_cut text0_cut label0 3);
    reflexivity.
Defined.

(** X16 on sample 0 of [split]. *)
Lemma z_norm_keeps_shape_witness :
  prepare (with_z_norm true (config false true false 50)) 0 world0 =
    (Return (z_normalize vision0_cut, z_normalize audio0_cut, z_normalize text0_cut,
             label0), world0) ∧
  Forall (λ x, size0 (z_normalize x) = size0 x ∧ ncols (z_normalize x) = ncols x ∧
               (rect x → rect (z_normalize x))) [vision0_cut; audio0_cut; text0_cut].
Proof.
  apply (z_norm_keeps_shape (config false true false 50) 0 world0 world0
           vision0_cut audio0_cut text0_cut label0).
  reflexivity.
Defined.

(** X17 on sample 0 of [split], whose stored label is 2. *)
Lemma classification_label_witness :
  ∃ tmp_label x,
    read "labels" 0 world0 = (Return tmp_label, world0) ∧
    flatten tmp_label = [x] ∧
    T2 1 [[of_int 1]] = T2 1 [[of_int (if gt_zero x then 1 else 0)]] ∧
    label_ok (T2 1 [[of_int 1]]).
Proof.
  apply (classification_label classify 0 world0 world0
           vision0_cut audio0_cut text0_cut (T2 1 [[of_int 1]])); reflexivity.
Defined.

(** X19 on [split]: index -1 is sample 2. *)
Lemma negative_index_wraps_witness :
  (prepare (config false true false 50) (-1) world0).1 =
  (prepare (config false true false 50) (Z.of_nat 3 + -1) world0).1.
Proof.
  apply (negative_index_wraps (config false true false 50) (-1) world0 3).
  - exact split_common_count.
  - lia.
Defined.

(** X20 on sample 0 of [split] with [max_pad_num = -1]. *)
Lemma negative_max_pad_num_raises_witness :
  __getitem__ (config false true true (-1)) 0 world0 = (Raise RuntimeError, world0).
Proof.
  apply (negative_max_pad_num_raises (config false true true (-1)) 0 world0 world0
           vision0_cut audio0_cut text0_cut label0);
    [reflexivity | reflexivity | cbn; lia | reflexivity].
Defined.

(** X22 on [split]. *)
Lemma init_cleans_audio_for_good_witness :
  (∃ audio audio', dataset world0 !! "audio" = Some audio ∧
     dataset world0_clean !! "audio" = Some audio' ∧
     Forall (λ t, Forall (Forall (λ x, is_neg_inf x = false)) (rows t)) audio' ∧
     Forall2 (λ t t', ncols t' = ncols t ∧
                      Forall2 (λ r r', length r' = length r) (rows t) (rows t'))
             audio audio') ∧
  (∀ flatten_time_series' aligned' task' max_pad' max_pad_num' data_type' z_norm',
     (__init__ flatten_time_series' aligned' task' max_pad' max_pad_num' data_type'
        z_norm' world0_clean).2 = world0_clean).
Proof.
  apply (init_cleans_audio_for_good false true None false 50 "mosi" false
           world0 world0_clean (config false true false 50)); reflexivity.
Defined.

(** X24 on a file of three splits. *)
Lemma get_dataloader_loaders_witness :
  ∃ result,
    get_dataloader (AffectData alldata) 32 50 false true 2 false None "mosi" false
      = Return result ∧
    ∃ train valid test, result = Affect train valid test ∧
      ∀ name ld shuffle,
        (name, ld, shuffle) ∈
          [("train", train, true); ("valid", valid, false); ("test", test, false)] →
        ∃ d d' audio text,
          alldata !! name = Some d ∧ drop_entry d = Return d' ∧
          d' !! "audio" = Some audio ∧ d !! "text" = Some text ∧
          ld = {| ld_self := {| flatten_ts := false; aligned := true;
                                task := None; max_pad := false;
                                max_pad_num := 50; data_type := "mosi";
                                z_norm := false |};
                  ld_data := <["audio" := clean_neg_inf <$> audio]> d';
                  ld_shuffle := shuffle; ld_num_workers := 2;
                  ld_batch_size := 32;
                  ld_collate_fn := process_1 |} ∧
          ((∀ k, k ∈ text → all_zero k → zero_sum k = true) →
           ∀ ind out,
             (__getitem__ (ld_self ld) ind (World (ld_data ld) out)).1 ≠ SystemExit).
Proof.
  destruct (get_dataloader_Return alldata 32 50 false true 2 false None "mosi" false
              split cancelling cancelling split' cancelling' cancelling'
              (delete_from 0 (zero_sum_indices 0 [text0; text1; text2])
                 [audio0; audio1; audio2])
              (delete_from 0 (zero_sum_indices 0 cancel_text) cancel_audio)
              (delete_from 0 (zero_sum_indices 0 cancel_text) cancel_audio))
    as [result Hresult];
    [repeat constructor | reflexivity | reflexivity | reflexivity
    | exact split_drop_entry | exact cancelling_drop_entry | exact cancelling_drop_entry
    | reflexivity | reflexivity | reflexivity | lia | lia
    | intros _; exists vision0, [vision2]; reflexivity |].
  exists result. split; [exact Hresult|].
  apply (get_dataloader_loaders alldata 32 50 false true 2 false None "mosi" false result).
  - repeat constructor.
  - exact Hresult.
Defined.

(** X26 on [cancelling]: one of its two samples is left. *)
Lemma len_after_drop_entry_witness :
  ∃ d', drop_entry cancelling = Return d' ∧
    (∀ out, __len__ (World d' out) =
              Return (length (filter (λ k, zero_sum k = false) cancel_text))) ∧
    common_count d' (length (filter (λ k, zero_sum k = false) cancel_text)).
Proof.
  apply (len_after_drop_entry cancelling cancel_text cancel_vision 2).
  - reflexivity.
  - reflexivity.
  - exact cancelling_common_count.
Defined.



(** X9 on a mapping of two records. *)
Lemma MeldDataset_serves_records_witness :
  ∃ self, MeldDataset_init meld_raw = Return self ∧
    MeldDataset_len self = length meld_raw ∧
    lav_dim self = Return (300, acoustic_size self, visual_size self) ∧
    (∀ i entry, meld_raw !! i = Some entry →
       MeldDataset_getitem self (Z.of_nat i) = Return (with_id entry) ∧
       MeldDataset_getitem self (Z.of_nat i - Z.of_nat (length meld_raw)) =
         Return (with_id entry)) ∧
    (∀ index, (Z.of_nat (length meld_raw) ≤ index ∨
               index < - Z.of_nat (length meld_raw))%Z →
       MeldDataset_getitem self index = Raise IndexError).
Proof.
  apply (proj2 (MeldDataset_serves_records meld_raw)). discriminate.
Defined.

(** X10 on [cancelling]: both of its text arrays fit every array. *)
Lemma drop_entry_outcomes_witness :
  drop_entry cancelling =
    Return (delete_from 0 (zero_sum_indices 0 cancel_text) <$> cancelling).
Proof.
  apply (proj1 (proj2 (drop_entry_outcomes cancelling)) cancel_text).
  - reflexivity.
  - intros key arr j k Harr Hj _.
    rewrite (cancelling_common_count key arr Harr).
    apply lookup_lt_Some in Hj. exact Hj.
Defined.

(** X11 on [cancelling]. *)
Lemma drop_entry_idempotent_witness : drop_entry cancelling' = Return cancelling'.
Proof.
  apply (proj1 (drop_entry_idempotent cancelling)). exact cancelling_drop_entry.
Defined.

(** X14 on sample 0 of [split]. *)
Lemma flatten_carries_same_entries_witness :
  __getitem__ (with_output true true (config false true false 50)) 0 world0 =
    (Return (Flat (flatten (vision5 sample0)) (flatten (audio5 sample0))
                  (flatten (text5 sample0)) (ind5 sample0) (label5 sample0)), world0).
Proof.
  apply (proj1 (flatten_carries_same_entries (config false true false 50) true 0 world0)).
  reflexivity.
Defined.

(** X18 on [split], which holds three samples. *)
Lemma getitem_lookup_errors_witness :
  __getitem__ (config false true false 50) 3 world0 = (Raise IndexError, world0).
Proof.
  apply (proj2 (getitem_lookup_errors (config false true false 50) 3 world0)
           [vision0; vision1; vision2]).
  - reflexivity.
  - left. cbn. lia.
Defined.

(** X23 on a file of three splits. *)
Lemma drop_all_splits_outcome_witness :
  (∀ split, split ∈ ["train"; "valid"; "test"] →
     ∃ d d', alldata !! split = Some d ∧ drop_entry d = Return d' ∧
       (<["test" := cancelling']> (<["valid" := cancelling']>
          (<["train" := split']> alldata))) !! split = Some d') ∧
  (∀ key, key ∉ ["train"; "valid"; "test"] →
     (<["test" := cancelling']> (<["valid" := cancelling']>
        (<["train" := split']> alldata))) !! key = alldata !! key).
Proof.
  apply (proj1 (drop_all_splits_outcome alldata)).
  apply (drop_all_splits_Return alldata split cancelling cancelling);
    [reflexivity | reflexivity | reflexivity
    | exact split_drop_entry | exact cancelling_drop_entry | exact cancelling_drop_entry].
Defined.



(** ** Normalisation on a concrete sample *)



(** The audio column that is 0.5 throughout has the computed mean 0.5 and
    comes out as zeros. *)
Example z_norm_constant_audio :
  mean (column 0 constant_audio) = (0.5%float : @scalar numeric) ∧
  column 0 (z_normalize constant_audio) = replicate 7 (0%float : @scalar numeric).
Proof. split; reflexivity. Qed.


(** ** The meld collator on mixed widths *)

(** X7 on two records of video width 1 and 2. *)
Lemma collate_fn_returns_iff_witness :
  (∃ b, collate_fn meld_mixed = Return b) ↔
  copyable (video_features <$> sorted meld_mixed) ∧
  copyable (audio_features <$> sorted meld_mixed).
Proof.
  apply (collate_fn_returns_iff meld_mixed).
  repeat (apply Forall_cons_2;
          [split; [repeat (apply Forall_cons_2; [unfold int64; cbn; lia|]);
                   apply Forall_nil_2
                  |unfold int64; cbn; lia]|]).
  apply Forall_nil_2.
Defined.

(** The record of width 2 has fewer tokens and goes first, so the batch
    is two columns wide and the frames [7] and [8] of the other record are
    spread over both; the audio value 0.1 is stored as a 32-bit float. *)
Example collate_fn_mixed : collate_fn meld_mixed = Return mixed_collated.
Proof. reflexivity. Qed.

(** With the records the other way round in width the batch is refused. *)
Example collate_fn_narrow_first :
  collate_fn [ {| Id := "n"; token_ids := [2]%Z; video_features := video_features meld_narrow;
                  audio_features := audio_features meld_narrow; meld_label := 1%Z |};
               {| Id := "w"; token_ids := [1; 3]%Z; video_features := video_features meld_wide;
                  audio_features := audio_features meld_wide; meld_label := 0%Z |} ]
    = Raise RuntimeError.
Proof. reflexivity. Qed.

(** ** The meld loader *)

(** X25 on a file of two records: a batch size of 0 is refused, one of 32
    gives the loader. *)
Lemma get_dataloader_other_branches_witness :
  get_dataloader (MeldData meld_raw) 0 50 false true 2 false None "meld" false
    = Raise ValueError ∧
  ∃ dataset,
    get_dataloader (MeldData meld_raw) 32 50 false true 2 false None "meld" false
      = Return (Meld dataset 32) ∧
    meld_data dataset = with_id <$> meld_raw ∧
    MeldDataset_len dataset = length meld_raw.
Proof.
  split.
  - apply (proj1 (proj2 (proj2 (get_dataloader_other_branches (MeldData meld_raw)
             0 50 false true 2 false None "meld" false) meld_raw eq_refl eq_refl)));
      [discriminate|lia].
  - apply (proj2 (proj2 (proj2 (get_dataloader_other_branches (MeldData meld_raw)
             32 50 false true 2 false None "meld" false) meld_raw eq_refl eq_refl)));
      [discriminate|lia].
Defined.

End Concrete.
